(** * Shot-detection engine of bball_shots (core.js): a shallow embedding

    The engine is plain JavaScript over IEEE-754 doubles.  Numbers are
    embedded as Rocq's primitive binary64 floats, so every operator below
    rounds, overflows and propagates NaN exactly as the source does.  Array
    indices and sample counts are naturals.  A numeric field that is absent
    from an object reads as [undefined]; every use the engine makes of such
    a field either converts it to NaN or treats it as NaN would be treated,
    so an absent numeric field is embedded as [nan].  The display strings
    ([name], [detail], [reason]) carried by some results are not embedded. *)

From Stdlib Require Import ZArith List Bool Lia Uint63 Floats.
From Stdlib Require Strings.String Strings.Ascii.
From Stdlib Require Numbers.DecimalString Numbers.DecimalPos Numbers.DecimalN.
Import ListNotations String.StringSyntax Ascii.AsciiSyntax.
Delimit Scope string_scope with string.
Delimit Scope char_scope with char.

Set Warnings "-inexact-float".
Set Implicit Arguments.

(** ** JavaScript number helpers *)

Module JS.

Local Open Scope float_scope.

(** A non-negative integer (a length, an index) as a number. *)
Definition of_nat (n : nat) : float := of_uint63 (Uint63.of_Z (Z.of_nat n)).

(** An integer (a difference of indices) as a number. *)
Definition of_Z (z : Z) : float :=
  match z with
  | Zneg p => - of_uint63 (Uint63.of_Z (Zpos p))
  | _ => of_uint63 (Uint63.of_Z z)
  end.

(** [x] is a number, not NaN. *)
Definition number (x : float) : Prop := is_nan x = false.

(** ToBoolean on a number: [0], [-0] and [NaN] (hence [undefined]) are falsy. *)
Definition truthy (x : float) : bool := negb (is_nan x || (x =? 0)).

(** [x || d] on numbers. *)
Definition or_else (x d : float) : float := if truthy x then x else d.

(** [o.field || d] where the options object or the field may be absent. *)
Definition or_default (o : option float) (d : float) : float :=
  match o with Some x => or_else x d | None => d end.

(** [o.field || d] for an integer-valued size option. *)
Definition or_default_nat (o : option nat) (d : nat) : nat :=
  match o with Some (S n) => S n | _ => d end.

(** [Math.max(a, b)] and [Math.min(a, b)]: NaN if either is NaN, and
    [-0] counts as smaller than [+0]. *)
Definition Math_max (a b : float) : float :=
  if is_nan a || is_nan b then nan
  else if a <? b then b
  else if b <? a then a
  else if get_sign a then b else a.

Definition Math_min (a b : float) : float :=
  if is_nan a || is_nan b then nan
  else if a <? b then a
  else if b <? a then b
  else if get_sign a then a else b.

(** [Math.max(...xs)] and [Math.min(...xs)]. *)
Definition Math_max_list (xs : list float) : float := fold_left Math_max xs neg_infinity.
Definition Math_min_list (xs : list float) : float := fold_left Math_min xs infinity.

(** [Math.abs]. *)
Definition Math_abs (x : float) : float := abs x.

(** [a[i]]: an out-of-range read gives [undefined], used as a number. *)
Definition get (a : list float) (i : nat) : float := nth i a nan.

(** [a[i - 1]]; index [-1] is out of range. *)
Definition get_prev (a : list float) (i : nat) : float :=
  match i with O => nan | S k => get a k end.

(** [a.slice(start, end)] for non-negative integer bounds. *)
Definition slice {A : Type} (a : list A) (start end_ : nat) : list A :=
  firstn (end_ - start)%nat (skipn start a).

(** [xs.reduce((a, b) => a + b, 0)]. *)
Definition sum (xs : list float) : float := fold_left add xs 0.

(** [xs.reduce((a, b) => a + b, 0) / xs.length]. *)
Definition mean (xs : list float) : float := sum xs / of_nat (length xs).

(** [xs.reduce((a, v) => a + (v - mean) ** 2, 0) / xs.length]; the square
    [x ** 2] is the correctly rounded product [x * x]. *)
Definition variance (xs : list float) (m : float) : float :=
  fold_left (fun a v => a + (v - m) * (v - m)) xs 0 / of_nat (length xs).

(** [Math.sqrt(variance)]. *)
Definition std (xs : list float) (m : float) : float := sqrt (variance xs m).

End JS.

(** ** IMU samples *)

(** The fields of an IMU sample that the engine reads. *)
Record Sample : Type := {
  t : float;
  tRel : float;
  aMag : float;
  gx : float;
  gy : float;
  gz : float
}.

(** ** IMUBuffer *)

Module IMUBuffer.

Record IMUBuffer (A : Type) : Type := {
  maxSize : nat;
  shiftSize : nat;
  data : list A;
  totalPushed : nat;
  offset : nat
}.

Arguments Build_IMUBuffer {A}.

(** [new IMUBuffer(maxSize = 3000, shiftSize = 1000)]. *)
Definition new {A : Type} (maxSize shiftSize : nat) : IMUBuffer A :=
  {| maxSize := maxSize; shiftSize := shiftSize; data := [];
     totalPushed := 0; offset := 0 |}.

Definition default {A : Type} : IMUBuffer A := new 3000 1000.

Definition push {A : Type} (b : IMUBuffer A) (sample : A) : IMUBuffer A :=
  let data1 := data b ++ [sample] in
  if maxSize b <? length data1
  then {| maxSize := maxSize b; shiftSize := shiftSize b;
          data := skipn (shiftSize b) data1;
          totalPushed := S (totalPushed b);
          offset := offset b + shiftSize b |}
  else {| maxSize := maxSize b; shiftSize := shiftSize b;
          data := data1;
          totalPushed := S (totalPushed b);
          offset := offset b |}.

Definition length {A : Type} (b : IMUBuffer A) : nat := List.length (data b).

Definition get {A : Type} (b : IMUBuffer A) (i : nat) : option A := nth_error (data b) i.

(** The absolute index for a buffer-relative index. *)
Definition absIndex {A : Type} (b : IMUBuffer A) (i : nat) : nat := i + offset b.

(** Last [n] samples; [n] is a non-negative integer. *)
Definition tail {A : Type} (b : IMUBuffer A) (n : nat) : list A :=
  let start := Nat.max 0 (List.length (data b) - n) in
  skipn start (data b).

Definition clear {A : Type} (b : IMUBuffer A) : IMUBuffer A :=
  {| maxSize := maxSize b; shiftSize := shiftSize b; data := [];
     totalPushed := 0; offset := 0 |}.

End IMUBuffer.

(** ** MovementDetector *)

Module MovementDetector.

Local Open Scope float_scope.

Definition MOVEMENT_WINDOW : nat := 20.
Definition MOVEMENT_THRESHOLD : float := 0.8.
Definition MOVEMENT_HYSTERESIS_MS : float := 800.

Record MovementDetector : Type := {
  window : list float;
  isMoving : bool;
  lastTransitionTime : float;
  intensity : float
}.

Definition new : MovementDetector :=
  {| window := []; isMoving := false; lastTransitionTime := 0; intensity := 0 |}.

(** The window after [push] and the conditional [shift]. *)
Definition pushed (w : list float) (aMag : float) : list float :=
  let w1 := w ++ [aMag] in
  if (MOVEMENT_WINDOW <? length w1)%nat then tl w1 else w1.

(** The standard deviation the detector computes over a full window. *)
Definition windowStd (w : list float) : float := JS.std w (JS.mean w).

(** [processSample(aMag, t)]: the new detector and the returned flag. *)
Definition processSample (d : MovementDetector) (aMag t : float)
  : MovementDetector * bool :=
  let w := pushed (window d) aMag in
  if (length w <? MOVEMENT_WINDOW)%nat
  then ({| window := w; isMoving := isMoving d;
           lastTransitionTime := lastTransitionTime d;
           intensity := intensity d |}, isMoving d)
  else
    let std := windowStd w in
    let intensity' := JS.Math_max 0 (JS.Math_min 1 ((std - 0.3) / 1.5)) in
    let nowMoving := MOVEMENT_THRESHOLD <? std in
    if negb (Bool.eqb nowMoving (isMoving d))
    then
      if nowMoving
      then ({| window := w; isMoving := true; lastTransitionTime := t;
               intensity := intensity' |}, true)
      else
        if MOVEMENT_HYSTERESIS_MS <? t - lastTransitionTime d
        then ({| window := w; isMoving := false; lastTransitionTime := t;
                 intensity := intensity' |}, false)
        else ({| window := w; isMoving := isMoving d;
                 lastTransitionTime := lastTransitionTime d;
                 intensity := intensity' |}, isMoving d)
    else ({| window := w; isMoving := isMoving d; lastTransitionTime := t;
             intensity := intensity' |}, isMoving d).

Definition reset (d : MovementDetector) : MovementDetector := new.

End MovementDetector.

(** Reading a field of an options object that may itself be absent. *)
Definition field {O X : Type} (o : option O) (f : O -> option X) : option X :=
  match o with Some r => f r | None => None end.

(** ** ShotDetectorConsensus *)

Module ShotDetectorConsensus.

Local Open Scope float_scope.

(** What each method returns: [{ vote, confidence }]. *)
Module Method.
Record t : Type := { vote : bool; confidence : float }.
End Method.

(** The per-method option objects; every field may be absent.  Window
    sizes are non-negative integers. *)
Module WindowSigmaOpts.
Record t : Type := { windowSize : option nat; sigma : option float }.
End WindowSigmaOpts.

Module EnvelopeRatioOpts.
Record t : Type := {
  shortWindow : option nat; longWindow : option nat; sigma : option float }.
End EnvelopeRatioOpts.

Module DipDepthOpts.
Record t : Type := { maxDip : option float }.
End DipDepthOpts.

Module PeakProminenceOpts.
Record t : Type := { neighborhood : option nat; minProminence : option float }.
End PeakProminenceOpts.

Module Opts.
Record t : Type := {
  windowSigma : option WindowSigmaOpts.t;
  envelopeRatio : option EnvelopeRatioOpts.t;
  dipDepth : option DipDepthOpts.t;
  peakProminence : option PeakProminenceOpts.t;
  minVotes : option float
}.
(** [{}] *)
Definition empty : t :=
  {| windowSigma := None; envelopeRatio := None; dipDepth := None;
     peakProminence := None; minVotes := None |}.
End Opts.

(** Method 1: window sigma. *)
Definition windowSigma (aMags : list float) (peakIdx : nat)
           (opts : option WindowSigmaOpts.t) : Method.t :=
  let windowSize := JS.or_default_nat (field opts WindowSigmaOpts.windowSize) 200 in
  let sigma := JS.or_default (field opts WindowSigmaOpts.sigma) 4.0 in
  let halfW := (windowSize / 2)%nat in
  let start := (peakIdx - halfW)%nat in
  let end_ := Nat.min (length aMags) (peakIdx + halfW) in
  let slice := JS.slice aMags start end_ in
  if (length slice <? 40)%nat
  then {| Method.vote := false; Method.confidence := 0 |}
  else
    let mean := JS.mean slice in
    let std := JS.std slice mean in
    let zScore := (JS.get aMags peakIdx - mean) / JS.or_else std 1 in
    let pass := sigma <? zScore in
    {| Method.vote := pass;
       Method.confidence := JS.Math_min 1 (zScore / (sigma + 2)) |}.

(** Method 2: envelope ratio. *)
Definition envelopeRatio (aMags : list float) (peakIdx : nat)
           (opts : option EnvelopeRatioOpts.t) : Method.t :=
  let shortW := JS.or_default_nat (field opts EnvelopeRatioOpts.shortWindow) 50 in
  let longW := JS.or_default_nat (field opts EnvelopeRatioOpts.longWindow) 200 in
  let sigma := JS.or_default (field opts EnvelopeRatioOpts.sigma) 4.0 in
  let sStart := (peakIdx - shortW / 2)%nat in
  let sEnd := Nat.min (length aMags) (sStart + shortW) in
  let shortSlice := JS.slice aMags sStart sEnd in
  if (length shortSlice <? 10)%nat
  then {| Method.vote := false; Method.confidence := 0 |}
  else
    let lEnd := (peakIdx - shortW / 2)%nat in
    let lStart := (lEnd - longW)%nat in
    let longSlice := JS.slice aMags lStart lEnd in
    if (length longSlice <? 20)%nat
    then {| Method.vote := false; Method.confidence := 0 |}
    else
      let shortMax := JS.Math_max_list shortSlice in
      let shortMin := JS.Math_min_list shortSlice in
      let shortRange := shortMax - shortMin in
      let longMean := JS.mean longSlice in
      let longStd := JS.std longSlice longMean in
      let ratio := if 0 <? longStd then shortRange / longStd else shortRange in
      let pass := sigma <? ratio in
      {| Method.vote := pass;
         Method.confidence := JS.Math_min 1 (ratio / (sigma + 3)) |}.

(** Method 3: dip depth. *)
Definition dipDepth (aMags : list float) (peakIdx dipIdx : nat)
           (opts : option DipDepthOpts.t) : Method.t :=
  let maxDipForShot := JS.or_default (field opts DipDepthOpts.maxDip) 5.0 in
  let dipVal := JS.get aMags dipIdx in
  let pass := dipVal <? maxDipForShot in
  {| Method.vote := pass;
     Method.confidence :=
       if pass then JS.Math_min 1 ((maxDipForShot - dipVal) / maxDipForShot) else 0 |}.

(** The running minimum kept by the two valley loops. *)
Definition lowest (aMags : list float) (js : list nat) (init : float) : float :=
  fold_left (fun m j => if JS.get aMags j <? m then JS.get aMags j else m) js init.

(** Method 4: peak prominence. *)
Definition peakProminence (aMags : list float) (peakIdx : nat)
           (opts : option PeakProminenceOpts.t) : Method.t :=
  let neighborhoodSize :=
    JS.or_default_nat (field opts PeakProminenceOpts.neighborhood) 100 in
  let minProminence :=
    JS.or_default (field opts PeakProminenceOpts.minProminence) 5.0 in
  let start := (peakIdx - neighborhoodSize)%nat in
  let end_ := Nat.min (length aMags) (peakIdx + neighborhoodSize) in
  let leftMin :=
    lowest aMags (rev (seq start (peakIdx - start))) (JS.get aMags peakIdx) in
  let rightMin :=
    lowest aMags (seq (S peakIdx) (end_ - S peakIdx)) (JS.get aMags peakIdx) in
  let prominence := JS.get aMags peakIdx - JS.Math_max leftMin rightMin in
  let pass := minProminence <? prominence in
  {| Method.vote := pass;
     Method.confidence := JS.Math_min 1 (prominence / (minProminence * 2)) |}.

Record Result : Type := {
  isShot : bool;
  votes : nat;
  total : nat;
  confidence : float;
  methods : list Method.t
}.

(** [opts.minVotes || 3] *)
Definition minVotesOf (opts : Opts.t) : float := JS.or_default (Opts.minVotes opts) 3.

(** The quorum over the method results: the lines of [evaluate] that
    follow the [methods] array. *)
Definition consensus (methods : list Method.t) (opts : Opts.t) : Result :=
  let votes := length (filter Method.vote methods) in
  let total := length methods in
  let minVotes := minVotesOf opts in
  {| isShot := minVotes <=? JS.of_nat votes;
     votes := votes;
     total := total;
     confidence := JS.of_nat votes / JS.of_nat total;
     methods := methods |}.

(** Run all detectors and produce the consensus. *)
Definition evaluate (aMags : list float) (peakIdx dipIdx recIdx : nat)
           (opts : Opts.t) : Result :=
  consensus
    [ windowSigma aMags peakIdx (Opts.windowSigma opts);
      envelopeRatio aMags peakIdx (Opts.envelopeRatio opts);
      dipDepth aMags peakIdx dipIdx (Opts.dipDepth opts);
      peakProminence aMags peakIdx (Opts.peakProminence opts) ]
    opts.

End ShotDetectorConsensus.

(** ** MotionCalibrator *)

Module MotionCalibrator.

Local Open Scope float_scope.

(** The twelve feature names, in the order of [featureKeys]. *)
Inductive FeatureKey : Type :=
| peakMag | dipMag | recoveryMag | range | dipRatio
| peakToDipSamples | dipToRecSamples | totalDuration
| gyroMagAtPeak | gyroMagAtDip | maxGyroInWindow | gyroDipToRec.

Definition featureKeys : list FeatureKey :=
  [ peakMag; dipMag; recoveryMag; range; dipRatio;
    peakToDipSamples; dipToRecSamples; totalDuration;
    gyroMagAtPeak; gyroMagAtDip; maxGyroInWindow; gyroDipToRec ].

(** The 12-dimension feature vector. *)
Module Features.
Record t : Type := {
  peakMag : float;
  dipMag : float;
  recoveryMag : float;
  range : float;
  dipRatio : float;
  peakToDipSamples : float;
  dipToRecSamples : float;
  totalDuration : float;
  gyroMagAtPeak : float;
  gyroMagAtDip : float;
  maxGyroInWindow : float;
  gyroDipToRec : float
}.
End Features.

(** [features[key]] *)
Definition feature (f : Features.t) (key : FeatureKey) : float :=
  match key with
  | peakMag => Features.peakMag f
  | dipMag => Features.dipMag f
  | recoveryMag => Features.recoveryMag f
  | range => Features.range f
  | dipRatio => Features.dipRatio f
  | peakToDipSamples => Features.peakToDipSamples f
  | dipToRecSamples => Features.dipToRecSamples f
  | totalDuration => Features.totalDuration f
  | gyroMagAtPeak => Features.gyroMagAtPeak f
  | gyroMagAtDip => Features.gyroMagAtDip f
  | maxGyroInWindow => Features.maxGyroInWindow f
  | gyroDipToRec => Features.gyroDipToRec f
  end.

(** Per-feature statistics [{ mean, std, min, max }]. *)
Module Stat.
Record t : Type := { mean : float; std : float; min : float; max : float }.
End Stat.

(** A profile: the pattern count and one statistic per feature.  A
    profile loaded from storage may lack any of them. *)
Module Profile.
Record t : Type := {
  count : nat;
  peakMag : option Stat.t;
  dipMag : option Stat.t;
  recoveryMag : option Stat.t;
  range : option Stat.t;
  dipRatio : option Stat.t;
  peakToDipSamples : option Stat.t;
  dipToRecSamples : option Stat.t;
  totalDuration : option Stat.t;
  gyroMagAtPeak : option Stat.t;
  gyroMagAtDip : option Stat.t;
  maxGyroInWindow : option Stat.t;
  gyroDipToRec : option Stat.t
}.
End Profile.

(** [profile[key]] *)
Definition stat (p : Profile.t) (key : FeatureKey) : option Stat.t :=
  match key with
  | peakMag => Profile.peakMag p
  | dipMag => Profile.dipMag p
  | recoveryMag => Profile.recoveryMag p
  | range => Profile.range p
  | dipRatio => Profile.dipRatio p
  | peakToDipSamples => Profile.peakToDipSamples p
  | dipToRecSamples => Profile.dipToRecSamples p
  | totalDuration => Profile.totalDuration p
  | gyroMagAtPeak => Profile.gyroMagAtPeak p
  | gyroMagAtDip => Profile.gyroMagAtDip p
  | maxGyroInWindow => Profile.maxGyroInWindow p
  | gyroDipToRec => Profile.gyroDipToRec p
  end.

(** [Math.sqrt(gx * gx + gy * gy + gz * gz)] with each axis read as [s.g || 0]. *)
Definition gyroMag (s : Sample) : float :=
  let gx := JS.or_else (gx s) 0 in
  let gy := JS.or_else (gy s) 0 in
  let gz := JS.or_else (gz s) 0 in
  sqrt (gx * gx + gy * gy + gz * gz).

(** [gyroMag(imuData[j])]; the loops below only read indices in range. *)
Definition gyroMagAt (imuData : list Sample) (j : nat) : float :=
  match nth_error imuData j with Some s => gyroMag s | None => nan end.

(** Extract the feature vector around a detected pattern. *)
Definition _extractFeatures (imuData : list Sample) (peakIdx dipIdx recIdx : nat)
           (baselineMean : float) : option Features.t :=
  if (length imuData <=? dipIdx)%nat || (length imuData <=? recIdx)%nat then None
  else
    match nth_error imuData peakIdx, nth_error imuData dipIdx,
          nth_error imuData recIdx with
    | Some peakSample, Some dipSample, Some recSample =>
      let peakMag := aMag peakSample in
      let dipMag := aMag dipSample in
      let recoveryMag := aMag recSample in
      let range := peakMag - dipMag in
      let dipRatio := if 0 <? baselineMean then dipMag / baselineMean else 1.0 in
      let peakToDipSamples := JS.of_Z (Z.of_nat dipIdx - Z.of_nat peakIdx) in
      let dipToRecSamples := JS.of_Z (Z.of_nat recIdx - Z.of_nat dipIdx) in
      let totalDuration := JS.of_Z (Z.of_nat recIdx - Z.of_nat peakIdx) in
      let gyroMagAtPeak := gyroMag peakSample in
      let gyroMagAtDip := gyroMag dipSample in
      let winStart := (peakIdx - 5)%nat in
      let winEnd := Nat.min (length imuData - 1) (recIdx + 5) in
      let maxGyroInWindow :=
        fold_left (fun m j => let g := gyroMagAt imuData j in if m <? g then g else m)
                  (seq winStart (S winEnd - winStart)) 0 in
      let gyroSum :=
        fold_left (fun s j => s + gyroMagAt imuData j)
                  (seq dipIdx (S recIdx - dipIdx)) 0 in
      let gyroCount := (S recIdx - dipIdx)%nat in
      let gyroDipToRec :=
        if (0 <? gyroCount)%nat then gyroSum / JS.of_nat gyroCount else 0 in
      Some {| Features.peakMag := peakMag;
              Features.dipMag := dipMag;
              Features.recoveryMag := recoveryMag;
              Features.range := range;
              Features.dipRatio := dipRatio;
              Features.peakToDipSamples := peakToDipSamples;
              Features.dipToRecSamples := dipToRecSamples;
              Features.totalDuration := totalDuration;
              Features.gyroMagAtPeak := gyroMagAtPeak;
              Features.gyroMagAtDip := gyroMagAtDip;
              Features.maxGyroInWindow := maxGyroInWindow;
              Features.gyroDipToRec := gyroDipToRec |}
    | _, _, _ => None
    end.

(** The body of the [for (const key of featureKeys)] loop: the statistic
    stored under [key]. *)
Definition keyStat (patterns : list Features.t) (key : FeatureKey) : Stat.t :=
  let vals := filter (fun v => negb (is_nan v)) (map (fun p => feature p key) patterns) in
  match vals with
  | [] => {| Stat.mean := 0; Stat.std := 0; Stat.min := 0; Stat.max := 0 |}
  | _ :: _ =>
    let mean := JS.mean vals in
    let std := JS.std vals mean in
    {| Stat.mean := mean; Stat.std := std;
       Stat.min := JS.Math_min_list vals; Stat.max := JS.Math_max_list vals |}
  end.

(** Per-feature statistics from a set of patterns; [None] is [null], and
    the argument is [None] when the pattern list is missing. *)
Definition computeProfile (patterns : option (list Features.t)) : option Profile.t :=
  match patterns with
  | None => None
  | Some [] => None
  | Some ps =>
    Some {| Profile.count := length ps;
            Profile.peakMag := Some (keyStat ps peakMag);
            Profile.dipMag := Some (keyStat ps dipMag);
            Profile.recoveryMag := Some (keyStat ps recoveryMag);
            Profile.range := Some (keyStat ps range);
            Profile.dipRatio := Some (keyStat ps dipRatio);
            Profile.peakToDipSamples := Some (keyStat ps peakToDipSamples);
            Profile.dipToRecSamples := Some (keyStat ps dipToRecSamples);
            Profile.totalDuration := Some (keyStat ps totalDuration);
            Profile.gyroMagAtPeak := Some (keyStat ps gyroMagAtPeak);
            Profile.gyroMagAtDip := Some (keyStat ps gyroMagAtDip);
            Profile.maxGyroInWindow := Some (keyStat ps maxGyroInWindow);
            Profile.gyroDipToRec := Some (keyStat ps gyroDipToRec) |}
  end.

(** [calibration.profiles]; each activity profile may be [null]. *)
Module Profiles.
Record t : Type := {
  walking : option Profile.t;
  running : option Profile.t;
  dribbling : option Profile.t;
  shooting : option Profile.t
}.
End Profiles.

(** A calibration set as [classify] reads it; [{}] has no [profiles]. *)
Record Calibration : Type := { profiles : option Profiles.t }.

Record Result : Type := { isShot : bool; confidence : float }.

(** The weights of stage 2, in the order of [Object.keys(weights)]. *)
Definition weights : list (FeatureKey * float) :=
  [ (peakMag, 1.0); (dipMag, 3.0); (dipRatio, 3.0); (recoveryMag, 1.0);
    (range, 2.0); (peakToDipSamples, 0.5); (dipToRecSamples, 0.5);
    (totalDuration, 0.5); (gyroMagAtPeak, 1.0); (gyroMagAtDip, 1.0);
    (maxGyroInWindow, 1.5); (gyroDipToRec, 2.5) ].

(** [distTo(profile)] *)
Definition distTo (features : Features.t) (profile : option Profile.t) : float :=
  match profile with
  | None => infinity
  | Some profile =>
    let '(sumWeightedZ, totalWeight) :=
      fold_left
        (fun (acc : float * float) (kw : FeatureKey * float) =>
           let '(sumWeightedZ, totalWeight) := acc in
           let '(key, w) := kw in
           match stat profile key with
           | None => acc
           | Some st =>
             if Stat.std st =? 0 then acc
             else
               let z := JS.Math_abs (feature features key - Stat.mean st) / Stat.std st in
               (sumWeightedZ + z * w, totalWeight + w)
           end)
        weights (0, 0) in
    if 0 <? totalWeight then sumWeightedZ / totalWeight else infinity
  end.

(** Stage 1 of [classify] for one noise profile: the hard-reject test. *)
Definition hardReject (features : Features.t) (maxShotDipRatio : float)
           (prof : option Profile.t) : bool :=
  match prof with
  | None => false
  | Some prof =>
    match Profile.dipRatio prof with
    | None => false
    | Some nd =>
      let inNoiseRange :=
        (Stat.mean nd - Stat.std nd <=? Features.dipRatio features)
        && (Features.dipRatio features <=? Stat.mean nd + Stat.std nd) in
      (maxShotDipRatio <? Features.dipRatio features) && inNoiseRange
    end
  end.

(** Classify a candidate using calibration profiles. *)
Definition classify (features : Features.t) (calibration : option Calibration) : Result :=
  match calibration with
  | None => {| isShot := true; confidence := 0 |}
  | Some calibration =>
    match profiles calibration with
    | None => {| isShot := true; confidence := 0 |}
    | Some profs =>
      match Profiles.shooting profs with
      | None => {| isShot := true; confidence := 0 |}
      | Some shootProf =>
        let stage1 :=
          match Profile.dipRatio shootProf with
          | None => false
          | Some sd =>
            if 0 <? Stat.std sd then
              let maxShotDipRatio := Stat.mean sd + 2 * Stat.std sd in
              existsb (hardReject features maxShotDipRatio)
                      [ Profiles.walking profs; Profiles.running profs;
                        Profiles.dribbling profs ]
            else false
          end in
        if stage1 then {| isShot := false; confidence := 0.9 |}
        else
          let shootDist := distTo features (Some shootProf) in
          let walkDist := distTo features (Profiles.walking profs) in
          let runDist := distTo features (Profiles.running profs) in
          let dribbleDist := distTo features (Profiles.dribbling profs) in
          let minNoiseDist := JS.Math_min_list [walkDist; runDist; dribbleDist] in
          let margin := 0.5 in
          if minNoiseDist + margin <? shootDist
          then {| isShot := false;
                  confidence := JS.Math_min 1 ((shootDist - minNoiseDist) / 3) |}
          else {| isShot := true;
                  confidence := JS.Math_min 1 ((minNoiseDist - shootDist + margin) / 3) |}
      end
    end
  end.

End MotionCalibrator.

(** ** ShotDetector *)

Module ShotDetector.

Local Open Scope float_scope.

Definition PEAK_SIGMA : float := 2.5.
Definition DIP_SIGMA : float := 1.5.
Definition RECOVERY_SIGMA : float := 1.0.
Definition PEAK_TO_DIP_SIGMA : float := 5.0.
Definition MIN_PEAK_ABS : float := 14.
Definition MAX_DIP_ABS : float := 6.
Definition MIN_RISE_FROM_DIP : float := 5.
Definition MIN_PEAK_TO_DIP_ABS : float := 8.
Definition BASELINE_WINDOW : nat := 80.
Definition BASELINE_OFFSET : nat := 20.
Definition DIP_SEARCH_WINDOW : nat := 35.
Definition RECOVERY_SEARCH_WINDOW : nat := 30.
Definition SCAN_START_OFFSET : nat := 90.
Definition SCAN_END_OFFSET : nat := 50.
Definition MIN_SHOT_INTERVAL_MS : float := 1200.
Definition MIN_SHOT_SAMPLES : Z := 60.
Definition MAX_EFFECTIVE_STD : float := 1.5.

(** The index of the last accepted shot: [-Infinity] until there is one. *)
Inductive LastIdx : Type :=
| NegInfinity
| At (idx : nat).

(** [i - lastIdx < MIN_SHOT_SAMPLES]; [i - (-Infinity)] is [Infinity]. *)
Definition tooClose (i : nat) (lastIdx : LastIdx) : bool :=
  match lastIdx with
  | NegInfinity => false
  | At l => (Z.of_nat i - Z.of_nat l <? MIN_SHOT_SAMPLES)%Z
  end.

Record ShotDetector : Type := {
  lastShotTime : float;
  lastShotIdx : LastIdx;
  calibration : option MotionCalibrator.Calibration;
  useConsensus : bool;
  consensusOpts : ShotDetectorConsensus.Opts.t
}.

Definition new : ShotDetector :=
  {| lastShotTime := 0; lastShotIdx := NegInfinity; calibration := None;
     useConsensus := false; consensusOpts := ShotDetectorConsensus.Opts.empty |}.

Module Baseline.
Record t : Type := { mean : float; std : float }.
End Baseline.

(** Baseline stats from a slice of aMag values. *)
Definition _baseline (aMags : list float) (endIdx : nat) : option Baseline.t :=
  let start := (endIdx - BASELINE_WINDOW)%nat in
  let slice := JS.slice aMags start endIdx in
  if (length slice <? 10)%nat then None
  else
    let mean := JS.mean slice in
    Some {| Baseline.mean := mean; Baseline.std := JS.std slice mean |}.

(** The dip loop: starting from [from], the index in [from, to_) holding
    the first strictly smallest value met. *)
Definition findDip (aMags : list float) (from to_ : nat) : nat :=
  fold_left (fun dipIdx j => if JS.get aMags j <? JS.get aMags dipIdx then j else dipIdx)
            (seq from (to_ - from)) from.

(** The recovery loop, likewise for the largest value. *)
Definition findRecovery (aMags : list float) (from to_ : nat) : nat :=
  fold_left (fun recIdx j => if JS.get aMags recIdx <? JS.get aMags j then j else recIdx)
            (seq from (to_ - from)) from.

(** A shot as [detectAll] records it. *)
Module Shot.
Record shot : Type := {
  idx : nat;
  mag : float;
  dipMag : float;
  recoveryMag : float;
  range : float;
  t : float;
  tRel : float;
  consensus : option ShotDetectorConsensus.Result;
  calibResult : option MotionCalibrator.Result
}.
End Shot.

(** A shot as [_checkCandidate] returns it. *)
Module LiveShot.
Record shot : Type := {
  idx : nat;
  bufferIdx : nat;
  mag : float;
  dipMag : float;
  recoveryMag : float;
  range : float;
  t : float;
  consensus : option ShotDetectorConsensus.Result;
  calibResult : option MotionCalibrator.Result
}.
End LiveShot.

(** The consensus post-filter: [None] when it is disabled. *)
Definition consensusOf (d : ShotDetector) (aMags : list float)
           (i dipIdx recIdx : nat) : option ShotDetectorConsensus.Result :=
  if useConsensus d
  then Some (ShotDetectorConsensus.evaluate aMags i dipIdx recIdx (consensusOpts d))
  else None.

(** [if (!consensus.isShot)] under [if (this.useConsensus)]. *)
Definition consensusRejects (c : option ShotDetectorConsensus.Result) : bool :=
  match c with
  | Some r => negb (ShotDetectorConsensus.isShot r)
  | None => false
  end.

(** The calibration post-filter: [None] when there is no calibration or
    no feature vector. *)
Definition calibResultOf (d : ShotDetector) (imuData : list Sample)
           (i dipIdx recIdx : nat) (baseMean : float)
  : option MotionCalibrator.Result :=
  match calibration d with
  | None => None
  | Some cal =>
    match MotionCalibrator._extractFeatures imuData i dipIdx recIdx baseMean with
    | None => None
    | Some features => Some (MotionCalibrator.classify features (Some cal))
    end
  end.

(** [if (!calibResult.isShot)] under [if (this.calibration)] and [if (features)]. *)
Definition calibrationRejects (r : option MotionCalibrator.Result) : bool :=
  match r with
  | Some r => negb (MotionCalibrator.isShot r)
  | None => false
  end.

(** The locals that [detectAll] carries from one iteration to the next. *)
Record BatchState : Type := {
  shots : list Shot.shot;
  lastIdx : LastIdx;
  lastTime : float
}.

(** One iteration of the [detectAll] loop at index [i]; every [continue]
    leaves the state as it was. *)
Definition detectStep (d : ShotDetector) (imuData : list Sample) (aMags : list float)
           (st : BatchState) (i : nat) : BatchState :=
  if (JS.get aMags i <=? JS.get_prev aMags i) || (JS.get aMags i <? JS.get aMags (i + 1))
  then st
  else
    let baseEnd := (i - BASELINE_OFFSET)%nat in
    match _baseline aMags baseEnd with
    | None => st
    | Some base =>
      let effStd := JS.Math_min (Baseline.std base) MAX_EFFECTIVE_STD in
      let peakThreshold := Baseline.mean base + PEAK_SIGMA * effStd in
      if (JS.get aMags i <? peakThreshold) || (JS.get aMags i <? MIN_PEAK_ABS) then st
      else if tooClose i (lastIdx st) then st
      else
        match nth_error imuData i with
        | None => st (* not reached: the loop keeps [i < imuData.length] *)
        | Some s =>
          let sampleTime := JS.or_else (JS.or_else (t s) (tRel s)) 0 in
          if (sampleTime - lastTime st <? MIN_SHOT_INTERVAL_MS) && (0 <? lastTime st)
          then st
          else
            let dipEnd := Nat.min (length aMags) (i + DIP_SEARCH_WINDOW) in
            let dipIdx := findDip aMags (i + 1) dipEnd in
            let dipThreshold := Baseline.mean base - DIP_SIGMA * Baseline.std base in
            if (dipThreshold <? JS.get aMags dipIdx) || (MAX_DIP_ABS <? JS.get aMags dipIdx)
            then st
            else
              let peakToDipRange := JS.get aMags i - JS.get aMags dipIdx in
              let minRange := JS.Math_max MIN_PEAK_TO_DIP_ABS (effStd * PEAK_TO_DIP_SIGMA) in
              if peakToDipRange <? minRange then st
              else
                let recEnd := Nat.min (length aMags) (dipIdx + RECOVERY_SEARCH_WINDOW) in
                if (recEnd <=? dipIdx + 1)%nat then st
                else
                  let recIdx := findRecovery aMags (dipIdx + 1) recEnd in
                  let recThreshold := Baseline.mean base + RECOVERY_SIGMA * effStd in
                  let riseFromDip := JS.get aMags recIdx - JS.get aMags dipIdx in
                  if (JS.get aMags recIdx <? recThreshold) || (riseFromDip <? MIN_RISE_FROM_DIP)
                  then st
                  else
                    let consensus := consensusOf d aMags i dipIdx recIdx in
                    if consensusRejects consensus then st
                    else
                      let calibResult :=
                        calibResultOf d imuData i dipIdx recIdx (Baseline.mean base) in
                      if calibrationRejects calibResult then st
                      else
                        {| shots := shots st ++
                             [ {| Shot.idx := i;
                                  Shot.mag := JS.get aMags i;
                                  Shot.dipMag := JS.get aMags dipIdx;
                                  Shot.recoveryMag := JS.get aMags recIdx;
                                  Shot.range := peakToDipRange;
                                  Shot.t := t s;
                                  Shot.tRel := tRel s;
                                  Shot.consensus := consensus;
                                  Shot.calibResult := calibResult |} ];
                           lastIdx := At i;
                           lastTime := sampleTime |}
        end
    end.

(** The indices [BASELINE_WINDOW + BASELINE_OFFSET <= i <
    aMags.length - DIP_SEARCH_WINDOW - RECOVERY_SEARCH_WINDOW] that the
    batch loop visits, in order. *)
Definition batchIndices (len : nat) : list nat :=
  let first := (BASELINE_WINDOW + BASELINE_OFFSET)%nat in
  seq first (len - DIP_SEARCH_WINDOW - RECOVERY_SEARCH_WINDOW - first).

(** Batch mode: detect all shots in a full recording. *)
Definition detectAll (d : ShotDetector) (imuData : list Sample) : list Shot.shot :=
  let aMags := map aMag imuData in
  shots (fold_left (detectStep d imuData aMags) (batchIndices (length aMags))
                   {| shots := []; lastIdx := NegInfinity; lastTime := 0 |}).

(** Check a single candidate peak in live mode: the result ([None] is
    [null]) and the detector afterwards. *)
Definition _checkCandidate (d : ShotDetector) (aMags : list float) (i len : nat)
           (currentTime : float) (buffer : IMUBuffer.IMUBuffer Sample)
  : option LiveShot.shot * ShotDetector :=
  if (JS.get aMags i <=? JS.get_prev aMags i) || (JS.get aMags i <? JS.get aMags (i + 1))
  then (None, d)
  else
    let baseEnd := (i - BASELINE_OFFSET)%nat in
    match _baseline aMags baseEnd with
    | None => (None, d)
    | Some base =>
      let effStd := JS.Math_min (Baseline.std base) MAX_EFFECTIVE_STD in
      let peakThreshold := Baseline.mean base + PEAK_SIGMA * effStd in
      if (JS.get aMags i <? peakThreshold) || (JS.get aMags i <? MIN_PEAK_ABS)
      then (None, d)
      else
        let absIdx := IMUBuffer.absIndex buffer i in
        if tooClose absIdx (lastShotIdx d) then (None, d)
        else if (currentTime - lastShotTime d <? MIN_SHOT_INTERVAL_MS)
                && (0 <? lastShotTime d)
        then (None, d)
        else
          let dipEnd := Nat.min len (i + DIP_SEARCH_WINDOW) in
          if (dipEnd <=? i + 1)%nat then (None, d)
          else
            let dipIdx := findDip aMags (i + 1) dipEnd in
            let dipThreshold := Baseline.mean base - DIP_SIGMA * Baseline.std base in
            if (dipThreshold <? JS.get aMags dipIdx) || (MAX_DIP_ABS <? JS.get aMags dipIdx)
            then (None, d)
            else
              let peakToDipRange := JS.get aMags i - JS.get aMags dipIdx in
              let minRange := JS.Math_max MIN_PEAK_TO_DIP_ABS (effStd * PEAK_TO_DIP_SIGMA) in
              if peakToDipRange <? minRange then (None, d)
              else
                let recEnd := Nat.min len (dipIdx + RECOVERY_SEARCH_WINDOW) in
                if (recEnd <=? dipIdx + 1)%nat then (None, d)
                else
                  let recIdx := findRecovery aMags (dipIdx + 1) recEnd in
                  let recThreshold := Baseline.mean base + RECOVERY_SIGMA * effStd in
                  let riseFromDip := JS.get aMags recIdx - JS.get aMags dipIdx in
                  if (JS.get aMags recIdx <? recThreshold) || (riseFromDip <? MIN_RISE_FROM_DIP)
                  then (None, d)
                  else
                    let consensus := consensusOf d aMags i dipIdx recIdx in
                    if consensusRejects consensus then (None, d)
                    else
                      let calibResult :=
                        calibResultOf d (IMUBuffer.data buffer) i dipIdx recIdx
                                      (Baseline.mean base) in
                      if calibrationRejects calibResult then (None, d)
                      else
                        (Some {| LiveShot.idx := absIdx;
                                 LiveShot.bufferIdx := i;
                                 LiveShot.mag := JS.get aMags i;
                                 LiveShot.dipMag := JS.get aMags dipIdx;
                                 LiveShot.recoveryMag := JS.get aMags recIdx;
                                 LiveShot.range := peakToDipRange;
                                 LiveShot.t := currentTime;
                                 LiveShot.consensus := consensus;
                                 LiveShot.calibResult := calibResult |},
                         {| lastShotTime := currentTime;
                            lastShotIdx := At absIdx;
                            calibration := calibration d;
                            useConsensus := useConsensus d;
                            consensusOpts := consensusOpts d |})
    end.

(** The [for] loop of [processSample]: the first candidate that yields a
    shot ends the scan. *)
Fixpoint scan (d : ShotDetector) (aMags : list float) (len : nat)
         (currentTime : float) (buffer : IMUBuffer.IMUBuffer Sample)
         (indices : list nat) : option LiveShot.shot * ShotDetector :=
  match indices with
  | [] => (None, d)
  | i :: rest =>
    match _checkCandidate d aMags i len currentTime buffer with
    | (Some result, d') => (Some result, d')
    | (None, d') => scan d' aMags len currentTime buffer rest
    end
  end.

(** Live mode: called after each new sample pushed to the buffer. *)
Definition processSample (d : ShotDetector) (buffer : IMUBuffer.IMUBuffer Sample)
           (currentTime : float) : option LiveShot.shot * ShotDetector :=
  let len := IMUBuffer.length buffer in
  if (len <? SCAN_START_OFFSET + BASELINE_WINDOW + BASELINE_OFFSET)%nat then (None, d)
  else
    let scanStart := (len - SCAN_START_OFFSET)%nat in
    let scanEnd := (len - SCAN_END_OFFSET)%nat in
    let aMags := map aMag (IMUBuffer.data buffer) in
    scan d aMags len currentTime buffer (seq scanStart (scanEnd - scanStart)).

Definition reset (d : ShotDetector) : ShotDetector :=
  {| lastShotTime := 0; lastShotIdx := NegInfinity;
     calibration := calibration d; useConsensus := useConsensus d;
     consensusOpts := consensusOpts d |}.

End ShotDetector.


(** ** The detector of js/core.js

    The repository also carries an earlier core.js, without the two
    post-filters and with the three thresholds that the later file
    tightened.  Its batch scan is embedded here as it is written there. *)

Module LegacyCore.

Local Open Scope float_scope.

Definition MAX_DIP_ABS : float := 8.
Definition MIN_RISE_FROM_DIP : float := 4.
Definition MIN_PEAK_TO_DIP_ABS : float := 6.

(** A shot as the earlier [detectAll] records it. *)
Module Shot.
Record shot : Type := {
  idx : nat;
  mag : float;
  dipMag : float;
  recoveryMag : float;
  range : float;
  t : float;
  tRel : float
}.
End Shot.

Record BatchState : Type := {
  shots : list Shot.shot;
  lastIdx : ShotDetector.LastIdx;
  lastTime : float
}.

(** One iteration of the earlier [detectAll] loop. *)
Definition detectStep (imuData : list Sample) (aMags : list float)
           (st : BatchState) (i : nat) : BatchState :=
  if (JS.get aMags i <=? JS.get_prev aMags i) || (JS.get aMags i <? JS.get aMags (i + 1))
  then st
  else
    let baseEnd := (i - ShotDetector.BASELINE_OFFSET)%nat in
    match ShotDetector._baseline aMags baseEnd with
    | None => st
    | Some base =>
      let effStd :=
        JS.Math_min (ShotDetector.Baseline.std base) ShotDetector.MAX_EFFECTIVE_STD in
      let peakThreshold :=
        ShotDetector.Baseline.mean base + ShotDetector.PEAK_SIGMA * effStd in
      if (JS.get aMags i <? peakThreshold) || (JS.get aMags i <? ShotDetector.MIN_PEAK_ABS)
      then st
      else if ShotDetector.tooClose i (lastIdx st) then st
      else
        match nth_error imuData i with
        | None => st (* not reached: the loop keeps [i < imuData.length] *)
        | Some s =>
          let sampleTime := JS.or_else (JS.or_else (t s) (tRel s)) 0 in
          if (sampleTime - lastTime st <? ShotDetector.MIN_SHOT_INTERVAL_MS)
             && (0 <? lastTime st)
          then st
          else
            let dipEnd := Nat.min (length aMags) (i + ShotDetector.DIP_SEARCH_WINDOW) in
            let dipIdx := ShotDetector.findDip aMags (i + 1) dipEnd in
            let dipThreshold :=
              ShotDetector.Baseline.mean base
              - ShotDetector.DIP_SIGMA * ShotDetector.Baseline.std base in
            if (dipThreshold <? JS.get aMags dipIdx) || (MAX_DIP_ABS <? JS.get aMags dipIdx)
            then st
            else
              let peakToDipRange := JS.get aMags i - JS.get aMags dipIdx in
              let minRange :=
                JS.Math_max MIN_PEAK_TO_DIP_ABS (effStd * ShotDetector.PEAK_TO_DIP_SIGMA) in
              if peakToDipRange <? minRange then st
              else
                let recEnd :=
                  Nat.min (length aMags) (dipIdx + ShotDetector.RECOVERY_SEARCH_WINDOW) in
                if (recEnd <=? dipIdx + 1)%nat then st
                else
                  let recIdx := ShotDetector.findRecovery aMags (dipIdx + 1) recEnd in
                  let recThreshold :=
                    ShotDetector.Baseline.mean base + ShotDetector.RECOVERY_SIGMA * effStd in
                  let riseFromDip := JS.get aMags recIdx - JS.get aMags dipIdx in
                  if (JS.get aMags recIdx <? recThreshold) || (riseFromDip <? MIN_RISE_FROM_DIP)
                  then st
                  else
                    {| shots := shots st ++
                         [ {| Shot.idx := i;
                              Shot.mag := JS.get aMags i;
                              Shot.dipMag := JS.get aMags dipIdx;
                              Shot.recoveryMag := JS.get aMags recIdx;
                              Shot.range := peakToDipRange;
                              Shot.t := t s;
                              Shot.tRel := tRel s |} ];
                       lastIdx := ShotDetector.At i;
                       lastTime := sampleTime |}
        end
    end.

(** Batch mode of the earlier file. *)
Definition detectAll (imuData : list Sample) : list Shot.shot :=
  let aMags := map aMag imuData in
  shots (fold_left (detectStep imuData aMags)
                   (ShotDetector.batchIndices (length aMags))
                   {| shots := []; lastIdx := ShotDetector.NegInfinity; lastTime := 0 |}).

End LegacyCore.

(** ** Runs of pushes on the buffer *)

Module BufferRun.
Import IMUBuffer.

(** The samples of a run, each labelled with its push ordinal. *)
Definition labelled {A : Type} (xs : list A) : list (nat * A) :=
  combine (seq 0 (List.length xs)) xs.

Definition pushAll {A : Type} (b : IMUBuffer A) (xs : list A) : IMUBuffer A :=
  fold_left push xs b.

(** The buffer after the first [n] samples of [xs] were pushed. *)
Definition after {A : Type} (maxSize shiftSize : nat) (xs : list A) (n : nat)
  : IMUBuffer (nat * A) :=
  pushAll (new maxSize shiftSize) (firstn n (labelled xs)).

(** The absolute index of the slot that push number [k] fills. *)
Definition assigned {A : Type} (maxSize shiftSize : nat) (xs : list A) (k : nat) : nat :=
  let b := after maxSize shiftSize xs k in absIndex b (length b).
(** What holds of the buffer after [n] pushes. *)
Record Inv {A : Type} (maxSize0 shiftSize0 : nat) (xs : list A) (n : nat) : Prop := {
  inv_len : length (after maxSize0 shiftSize0 xs n) <= n;
  inv_data : forall p, p < length (after maxSize0 shiftSize0 xs n) ->
     nth_error (data (after maxSize0 shiftSize0 xs n)) p =
     nth_error (labelled xs) (n - length (after maxSize0 shiftSize0 xs n) + p);
  inv_index : forall p, p < length (after maxSize0 shiftSize0 xs n) ->
     absIndex (after maxSize0 shiftSize0 xs n) p =
     assigned maxSize0 shiftSize0 xs (n - length (after maxSize0 shiftSize0 xs n) + p);
  inv_fresh : forall k, k < n ->
     assigned maxSize0 shiftSize0 xs k <
     absIndex (after maxSize0 shiftSize0 xs n) (length (after maxSize0 shiftSize0 xs n))
}.

End BufferRun.

(** ** What the detector's gates establish *)

Module Gates.
Import ShotDetector.
Local Open Scope float_scope.

(** The time of a batch sample: [imuData[i].t || imuData[i].tRel || 0]. *)
Definition sampleTimeOf (s : Sample) : float := JS.or_else (JS.or_else (t s) (tRel s)) 0.

(** Every test that a candidate at [i] has passed once the three-phase
    search is over, with the baseline and the dip and recovery indices the
    code worked with; [len] bounds the two searches. *)
Record Passed (aMags : list float) (len i : nat) (base : Baseline.t)
       (dipIdx recIdx : nat) : Prop := {
  passed_prev : (JS.get aMags i <=? JS.get_prev aMags i) = false;
  passed_next : (JS.get aMags i <? JS.get aMags (i + 1)) = false;
  passed_base : _baseline aMags (i - BASELINE_OFFSET) = Some base;
  passed_peak_sigma :
    (JS.get aMags i <?
     Baseline.mean base + PEAK_SIGMA * JS.Math_min (Baseline.std base) MAX_EFFECTIVE_STD)
    = false;
  passed_peak_abs : (JS.get aMags i <? MIN_PEAK_ABS) = false;
  passed_dipIdx : dipIdx = findDip aMags (i + 1) (Nat.min len (i + DIP_SEARCH_WINDOW));
  passed_dip_sigma :
    (Baseline.mean base - DIP_SIGMA * Baseline.std base <? JS.get aMags dipIdx) = false;
  passed_dip_abs : (MAX_DIP_ABS <? JS.get aMags dipIdx) = false;
  passed_range :
    (JS.get aMags i - JS.get aMags dipIdx <?
     JS.Math_max MIN_PEAK_TO_DIP_ABS
       (JS.Math_min (Baseline.std base) MAX_EFFECTIVE_STD * PEAK_TO_DIP_SIGMA)) = false;
  passed_rec_window : (dipIdx + 1 < Nat.min len (dipIdx + RECOVERY_SEARCH_WINDOW))%nat;
  passed_recIdx :
    recIdx = findRecovery aMags (dipIdx + 1) (Nat.min len (dipIdx + RECOVERY_SEARCH_WINDOW));
  passed_rec_sigma :
    (JS.get aMags recIdx <?
     Baseline.mean base + RECOVERY_SIGMA * JS.Math_min (Baseline.std base) MAX_EFFECTIVE_STD)
    = false;
  passed_rec_rise :
    (JS.get aMags recIdx - JS.get aMags dipIdx <? MIN_RISE_FROM_DIP) = false
}.

(** The shot that [detectAll] records for such a candidate. *)
Definition batchShot (d : ShotDetector) (imuData : list Sample) (aMags : list float)
           (i : nat) (s : Sample) (base : Baseline.t) (dipIdx recIdx : nat) : Shot.shot :=
  {| Shot.idx := i;
     Shot.mag := JS.get aMags i;
     Shot.dipMag := JS.get aMags dipIdx;
     Shot.recoveryMag := JS.get aMags recIdx;
     Shot.range := JS.get aMags i - JS.get aMags dipIdx;
     Shot.t := t s;
     Shot.tRel := tRel s;
     Shot.consensus := consensusOf d aMags i dipIdx recIdx;
     Shot.calibResult := calibResultOf d imuData i dipIdx recIdx (Baseline.mean base) |}.

(** The shot that [_checkCandidate] returns for such a candidate. *)
Definition liveShot (d : ShotDetector) (aMags : list float) (i : nat)
           (currentTime : float) (buffer : IMUBuffer.IMUBuffer Sample)
           (base : Baseline.t) (dipIdx recIdx : nat) : LiveShot.shot :=
  {| LiveShot.idx := IMUBuffer.absIndex buffer i;
     LiveShot.bufferIdx := i;
     LiveShot.mag := JS.get aMags i;
     LiveShot.dipMag := JS.get aMags dipIdx;
     LiveShot.recoveryMag := JS.get aMags recIdx;
     LiveShot.range := JS.get aMags i - JS.get aMags dipIdx;
     LiveShot.t := currentTime;
     LiveShot.consensus := consensusOf d aMags i dipIdx recIdx;
     LiveShot.calibResult :=
       calibResultOf d (IMUBuffer.data buffer) i dipIdx recIdx (Baseline.mean base) |}.

(** The detector after [_checkCandidate] has accepted a candidate. *)
Definition accepted (d : ShotDetector) (currentTime : float) (absIdx : nat) : ShotDetector :=
  {| lastShotTime := currentTime;
     lastShotIdx := At absIdx;
     calibration := calibration d;
     useConsensus := useConsensus d;
     consensusOpts := consensusOpts d |}.

(** The dip gate in the words of the specification: the smallest value in
    the window after the peak is at most [mean - 1.5 * std] for the unclamped
    baseline [std] and at most 6, and the peak-to-dip range is at least
    [max(8, effStd * 5.0)] for the clamped [effStd].  The code tests each
    bound by the opposite strict comparison; among numbers the two agree. *)
Definition dipGate (aMags : list float) (len i : nat) (mag dipMag range : float) : Prop :=
  exists (base : Baseline.t) (dipIdx : nat),
    _baseline aMags (i - 20) = Some base /\
    (i < dipIdx < i + 35)%nat /\ (dipIdx < len)%nat /\
    mag = JS.get aMags i /\
    dipMag = JS.get aMags dipIdx /\
    (forall j, (i < j < i + 35)%nat -> (j < len)%nat -> (JS.get aMags j <? dipMag) = false) /\
    range = mag - dipMag /\
    let effStd := JS.Math_min (Baseline.std base) 1.5 in
    let dipThreshold := Baseline.mean base - 1.5 * Baseline.std base in
    let minRange := JS.Math_max 8 (effStd * 5.0) in
    (dipThreshold <? dipMag) = false /\
    (6 <? dipMag) = false /\
    (range <? minRange) = false /\
    (JS.number dipMag -> JS.number dipThreshold -> (dipMag <=? dipThreshold) = true) /\
    (JS.number dipMag -> (dipMag <=? 6) = true) /\
    (JS.number range -> JS.number minRange -> (minRange <=? range) = true).

(** The local-maximum test as the specification words it:
    [aMag[i] > aMag[i+1]] and [aMag[i] >= aMag[i-1]]. *)
Definition specLocalMax (aMags : list float) (i : nat) : Prop :=
  (JS.get aMags (i + 1) <? JS.get aMags i) = true /\
  (JS.get_prev aMags i <=? JS.get aMags i) = true.

(** The local-maximum test as the code has it: a candidate goes on unless
    [aMags[i] <= aMags[i - 1] || aMags[i] < aMags[i + 1]]. *)
Definition codeLocalMax (aMags : list float) (i : nat) : Prop :=
  (JS.get aMags i <=? JS.get_prev aMags i) = false /\
  (JS.get aMags i <? JS.get aMags (i + 1)) = false.

(** Successive peak indices at least [MIN_SHOT_SAMPLES] apart. *)
Definition apart (i j : nat) : Prop := (i + 60 <= j)%nat.

(** Any two entries of a list of peak indices, taken in list order, are
    at least 60 samples apart. *)
Definition separated (idxs : list nat) : Prop :=
  forall p q i j, (p < q)%nat ->
    nth_error idxs p = Some i -> nth_error idxs q = Some j -> apart i j.

(** What the batch loop maintains: every recorded shot passed the gates
    at its own index, recorded indices are separated, and none exceeds the
    last accepted index. *)
Record BatchInv (d : ShotDetector) (imuData : list Sample) (st : BatchState) : Prop := {
  batch_shots : forall sh, In sh (shots st) ->
    exists s base dipIdx recIdx,
      Passed (map aMag imuData) (length (map aMag imuData)) (Shot.idx sh) base dipIdx recIdx /\
      nth_error imuData (Shot.idx sh) = Some s /\
      sh = batchShot d imuData (map aMag imuData) (Shot.idx sh) s base dipIdx recIdx;
  batch_separated : separated (map Shot.idx (shots st));
  batch_last : forall sh, In sh (shots st) ->
    exists l, lastIdx st = At l /\ (Shot.idx sh <= l)%nat
}.

(** A run of live calls: the detector is threaded through
    [processSample], one call per [(buffer, currentTime)], and the shots
    returned are collected in order. *)
Fixpoint run (d : ShotDetector) (calls : list (IMUBuffer.IMUBuffer Sample * float))
  : list LiveShot.shot * ShotDetector :=
  match calls with
  | [] => ([], d)
  | (buffer, currentTime) :: rest =>
    let '(result, d') := processSample d buffer currentTime in
    let '(later, d'') := run d' rest in
    (match result with Some shot => shot :: later | None => later end, d'')
  end.

End Gates.

(** ** Flipping one vote of the consensus *)

Module Quorum.
Import ShotDetectorConsensus.



End Quorum.

(** ** Feeding the movement detector *)

Module Movement.
Import MovementDetector.

(** [clamp(x, lo, hi)], written [Math.max(lo, Math.min(hi, x))] in the code. *)
Definition clamp (x lo hi : float) : float := JS.Math_max lo (JS.Math_min hi x).

(** The detector after a series of [processSample(aMag, t)] calls, and
    the flags they returned. *)
Fixpoint feed (d : MovementDetector) (samples : list (float * float))
  : MovementDetector * list bool :=
  match samples with
  | [] => (d, [])
  | (aMag, t) :: rest =>
    let '(d', r) := processSample d aMag t in
    let '(d'', rs) := feed d' rest in
    (d'', r :: rs)
  end.

(** Every call of a series finds the standard deviation of the window
    not above the threshold. *)
Fixpoint quiet (d : MovementDetector) (samples : list (float * float)) : Prop :=
  match samples with
  | [] => True
  | (aMag, t) :: rest =>
    (MOVEMENT_THRESHOLD <? windowStd (pushed (window d) aMag))%float = false /\
    quiet (fst (processSample d aMag t)) rest
  end.

End Movement.

(** ** The end-to-end scenarios as the specification states them *)

Module Scenarios.
Import ShotDetector MotionCalibrator.
Local Open Scope float_scope.

(** Scenario C: in a recording whose baseline standard deviation is 2.5
    at every index the batch scan visits, a candidate peak of 16, above the
    floor of 14 but only [1.5 * std] above the baseline mean, yields no
    shot. *)
Definition heavyMotionRejected : Prop :=
  forall (d : ShotDetector) (imuData : list Sample) (i : nat) (base : Baseline.t),
    let aMags := map aMag imuData in
    (forall j b, In j (batchIndices (length aMags)) ->
                 _baseline aMags (j - BASELINE_OFFSET) = Some b -> Baseline.std b = 2.5) ->
    In i (batchIndices (length aMags)) ->
    _baseline aMags (i - BASELINE_OFFSET) = Some base ->
    JS.get aMags i = 16 ->
    (MIN_PEAK_ABS <? JS.get aMags i) = true ->
    JS.get aMags i = Baseline.mean base + 1.5 * Baseline.std base ->
    forall sh, In sh (detectAll d imuData) -> Shot.idx sh <> i.

(** Scenario D, second half: the profile of [n] identical feature vectors
    has [count = n] and, for every feature, [std = 0] and [mean], [min] and
    [max] equal to the shared value. *)
Definition identicalProfileExact : Prop :=
  forall (f : Features.t) (n : nat), (0 < n)%nat ->
    exists p, computeProfile (Some (repeat f n)) = Some p /\
      Profile.count p = n /\
      forall key, exists st, stat p key = Some st /\
        Stat.std st = 0 /\ Stat.mean st = feature f key /\
        Stat.min st = feature f key /\ Stat.max st = feature f key.

End Scenarios.

(** ** Recordings used as concrete inputs *)

Module Recordings.
Import ShotDetector.
Local Open Scope float_scope.

(** A recording of [n] samples, 10 ms apart, whose magnitudes are given
    by [f]; the gyroscope is at rest. *)
Definition recording (f : nat -> float) (n : nat) : list Sample :=
  map (fun i => {| t := JS.of_nat (1000 + 10 * i); tRel := JS.of_nat (10 * i);
                   aMag := f i; gx := 0; gy := 0; gz := 0 |})
      (seq 0 n).

(** A still phone at 10 m/s^2 with one jump shot: the peak is 20 at
    sample 100, the dip 2 at sample 112, the recovery 15 at sample 132. *)
Definition oneShot : list Sample :=
  recording (fun i => if (i =? 100)%nat then 20
                      else if (i =? 112)%nat then 2
                      else if (i =? 132)%nat then 15
                      else 10) 200.

(** The same shot with a flat peak: samples 100 and 101 are both 20. *)
Definition flatPeak : list Sample :=
  recording (fun i => if (i =? 100)%nat then 20
                      else if (i =? 101)%nat then 20
                      else if (i =? 112)%nat then 2
                      else if (i =? 132)%nat then 15
                      else 10) 200.

(** The same shot with a shallower dip, 7 at sample 112. *)
Definition shallowDip : list Sample :=
  recording (fun i => if (i =? 100)%nat then 20
                      else if (i =? 112)%nat then 7
                      else if (i =? 132)%nat then 15
                      else 10) 200.

(** Two such shots, 150 samples apart. *)
Definition twoShots : list Sample :=
  recording (fun i => if (i =? 100)%nat || (i =? 250)%nat then 20
                      else if (i =? 112)%nat || (i =? 262)%nat then 2
                      else if (i =? 132)%nat || (i =? 282)%nat then 15
                      else 10) 400.

(** Heavy motion: the magnitude alternates between 9.75 and 14.75, so
    that every 80-sample window of it has mean 12.25 and standard deviation
    2.5.  Sample 100 is a peak of 16 and sample 112 a dip of 2. *)
Definition heavyMotion : list Sample :=
  recording (fun i => if (i =? 100)%nat then 16
                      else if (i =? 112)%nat then 2
                      else if Nat.even i then 9.75 else 14.75) 166.

(** A buffer holding a recording. *)
Definition bufferOf (samples : list Sample) : IMUBuffer.IMUBuffer Sample :=
  fold_left IMUBuffer.push samples IMUBuffer.default.

(** A feature vector whose twelve features all have the value [v]. *)
Definition uniform (v : float) : MotionCalibrator.Features.t :=
  {| MotionCalibrator.Features.peakMag := v;
     MotionCalibrator.Features.dipMag := v;
     MotionCalibrator.Features.recoveryMag := v;
     MotionCalibrator.Features.range := v;
     MotionCalibrator.Features.dipRatio := v;
     MotionCalibrator.Features.peakToDipSamples := v;
     MotionCalibrator.Features.dipToRecSamples := v;
     MotionCalibrator.Features.totalDuration := v;
     MotionCalibrator.Features.gyroMagAtPeak := v;
     MotionCalibrator.Features.gyroMagAtDip := v;
     MotionCalibrator.Features.maxGyroInWindow := v;
     MotionCalibrator.Features.gyroDipToRec := v |}.


(** Twenty magnitudes alternating between 9 and 11 (standard deviation
    1), 10 ms apart from [t0]. *)
Definition shaking (t0 : nat) : list (float * float) :=
  map (fun i => (if Nat.even i then 9 else 11, JS.of_nat (t0 + 10 * i))) (seq 0 20).

(** Twenty equal magnitudes, 100 ms apart from [t0]. *)
Definition resting (t0 : nat) : list (float * float) :=
  map (fun i => (10, JS.of_nat (t0 + 100 * i))) (seq 0 20).

(** A movement detector that has seen [shaking 1000]: it is moving. *)
Definition shaken : MovementDetector.MovementDetector :=
  fst (Movement.feed MovementDetector.new (shaking 1000)).

(** The same detector after the first fifteen samples of [resting 1200]
    as well: still moving, and the window was last above the threshold at
    1800 ms. *)
Definition settling : MovementDetector.MovementDetector :=
  fst (Movement.feed shaken (firstn 15 (resting 1200))).

(** A detector that accepted a shot at absolute index 40 at 4000 ms. *)
Definition afterShot : ShotDetector.ShotDetector :=
  Gates.accepted ShotDetector.new 4000 40.

End Recordings.

(** ** Pattern extraction and calibration (MotionCalibrator, continued)

    [extractPatterns] and [calibrate] use the search windows of the shot
    detector, so they are embedded after it. *)

Module PatternExtraction.

Local Open Scope float_scope.

(** A pattern: the feature vector with the [label] and [idx] that
    [extractPatterns] adds to it. *)
Record Pattern : Type := {
  features : MotionCalibrator.Features.t;
  label : String.string;
  idx : nat
}.

Definition minDrop : float := 3.0.
Definition minRise : float := 2.0.
Definition minSpacing : Z := 20.

(** [Math.max(globalMean + 1.0 * globalStd, 11.0)] over the whole recording. *)
Definition peakThresh (aMags : list float) : float :=
  let globalMean := JS.mean aMags in
  let globalStd := JS.std aMags globalMean in
  JS.Math_max (globalMean + 1.0 * globalStd) 11.0.

(** [i - lastPeakIdx < minSpacing]; [lastPeakIdx] starts at [-Infinity]. *)
Definition tooNear (i : nat) (lastPeakIdx : ShotDetector.LastIdx) : bool :=
  match lastPeakIdx with
  | ShotDetector.NegInfinity => false
  | ShotDetector.At l => (Z.of_nat i - Z.of_nat l <? minSpacing)%Z
  end.

(** The locals that the loop of [extractPatterns] carries along. *)
Record ExtractState : Type := {
  patterns : list Pattern;
  lastPeakIdx : ShotDetector.LastIdx
}.

(** One iteration of the loop of [extractPatterns] at index [i]. *)
Definition extractStep (imuData : list Sample) (aMags : list float) (thresh : float)
           (label : String.string) (st : ExtractState) (i : nat) : ExtractState :=
  if (JS.get aMags i <=? JS.get_prev aMags i) || (JS.get aMags i <? JS.get aMags (i + 1))
  then st
  else if JS.get aMags i <? thresh then st
  else if tooNear i (lastPeakIdx st) then st
  else
    let baseEnd := Nat.max 0 (i - ShotDetector.BASELINE_OFFSET) in
    let baseStart := Nat.max 0 (baseEnd - ShotDetector.BASELINE_WINDOW) in
    let baseSlice := JS.slice aMags baseStart baseEnd in
    if (length baseSlice <? 10)%nat then st
    else
      let baseMean := JS.mean baseSlice in
      let dipEnd := Nat.min (length aMags) (i + ShotDetector.DIP_SEARCH_WINDOW) in
      if (dipEnd <=? i + 1)%nat then st
      else
        let dipIdx := ShotDetector.findDip aMags (i + 1) dipEnd in
        let drop := JS.get aMags i - JS.get aMags dipIdx in
        if drop <? minDrop then st
        else
          let recEnd :=
            Nat.min (length aMags) (dipIdx + ShotDetector.RECOVERY_SEARCH_WINDOW) in
          if (recEnd <=? dipIdx + 1)%nat then st
          else
            let recIdx := ShotDetector.findRecovery aMags (dipIdx + 1) recEnd in
            let rise := JS.get aMags recIdx - JS.get aMags dipIdx in
            if rise <? minRise then st
            else
              match MotionCalibrator._extractFeatures imuData i dipIdx recIdx baseMean with
              | Some features =>
                {| patterns := patterns st ++
                     [ {| features := features; label := label; idx := i |} ];
                   lastPeakIdx := ShotDetector.At i |}
              | None => st
              end.

(** The indices [2 <= i < aMags.length - DIP_SEARCH_WINDOW -
    RECOVERY_SEARCH_WINDOW] of the loop, in order. *)
Definition extractIndices (len : nat) : list nat :=
  seq 2 (len - ShotDetector.DIP_SEARCH_WINDOW - ShotDetector.RECOVERY_SEARCH_WINDOW - 2).

(** Pattern extraction with relaxed thresholds. *)
Definition extractPatterns (imuData : list Sample) (label : String.string) : list Pattern :=
  let aMags := map aMag imuData in
  if (length aMags <? 60)%nat then []
  else
    patterns (fold_left (extractStep imuData aMags (peakThresh aMags) label)
                        (extractIndices (length aMags))
                        {| patterns := []; lastPeakIdx := ShotDetector.NegInfinity |}).

(** [patternCounts] *)
Module PatternCounts.
Record t : Type := { walking : nat; running : nat; dribbling : nat; shooting : nat }.
End PatternCounts.

(** The calibration set that [calibrate] builds. *)
Record CalibrationSet : Type := {
  timestamp : float;
  profiles : MotionCalibrator.Profiles.t;
  patternCounts : PatternCounts.t
}.

(** The calibration set as [classify] reads it. *)
Definition asCalibration (cal : CalibrationSet) : MotionCalibrator.Calibration :=
  {| MotionCalibrator.profiles := Some (profiles cal) |}.

(** [computeProfile] reads the twelve features of each pattern. *)
Definition profileOf (ps : list Pattern) : option MotionCalibrator.Profile.t :=
  MotionCalibrator.computeProfile (Some (map features ps)).

Definition CALIB_STORAGE_KEY : String.string := "bball_motion_calibration"%string.

Section Platform.

(** What the browser provides: the contents of [localStorage], its
    [setItem], which gives [None] when it throws, [JSON.stringify], and the
    clock that [Date.now()] reads. *)
Variable Store : Type.
Variable setItem : Store -> String.string -> String.string -> option Store.
Variable stringify : CalibrationSet -> String.string.

(** [save(cal)]: a failed write is dropped silently. *)
Definition save (store : Store) (cal : CalibrationSet) : Store :=
  match setItem store CALIB_STORAGE_KEY (stringify cal) with
  | Some store' => store'
  | None => store
  end.

(** Run full calibration from 4 activity recordings; [now] is what
    [Date.now()] returns.  The result and the storage afterwards. *)
Definition calibrate (now : float) (store : Store)
           (walkingIMU runningIMU dribblingIMU shootingIMU : list Sample)
  : CalibrationSet * Store :=
  let walkPatterns := extractPatterns walkingIMU "walking"%string in
  let runPatterns := extractPatterns runningIMU "running"%string in
  let dribblePatterns := extractPatterns dribblingIMU "dribbling"%string in
  let shootPatterns := extractPatterns shootingIMU "shooting"%string in
  let cal :=
    {| timestamp := now;
       profiles :=
         {| MotionCalibrator.Profiles.walking := profileOf walkPatterns;
            MotionCalibrator.Profiles.running := profileOf runPatterns;
            MotionCalibrator.Profiles.dribbling := profileOf dribblePatterns;
            MotionCalibrator.Profiles.shooting := profileOf shootPatterns |};
       patternCounts :=
         {| PatternCounts.walking := length walkPatterns;
            PatternCounts.running := length runPatterns;
            PatternCounts.dribbling := length dribblePatterns;
            PatternCounts.shooting := length shootPatterns |} |} in
  (cal, save store cal).

End Platform.

End PatternExtraction.

(** ** Court zones *)

Module Zones.

Local Open Scope float_scope.

Definition THREE_POINT_DIST : float := 7.24.
Definition CORNER_THREE_DIST : float := 6.7.

(** [Math.PI] *)
Definition Math_PI : float := 3.141592653589793.

(** [ZONE_COLORS], in the order of its keys. *)
Definition ZONE_COLORS : list (String.string * String.string) :=
  [ ("RIM", "#ef4444"); ("PAINT", "#f97316"); ("SHORT", "#f59e0b");
    ("FT-LINE", "#eab308"); ("L-BASE", "#84cc16"); ("R-BASE", "#22c55e");
    ("L-WING 3", "#14b8a6"); ("R-WING 3", "#06b6d4");
    ("L-CORNER 3", "#3b82f6"); ("R-CORNER 3", "#8b5cf6");
    ("TOP 3", "#a855f7") ]%string.

(** [Object.keys(ZONE_COLORS)] *)
Definition ALL_ZONES : list String.string := map fst ZONE_COLORS.

Section ClassifyZone.

(** [Math.atan2], which the primitive floats do not provide. *)
Variable Math_atan2 : float -> float -> float.

Definition classifyZone (x y : float) : String.string :=
  let dist := sqrt (x * x + y * y) in
  let angle := Math_atan2 x y * (180 / Math_PI) in
  if dist <? 1.5 then "RIM"%string
  else if dist <? 3.0 then "PAINT"%string
  else if dist <? 4.0 then "SHORT"%string
  else if (dist <? 5.0) && (JS.Math_abs angle <? 30) then "FT-LINE"%string
  else
    let isCorner := y <? 1.5 in
    let threePointDist := if isCorner then CORNER_THREE_DIST else THREE_POINT_DIST in
    if dist <? threePointDist then
      if angle <? -30 then "L-BASE"%string
      else if 30 <? angle then "R-BASE"%string
      else "SHORT"%string
    else if isCorner then
      if x <? 0 then "L-CORNER 3"%string else "R-CORNER 3"%string
    else if angle <? -30 then "L-WING 3"%string
    else if 30 <? angle then "R-WING 3"%string
    else "TOP 3"%string.

End ClassifyZone.

(** The own property [ZONE_COLORS[zone]], if there is one. *)
Fixpoint lookup (zone : String.string) (table : list (String.string * String.string))
  : option String.string :=
  match table with
  | [] => None
  | (k, v) :: rest => if String.eqb zone k then Some v else lookup zone rest
  end.

(** [ZONE_COLORS[zone] || '#888'], for a [zone] that does not name a
    property inherited from [Object.prototype]. *)
Definition zoneColor (zone : String.string) : String.string :=
  match lookup zone ZONE_COLORS with
  | Some c => if String.eqb c ""%string then "#888"%string else c
  | None => "#888"%string
  end.

End Zones.

(** ** Session *)

Module Court.
Module Point.
Record t : Type := { x : float; y : float }.
End Point.
Record t : Type := {
  rim : Point.t; ft : Point.t; top3 : Point.t; left3 : Point.t; right3 : Point.t }.
End Court.

(** Court position constants. *)
Definition COURT : Court.t :=
  {| Court.rim := {| Court.Point.x := 0; Court.Point.y := 0 |};
     Court.ft := {| Court.Point.x := 0; Court.Point.y := 4.6 |};
     Court.top3 := {| Court.Point.x := 0; Court.Point.y := 7.24 |};
     Court.left3 := {| Court.Point.x := (-6.7)%float; Court.Point.y := 0.9 |};
     Court.right3 := {| Court.Point.x := 6.7; Court.Point.y := 0.9 |} |}.

Module Session.

Local Open Scope float_scope.

(** A session stores IMU and GPS samples, events, shots, anchors,
    segments and edits without reading them; their types are left open. *)
Record Elements : Type := {
  Imu : Type; Gps : Type; Evt : Type; Shot : Type;
  Anchor : Type; Segment : Type; Edits : Type
}.

(** [{ rim, top3, left, right }], each an anchor or [null]. *)
Module GpsCalibration.
Record t (E : Elements) : Type := {
  rim : option (Anchor E); top3 : option (Anchor E);
  left : option (Anchor E); right : option (Anchor E) }.
End GpsCalibration.

Module Summary.
Record t : Type := { imuSamples : nat; gpsSamples : nat; events : nat; shots : nat }.
End Summary.

Record Session (E : Elements) : Type := {
  sessionId : String.string;
  startTime : float;
  imu : list (Imu E);
  gps : list (Gps E);
  events : list (Evt E);
  shots : list (Shot E);
  gpsCalibration : GpsCalibration.t E;
  courtPositions : Court.t;
  segments : list (Segment E);
  userEdits : option (Edits E)
}.

(** The object that [toJSON] builds and [fromJSON] reads; any of its
    properties may be missing. *)
Module Data.
Record t (E : Elements) : Type := {
  sessionId : option String.string;
  exportTime : option float;
  startTime : option float;
  duration : option float;
  gpsCalibration : option (GpsCalibration.t E);
  courtPositions : option Court.t;
  summary : option Summary.t;
  imu : option (list (Imu E));
  gps : option (list (Gps E));
  events : option (list (Evt E));
  shots : option (list (Shot E));
  segments : option (list (Segment E));
  userEdits : option (Edits E)
}.
End Data.

(** [Date.now()] gives a whole number of milliseconds; as a number, and
    as the decimal string that ['bball_' + Date.now()] appends. *)
Definition clock (now : N) : float := JS.of_Z (Z.of_N now).
Definition decimal (now : N) : String.string :=
  DecimalString.NilZero.string_of_uint (N.to_uint now).

(** [x || d] for a string: the empty string is falsy. *)
Definition string_or (x : option String.string) (d : String.string) : String.string :=
  match x with
  | Some s => if String.eqb s ""%string then d else s
  | None => d
  end.

(** [x || d] for an object or an array, which is truthy when present. *)
Definition object_or {X : Type} (x : option X) (d : X) : X :=
  match x with Some v => v | None => d end.

Section Session.

Variable E : Elements.

(** [new Session()]; the constructor reads the clock twice. *)
Definition new (now1 now2 : N) : Session E :=
  {| sessionId := String.append "bball_"%string (decimal now1);
     startTime := clock now2;
     imu := []; gps := []; events := []; shots := [];
     gpsCalibration :=
       {| GpsCalibration.rim := None; GpsCalibration.top3 := None;
          GpsCalibration.left := None; GpsCalibration.right := None |};
     courtPositions := COURT;
     segments := [];
     userEdits := None |}.

Definition duration (s : Session E) (now : N) : float := clock now - startTime s.

Definition addIMU (s : Session E) (sample : Imu E) : Session E :=
  {| sessionId := sessionId s; startTime := startTime s;
     imu := imu s ++ [sample]; gps := gps s; events := events s; shots := shots s;
     gpsCalibration := gpsCalibration s; courtPositions := courtPositions s;
     segments := segments s; userEdits := userEdits s |}.

Definition addGPS (s : Session E) (sample : Gps E) : Session E :=
  {| sessionId := sessionId s; startTime := startTime s;
     imu := imu s; gps := gps s ++ [sample]; events := events s; shots := shots s;
     gpsCalibration := gpsCalibration s; courtPositions := courtPositions s;
     segments := segments s; userEdits := userEdits s |}.

Definition addEvent (s : Session E) (evt : Evt E) : Session E :=
  {| sessionId := sessionId s; startTime := startTime s;
     imu := imu s; gps := gps s; events := events s ++ [evt]; shots := shots s;
     gpsCalibration := gpsCalibration s; courtPositions := courtPositions s;
     segments := segments s; userEdits := userEdits s |}.

Definition addShot (s : Session E) (shot : Shot E) : Session E :=
  {| sessionId := sessionId s; startTime := startTime s;
     imu := imu s; gps := gps s; events := events s; shots := shots s ++ [shot];
     gpsCalibration := gpsCalibration s; courtPositions := courtPositions s;
     segments := segments s; userEdits := userEdits s |}.

(** [toJSON()]; it reads the clock for [exportTime] and again for
    [duration]. *)
Definition toJSON (s : Session E) (now1 now2 : N) : Data.t E :=
  {| Data.sessionId := Some (sessionId s);
     Data.exportTime := Some (clock now1);
     Data.startTime := Some (startTime s);
     Data.duration := Some (duration s now2);
     Data.gpsCalibration := Some (gpsCalibration s);
     Data.courtPositions := Some (courtPositions s);
     Data.summary :=
       Some {| Summary.imuSamples := length (imu s);
               Summary.gpsSamples := length (gps s);
               Summary.events := length (events s);
               Summary.shots := length (shots s) |};
     Data.imu := Some (imu s);
     Data.gps := Some (gps s);
     Data.events := Some (events s);
     Data.shots := Some (shots s);
     Data.segments := if (0 <? length (segments s))%nat then Some (segments s) else None;
     Data.userEdits := userEdits s |}.

(** [Session.fromJSON(data)]; the two clock readings are those of the
    constructor. *)
Definition fromJSON (data : Data.t E) (now1 now2 : N) : Session E :=
  let s := new now1 now2 in
  {| sessionId := string_or (Data.sessionId data) (sessionId s);
     startTime := JS.or_default (Data.startTime data) (startTime s);
     imu := object_or (Data.imu data) [];
     gps := object_or (Data.gps data) [];
     events := object_or (Data.events data) [];
     shots := object_or (Data.shots data) [];
     gpsCalibration := object_or (Data.gpsCalibration data) (gpsCalibration s);
     courtPositions := object_or (Data.courtPositions data) (courtPositions s);
     segments := object_or (Data.segments data) [];
     userEdits := Data.userEdits data |}.

End Session.

End Session.

(** ** Utilities *)

Module Util.

(** [String(n)] for an integer. *)
Definition String_of (n : Z) : String.string :=
  match n with
  | Zneg p => String.String "-"%char (Session.decimal (Npos p))
  | _ => Session.decimal (Z.to_N n)
  end.

(** [s.padStart(2, '0')] *)
Definition padStart2 (s : String.string) : String.string :=
  match String.length s with
  | 0 => "00"%string
  | 1 => String.String "0"%char s
  | _ => s
  end.

(** The whole numbers of the safe-integer range, [|x| <= 2^53 - 1].
    [formatTime] and [formatTimeFromSec] compute on doubles.  For a double
    that holds such a whole number, the exact quotient by 1000 or by 60 is
    either a whole number or at least 0.001, respectively 1/60, away from
    the next one, which is more than half the spacing of the doubles there:
    the rounded quotient does not reach the next whole number, and
    [Math.floor] of it is [Z.div].  [%] is exact and truncates as [Z.rem]
    does, and [String] of the whole numbers that arise is their decimal
    numeral.  Beyond that range a quotient may round to the next whole
    number, and from 1e21 on [String] writes an exponent. *)
Definition isSafeInteger (x : Z) : bool := (- 2 ^ 53 <? x)%Z && (x <? 2 ^ 53)%Z.

(** [formatTime(ms)] for a whole number of milliseconds of the
    safe-integer range; [None] stands for an argument outside it, which
    this embedding does not cover. *)
Definition formatTime (ms : Z) : option String.string :=
  if isSafeInteger ms then
    let totalSec := (ms / 1000)%Z in
    let m := (totalSec / 60)%Z in
    let s := Z.rem totalSec 60 in
    Some (String.append (padStart2 (String_of m))
                        (String.append ":"%string (padStart2 (String_of s))))
  else None.

(** [formatTimeFromSec(sec)] for a whole number of seconds of the
    safe-integer range; [None] as for [formatTime]. *)
Definition formatTimeFromSec (sec : Z) : option String.string :=
  if isSafeInteger sec then
    let m := (sec / 60)%Z in
    let s := Z.rem sec 60 in
    Some (String.append (padStart2 (String_of m))
                        (String.append ":"%string (padStart2 (String_of s))))
  else None.

End Util.

(** ** The live loop of tracker.js *)

Module Tracker.

(** What [onDeviceMotion] keeps of the recording: the samples of the
    session, the shots it was told of, the buffer and the shot detector. *)
Record State : Type := {
  imu : list Sample;
  shots : list ShotDetector.LiveShot.shot;
  buffer : IMUBuffer.IMUBuffer Sample;
  shotDetector : ShotDetector.ShotDetector
}.

(** The calls that [onDeviceMotion] makes for a sample, once it is built:
    [buffer.push(sample)], [session.addIMU(sample)] and
    [shotDetector.processSample(buffer, now)], where [now] is the time
    stored in the sample. *)
Definition onSample (st : State) (sample : Sample) : State :=
  let buffer' := IMUBuffer.push (buffer st) sample in
  let '(shot, detector') :=
    ShotDetector.processSample (shotDetector st) buffer' (t sample) in
  {| imu := imu st ++ [sample];
     shots := match shot with Some sh => shots st ++ [sh] | None => shots st end;
     buffer := buffer';
     shotDetector := detector' |}.

(** A recording: the state that [startRecording] sets up, with the
    detector it ends up with, fed the samples in order. *)
Definition live (maxSize shiftSize : nat) (detector : ShotDetector.ShotDetector)
           (samples : list Sample) : State :=
  fold_left onSample samples
            {| imu := []; shots := []; buffer := IMUBuffer.new maxSize shiftSize;
               shotDetector := detector |}.

End Tracker.

(** ** The other gates, and how the two modes relate *)

Module Statements.
Import ShotDetector Gates.
Local Open Scope float_scope.

(** The peak gate: the magnitude at [i] is not below
    [mean + 2.5 * effStd], nor below 14, where [mean] and [std] are taken
    over at least 10 of the samples [i - 100 .. i - 21] and [effStd] is
    [std] capped at 1.5.  The code tests each bound by the opposite strict
    comparison; among numbers the two agree. *)
Definition peakGate (aMags : list float) (i : nat) (mag : float) : Prop :=
  exists base : Baseline.t,
    let window := JS.slice aMags (i - 20 - 80) (i - 20) in
    (10 <= length window)%nat /\
    Baseline.mean base = JS.mean window /\
    Baseline.std base = JS.std window (JS.mean window) /\
    mag = JS.get aMags i /\
    let effStd := JS.Math_min (Baseline.std base) 1.5 in
    let peakThreshold := Baseline.mean base + 2.5 * effStd in
    (mag <? peakThreshold) = false /\
    (mag <? 14) = false /\
    (JS.number mag -> JS.number peakThreshold -> (peakThreshold <=? mag) = true) /\
    (JS.number mag -> (14 <=? mag) = true).

(** The recovery gate: some dip index within 35 samples after the peak
    holds [dipMag]; the largest magnitude of the up to 29 samples after the
    dip is [recoveryMag]; it is not below [mean + 1.0 * effStd], and it
    exceeds the dip by no less than 5. *)
Definition recoveryGate (aMags : list float) (len i : nat) (dipMag recoveryMag : float)
  : Prop :=
  exists (base : Baseline.t) (dipIdx recIdx : nat),
    _baseline aMags (i - 20) = Some base /\
    (i < dipIdx < i + 35)%nat /\ dipMag = JS.get aMags dipIdx /\
    (dipIdx < recIdx < dipIdx + 30)%nat /\ (recIdx < len)%nat /\
    recoveryMag = JS.get aMags recIdx /\
    (forall j, (dipIdx < j < dipIdx + 30)%nat -> (j < len)%nat ->
               (recoveryMag <? JS.get aMags j) = false) /\
    let effStd := JS.Math_min (Baseline.std base) 1.5 in
    let recThreshold := Baseline.mean base + 1.0 * effStd in
    (recoveryMag <? recThreshold) = false /\
    (recoveryMag - dipMag <? 5) = false /\
    (JS.number recoveryMag -> JS.number recThreshold ->
     (recThreshold <=? recoveryMag) = true) /\
    (JS.number (recoveryMag - dipMag) -> (5 <=? recoveryMag - dipMag) = true).

(** The time that the batch scan takes for a recorded shot:
    [shot.t || shot.tRel || 0]. *)
Definition shotTime (sh : Shot.shot) : float :=
  JS.or_else (JS.or_else (Shot.t sh) (Shot.tRel sh)) 0.

(** The time gate between an earlier time and a later one: the later
    shot is refused when less than 1200 ms have passed and the earlier time
    is positive. *)
Definition timeGate (earlier later : float) : Prop :=
  ((later - earlier <? MIN_SHOT_INTERVAL_MS) && (0 <? earlier)) = false.

(** Neighbours in a list satisfy [R]. *)
Definition successive {A : Type} (R : A -> A -> Prop) (l : list A) : Prop :=
  forall k a b, nth_error l k = Some a -> nth_error l (S k) = Some b -> R a b.

(** A batch shot as live mode would report it at time [currentTime]
    from [buffer]. *)
Definition toLive (buffer : IMUBuffer.IMUBuffer Sample) (currentTime : float)
           (sh : Shot.shot) : LiveShot.shot :=
  {| LiveShot.idx := IMUBuffer.absIndex buffer (Shot.idx sh);
     LiveShot.bufferIdx := Shot.idx sh;
     LiveShot.mag := Shot.mag sh;
     LiveShot.dipMag := Shot.dipMag sh;
     LiveShot.recoveryMag := Shot.recoveryMag sh;
     LiveShot.range := Shot.range sh;
     LiveShot.t := currentTime;
     LiveShot.consensus := Shot.consensus sh;
     LiveShot.calibResult := Shot.calibResult sh |}.

(** The state in which [detectAll] starts. *)
Definition batchStart : BatchState :=
  {| shots := []; lastIdx := NegInfinity; lastTime := 0 |}.

(** A shot without the result of the calibration filter. *)
Definition withoutCalibResult (sh : Shot.shot) : Shot.shot :=
  {| Shot.idx := Shot.idx sh; Shot.mag := Shot.mag sh; Shot.dipMag := Shot.dipMag sh;
     Shot.recoveryMag := Shot.recoveryMag sh; Shot.range := Shot.range sh;
     Shot.t := Shot.t sh; Shot.tRel := Shot.tRel sh;
     Shot.consensus := Shot.consensus sh; Shot.calibResult := None |}.

(** The detector with another calibration set, or none. *)
Definition withCalibration (d : ShotDetector) (cal : option MotionCalibrator.Calibration)
  : ShotDetector :=
  {| lastShotTime := lastShotTime d; lastShotIdx := lastShotIdx d;
     calibration := cal; useConsensus := useConsensus d;
     consensusOpts := consensusOpts d |}.

(** A shot of the later detector as the earlier core.js records it. *)
Definition toLegacy (sh : Shot.shot) : LegacyCore.Shot.shot :=
  {| LegacyCore.Shot.idx := Shot.idx sh; LegacyCore.Shot.mag := Shot.mag sh;
     LegacyCore.Shot.dipMag := Shot.dipMag sh;
     LegacyCore.Shot.recoveryMag := Shot.recoveryMag sh;
     LegacyCore.Shot.range := Shot.range sh;
     LegacyCore.Shot.t := Shot.t sh; LegacyCore.Shot.tRel := Shot.tRel sh |}.

(** What is known of a shot that the batch scan recorded. *)
Definition Recorded (d : ShotDetector) (imuData : list Sample) (sh : Shot.shot) : Prop :=
  exists i s base dipIdx recIdx,
    In i (batchIndices (length imuData)) /\
    Passed (map aMag imuData) (length imuData) i base dipIdx recIdx /\
    nth_error imuData i = Some s /\
    consensusRejects (consensusOf d (map aMag imuData) i dipIdx recIdx) = false /\
    calibrationRejects
      (calibResultOf d imuData i dipIdx recIdx (Baseline.mean base)) = false /\
    sh = batchShot d imuData (map aMag imuData) i s base dipIdx recIdx.

End Statements.

(** ** More concrete inputs *)

Module Cases.
Import ShotDetector.
Local Open Scope float_scope.

(** A fresh detector with the consensus filter switched on. *)
Definition withConsensus : ShotDetector :=
  {| lastShotTime := 0; lastShotIdx := NegInfinity; calibration := None;
     useConsensus := true; consensusOpts := ShotDetectorConsensus.Opts.empty |}.

(** The shot that a fresh detector finds in [Recordings.oneShot]. *)
Definition theShot : Shot.shot :=
  {| Shot.idx := 100; Shot.mag := 20; Shot.dipMag := 2; Shot.recoveryMag := 15;
     Shot.range := 18; Shot.t := 2000; Shot.tRel := 1000;
     Shot.consensus := None; Shot.calibResult := None |}.

(** The second of the two shots in [Recordings.twoShots]. *)
Definition secondShot : Shot.shot :=
  {| Shot.idx := 250; Shot.mag := 20; Shot.dipMag := 2; Shot.recoveryMag := 15;
     Shot.range := 18; Shot.t := 3500; Shot.tRel := 2500;
     Shot.consensus := None; Shot.calibResult := None |}.

(** The second shot of [Recordings.twoShots] as live mode reports it
    from a buffer of 250 samples that drops 100 at a time. *)
Definition secondLive : LiveShot.shot :=
  {| LiveShot.idx := 250; LiveShot.bufferIdx := 150; LiveShot.mag := 20;
     LiveShot.dipMag := 2; LiveShot.recoveryMag := 15; LiveShot.range := 18;
     LiveShot.t := 4090; LiveShot.consensus := None; LiveShot.calibResult := None |}.

(** The state in which the earlier [detectAll] starts. *)
Definition legacyStart : LegacyCore.BatchState :=
  {| LegacyCore.shots := []; LegacyCore.lastIdx := NegInfinity;
     LegacyCore.lastTime := 0 |}.

(** The pattern that [extractPatterns] finds in [Recordings.oneShot]. *)
Definition thePattern : PatternExtraction.Pattern :=
  {| PatternExtraction.features :=
       {| MotionCalibrator.Features.peakMag := 20;
          MotionCalibrator.Features.dipMag := 2;
          MotionCalibrator.Features.recoveryMag := 15;
          MotionCalibrator.Features.range := 18;
          MotionCalibrator.Features.dipRatio := 0.20000000000000001;
          MotionCalibrator.Features.peakToDipSamples := 12;
          MotionCalibrator.Features.dipToRecSamples := 20;
          MotionCalibrator.Features.totalDuration := 32;
          MotionCalibrator.Features.gyroMagAtPeak := 0;
          MotionCalibrator.Features.gyroMagAtDip := 0;
          MotionCalibrator.Features.maxGyroInWindow := 0;
          MotionCalibrator.Features.gyroDipToRec := 0 |};
     PatternExtraction.label := "shooting"%string;
     PatternExtraction.idx := 100 |}.

(** A calibration with a shooting profile, made of that pattern, and no
    other profile. *)
Definition shootingOnly : MotionCalibrator.Calibration :=
  {| MotionCalibrator.profiles :=
       Some {| MotionCalibrator.Profiles.walking := None;
               MotionCalibrator.Profiles.running := None;
               MotionCalibrator.Profiles.dribbling := None;
               MotionCalibrator.Profiles.shooting :=
                 PatternExtraction.profileOf [thePattern] |} |}.

(** Session elements with nothing in them. *)
Definition plain : Session.Elements :=
  {| Session.Imu := unit; Session.Gps := unit; Session.Evt := unit;
     Session.Shot := unit; Session.Anchor := unit; Session.Segment := unit;
     Session.Edits := unit |}.

(** A statistic, the same for all twelve features. *)
Definition uniformProfile (n : nat) (st : MotionCalibrator.Stat.t) : MotionCalibrator.Profile.t :=
  {| MotionCalibrator.Profile.count := n;
     MotionCalibrator.Profile.peakMag := Some st;
     MotionCalibrator.Profile.dipMag := Some st;
     MotionCalibrator.Profile.recoveryMag := Some st;
     MotionCalibrator.Profile.range := Some st;
     MotionCalibrator.Profile.dipRatio := Some st;
     MotionCalibrator.Profile.peakToDipSamples := Some st;
     MotionCalibrator.Profile.dipToRecSamples := Some st;
     MotionCalibrator.Profile.totalDuration := Some st;
     MotionCalibrator.Profile.gyroMagAtPeak := Some st;
     MotionCalibrator.Profile.gyroMagAtDip := Some st;
     MotionCalibrator.Profile.maxGyroInWindow := Some st;
     MotionCalibrator.Profile.gyroDipToRec := Some st |}.

(** Ten identical shooting patterns, every feature 20, against a walking
    profile around 10 with a spread of 1. *)
Definition flatShooting : MotionCalibrator.Profiles.t :=
  {| MotionCalibrator.Profiles.walking :=
       Some (uniformProfile 5 {| MotionCalibrator.Stat.mean := 10;
                                 MotionCalibrator.Stat.std := 1;
                                 MotionCalibrator.Stat.min := 8;
                                 MotionCalibrator.Stat.max := 12 |});
     MotionCalibrator.Profiles.running := None;
     MotionCalibrator.Profiles.dribbling := None;
     MotionCalibrator.Profiles.shooting :=
       Some (uniformProfile 10 {| MotionCalibrator.Stat.mean := 20;
                                  MotionCalibrator.Stat.std := 0;
                                  MotionCalibrator.Stat.min := 20;
                                  MotionCalibrator.Stat.max := 20 |}) |}.

(** Two patterns, all features 10 and all features 20, and their profile. *)
Definition spread : list MotionCalibrator.Features.t :=
  [Recordings.uniform 10; Recordings.uniform 20].

Definition spreadProfile : MotionCalibrator.Profile.t :=
  match MotionCalibrator.computeProfile (Some spread) with
  | Some p => p
  | None => uniformProfile 0 {| MotionCalibrator.Stat.mean := 0;
                                MotionCalibrator.Stat.std := 0;
                                MotionCalibrator.Stat.min := 0;
                                MotionCalibrator.Stat.max := 0 |}
  end.

End Cases.

(** ** What pattern extraction establishes *)

Module PatternStatements.
Import PatternExtraction.
Local Open Scope float_scope.

(** Any two entries of a list of indices, taken in list order, are at
    least [gap] apart. *)
Definition spaced (gap : nat) (idxs : list nat) : Prop :=
  forall p q i j, (p < q)%nat ->
    nth_error idxs p = Some i -> nth_error idxs q = Some j -> (i + gap <= j)%nat.

(** What [extractPatterns] has checked of a pattern with peak [i], dip
    [dipIdx] and recovery [recIdx]: the local maximum, the peak threshold,
    a baseline of at least 10 samples, a drop of no less than 3 to the
    smallest magnitude of the 34 samples after the peak, and a rise of no
    less than 2 to the largest of the 29 samples after the dip. *)
Record Relaxed (aMags : list float) (i dipIdx recIdx : nat) (baseMean : float)
  : Prop := {
  relaxed_prev : (JS.get aMags i <=? JS.get_prev aMags i) = false;
  relaxed_next : (JS.get aMags i <? JS.get aMags (i + 1)) = false;
  relaxed_peak : (JS.get aMags i <? peakThresh aMags) = false;
  relaxed_floor :
    JS.number (peakThresh aMags) -> JS.number (JS.get aMags i) ->
    (11 <=? JS.get aMags i) = true;
  relaxed_base_len : (10 <= length (JS.slice aMags (i - 20 - 80) (i - 20)))%nat;
  relaxed_base : baseMean = JS.mean (JS.slice aMags (i - 20 - 80) (i - 20));
  relaxed_dip_range : (i < dipIdx < i + 35)%nat;
  relaxed_dip_least :
    forall j, (i < j < i + 35)%nat -> (j < length aMags)%nat ->
              (JS.get aMags j <? JS.get aMags dipIdx) = false;
  relaxed_drop : (JS.get aMags i - JS.get aMags dipIdx <? 3) = false;
  relaxed_rec_range : (dipIdx < recIdx < dipIdx + 30)%nat /\ (recIdx < length aMags)%nat;
  relaxed_rec_greatest :
    forall j, (dipIdx < j < dipIdx + 30)%nat -> (j < length aMags)%nat ->
              (JS.get aMags recIdx <? JS.get aMags j) = false;
  relaxed_rise : (JS.get aMags recIdx - JS.get aMags dipIdx <? 2) = false
}.

(** What is known of a pattern that [extractPatterns] returned. *)
Definition Extracted (imuData : list Sample) (label : String.string) (p : Pattern) : Prop :=
  label = PatternExtraction.label p /\
  (2 <= idx p < length imuData - 65)%nat /\
  exists dipIdx recIdx baseMean,
    Relaxed (map aMag imuData) (idx p) dipIdx recIdx baseMean /\
    MotionCalibrator._extractFeatures imuData (idx p) dipIdx recIdx baseMean =
      Some (features p).

End PatternStatements.

(** ** What calibration establishes *)

Module CalibrationStatements.
Import ShotDetector.

(** A profile and a pattern count that agree: no profile exactly when
    there is no pattern, and otherwise the profile's [count] is the count. *)
Definition counted (profile : option MotionCalibrator.Profile.t) (count : nat) : Prop :=
  (profile = None <-> count = 0%nat) /\
  (forall p, profile = Some p -> MotionCalibrator.Profile.count p = count).

(** Two batch states that differ at most in the calibration results of
    their shots. *)
Definition sameButCalib (st1 st2 : BatchState) : Prop :=
  map Statements.withoutCalibResult (shots st1) = map Statements.withoutCalibResult (shots st2) /\
  lastIdx st1 = lastIdx st2 /\ lastTime st1 = lastTime st2.

End CalibrationStatements.

(** ** What the movement detector maintains *)

Module MovementStatements.
Import MovementDetector.
Local Open Scope float_scope.

(** The intensity is a number only within [0, 1]. *)
Definition unitIntensity (d : MovementDetector) : Prop :=
  JS.number (intensity d) ->
  (0 <=? intensity d) = true /\ (intensity d <=? 1) = true.

End MovementStatements.

(** ** What a live report establishes *)

Module LiveStatements.
Import ShotDetector Gates.
(** A live shot as a candidate of the batch scan over the first [n]
    samples received: it was reported with sample number [n], between 51
    and 90 samples after its peak, at the time stored in that sample, and at
    its index it passes every gate of the batch scan over those samples. *)
Definition reportedAt (samples : list Sample) (sh : LiveShot.shot) (n : nat) : Prop :=
  (LiveShot.idx sh + 51 <= n <= LiveShot.idx sh + 90)%nat /\ (n <= length samples)%nat /\
  (exists s, nth_error samples (n - 1) = Some s /\ LiveShot.t sh = t s) /\
  exists base dipIdx recIdx,
    Passed (map aMag (firstn n samples)) n (LiveShot.idx sh) base dipIdx recIdx /\
    LiveShot.mag sh = JS.get (map aMag samples) (LiveShot.idx sh) /\
    LiveShot.dipMag sh = JS.get (map aMag samples) dipIdx /\
    LiveShot.recoveryMag sh = JS.get (map aMag samples) recIdx.
End LiveStatements.

(** ** Scenario C as the loop decides it *)

Module HeavyMotion.
Import ShotDetector Gates Statements.
Local Open Scope float_scope.

(** The locals of [detectAll] when its loop reaches index [i]: [shots],
    [lastIdx] and [lastTime] after the iterations from
    [BASELINE_WINDOW + BASELINE_OFFSET] up to [i - 1]. *)
Definition reaching (d : ShotDetector) (imuData : list Sample) (i : nat) : BatchState :=
  let first := (BASELINE_WINDOW + BASELINE_OFFSET)%nat in
  fold_left (detectStep d imuData (map aMag imuData)) (seq first (i - first))
            {| shots := []; lastIdx := NegInfinity; lastTime := 0 |}.

(** Every test of the loop body at [i] other than the baseline and the
    peak gate, for the baseline [base] of the candidate: the local-maximum
    test; the two separation tests against [lastIdx] and [lastTime]; the dip,
    which is the lowest of the up to 34 samples after the peak, against
    [mean - 1.5 * std] and 6; the peak-to-dip range against
    [max(8, effStd * 5.0)]; the recovery, which is the highest of the up to
    29 samples after the dip, against [mean + 1.0 * effStd] and a rise of 5;
    and the two post-filters. *)
Definition restOfBody (d : ShotDetector) (imuData : list Sample) (i : nat)
           (base : Baseline.t) : Prop :=
  let aMags := map aMag imuData in
  let st := reaching d imuData i in
  let dipIdx := findDip aMags (i + 1) (Nat.min (length aMags) (i + 35)) in
  let recIdx := findRecovery aMags (dipIdx + 1) (Nat.min (length aMags) (dipIdx + 30)) in
  let effStd := JS.Math_min (Baseline.std base) 1.5 in
  codeLocalMax aMags i /\
  tooClose i (lastIdx st) = false /\
  (exists s, nth_error imuData i = Some s /\ timeGate (lastTime st) (sampleTimeOf s)) /\
  (Baseline.mean base - 1.5 * Baseline.std base <? JS.get aMags dipIdx) = false /\
  (6 <? JS.get aMags dipIdx) = false /\
  (JS.get aMags i - JS.get aMags dipIdx <? JS.Math_max 8 (effStd * 5.0)) = false /\
  (JS.get aMags recIdx <? Baseline.mean base + 1.0 * effStd) = false /\
  (JS.get aMags recIdx - JS.get aMags dipIdx <? 5) = false /\
  consensusRejects (consensusOf d aMags i dipIdx recIdx) = false /\
  calibrationRejects (calibResultOf d imuData i dipIdx recIdx (Baseline.mean base)) = false.

End HeavyMotion.

(** ** The argument limit of the engine *)

Module Engine.
Import MotionCalibrator.

(** How a call ends: with a value, or with the [RangeError] that the
    engine throws when a call is given more arguments than it accepts. *)
Inductive Completion (A : Type) : Type :=
| Returns (a : A)
| RangeError.
Arguments RangeError {A}.

Section Limit.

(** The number of arguments that the engine accepts in one call. *)
Variable maxArguments : nat.

(** [Math.min(...vals)] and [Math.max(...vals)] in the loop body for
    [key] pass every element of [vals] as an argument of its own. *)
Definition spreads (patterns : list Features.t) (key : FeatureKey) : bool :=
  let vals := filter (fun v => negb (is_nan v)) (map (fun p => feature p key) patterns) in
  (length vals <=? maxArguments)%nat.

(** [computeProfile(patterns)] on such an engine: the first feature with
    more values than the engine accepts as arguments ends the call with a
    [RangeError]; otherwise the profile is the one computed above. *)
Definition computeProfile (patterns : option (list Features.t))
  : Completion (option Profile.t) :=
  match patterns with
  | None => Returns None
  | Some ps =>
    if forallb (spreads ps) featureKeys
    then Returns (MotionCalibrator.computeProfile patterns)
    else RangeError
  end.

End Limit.

End Engine.

(** * Properties *)

Unset Implicit Arguments.

(** ** Comparisons of doubles that are numbers *)

Module JSFacts.

Local Open Scope float_scope.

Import JS.

Lemma number_Prim2SF (x : float) : number x -> Prim2SF x <> S754_nan.
Proof.
  unfold number, Prim2SF. intros ->.
  destruct (is_zero x); [discriminate|].
  destruct (is_infinity x); [discriminate|].
  destruct (Z.frexp x) as [r e].
  destruct (shr_fexp _ _ _ _ _) as [sh e'].
  destruct (shr_m sh); discriminate.
Qed.

Lemma Prim2SF_number (x : float) : Prim2SF x <> S754_nan -> number x.
Proof.
  unfold number, Prim2SF. destruct (is_nan x); [congruence | reflexivity].
Qed.

Lemma SFcompare_antisym (x y : spec_float) :
  x <> S754_nan -> y <> S754_nan ->
  exists c, SFcompare x y = Some c /\ SFcompare y x = Some (CompOpp c).
Proof.
  intros Hx Hy.
  destruct x as [sx|sx| |sx mx ex], y as [sy|sy| |sy my ey]; try congruence;
    simpl; try (destruct sx); try (destruct sy); eauto.
  - rewrite (Z.compare_antisym ex ey).
    destruct (ex ?= ey)%Z; simpl; eauto.
    change (Pos.compare_cont Eq my mx) with (Pos.compare my mx).
    change (Pos.compare_cont Eq mx my) with (Pos.compare mx my).
    rewrite (Pos.compare_antisym mx my). destruct (mx ?= my)%positive; simpl; eauto.
  - rewrite (Z.compare_antisym ex ey).
    destruct (ex ?= ey)%Z; simpl; eauto.
    change (Pos.compare_cont Eq my mx) with (Pos.compare my mx).
    change (Pos.compare_cont Eq mx my) with (Pos.compare mx my).
    rewrite (Pos.compare_antisym mx my). destruct (mx ?= my)%positive; simpl; eauto.
Qed.

(** Among numbers, "not [x < y]" is [y <= x]. *)
Lemma not_ltb_leb (x y : float) :
  number x -> number y -> (x <? y) = false -> (y <=? x) = true.
Proof.
  intros Hx Hy. rewrite ltb_spec, leb_spec. unfold SFltb, SFleb.
  destruct (SFcompare_antisym _ _ (number_Prim2SF _ Hx) (number_Prim2SF _ Hy))
    as (c & -> & ->).
  destruct c; simpl; congruence.
Qed.

(** Among numbers, "not [x <= y]" is [y < x]. *)
Lemma not_leb_ltb (x y : float) :
  number x -> number y -> (x <=? y) = false -> (y <? x) = true.
Proof.
  intros Hx Hy. rewrite ltb_spec, leb_spec. unfold SFltb, SFleb.
  destruct (SFcompare_antisym _ _ (number_Prim2SF _ Hx) (number_Prim2SF _ Hy))
    as (c & -> & ->).
  destruct c; simpl; congruence.
Qed.

Lemma ltb_number_l (x y : float) : (x <? y) = true -> number x.
Proof.
  rewrite ltb_spec. unfold SFltb. intros H. apply Prim2SF_number.
  intros E. rewrite E in H. discriminate.
Qed.

Lemma ltb_number_r (x y : float) : (x <? y) = true -> number y.
Proof.
  rewrite ltb_spec. unfold SFltb. intros H. apply Prim2SF_number.
  intros E. rewrite E in H. destruct (Prim2SF x); discriminate.
Qed.

Lemma ltb_irrefl (x : float) : (x <? x) = false.
Proof.
  rewrite ltb_spec. unfold SFltb.
  destruct (Prim2SF x) as [s|s| |s m e]; simpl; try reflexivity.
  - destruct s; reflexivity.
  - rewrite Z.compare_refl.
    change (Pos.compare_cont Eq m m) with (Pos.compare m m).
    rewrite Pos.compare_refl. destruct s; reflexivity.
Qed.



Lemma SFltb_trans (x y z : spec_float) :
  SFltb x y = true -> SFltb y z = true -> SFltb x z = true.
Proof.
  unfold SFltb.
  destruct x as [sx|sx| |sx mx ex], y as [sy|sy| |sy my ey], z as [sz|sz| |sz mz ez];
    simpl; try discriminate; try reflexivity;
    try (destruct sx); try (destruct sy); try (destruct sz);
    simpl; try discriminate; try reflexivity;
    change (Pos.compare_cont Eq mx my) with (Pos.compare mx my);
    change (Pos.compare_cont Eq my mz) with (Pos.compare my mz);
    change (Pos.compare_cont Eq mx mz) with (Pos.compare mx mz);
    destruct (Z.compare_spec ex ey), (Z.compare_spec ey ez), (Z.compare_spec ex ez);
    try discriminate; try reflexivity; try lia;
    destruct (Pos.compare_spec mx my), (Pos.compare_spec my mz), (Pos.compare_spec mx mz);
    simpl; try discriminate; try reflexivity; lia.
Qed.

Lemma ltb_trans (x y z : float) :
  (x <? y) = true -> (y <? z) = true -> (x <? z) = true.
Proof. rewrite !ltb_spec. apply SFltb_trans. Qed.

Lemma SFleb_trans (x y z : spec_float) :
  SFleb x y = true -> SFleb y z = true -> SFleb x z = true.
Proof.
  unfold SFleb.
  destruct x as [sx|sx| |sx mx ex], y as [sy|sy| |sy my ey], z as [sz|sz| |sz mz ez];
    simpl; try discriminate; try reflexivity;
    try (destruct sx); try (destruct sy); try (destruct sz);
    simpl; try discriminate; try reflexivity;
    change (Pos.compare_cont Eq mx my) with (Pos.compare mx my);
    change (Pos.compare_cont Eq my mz) with (Pos.compare my mz);
    change (Pos.compare_cont Eq mx mz) with (Pos.compare mx mz);
    destruct (Z.compare_spec ex ey), (Z.compare_spec ey ez), (Z.compare_spec ex ez);
    try discriminate; try reflexivity; try lia;
    destruct (Pos.compare_spec mx my), (Pos.compare_spec my mz), (Pos.compare_spec mx mz);
    simpl; try discriminate; try reflexivity; lia.
Qed.

Lemma leb_trans (x y z : float) :
  (x <=? y) = true -> (y <=? z) = true -> (x <=? z) = true.
Proof. rewrite !leb_spec. apply SFleb_trans. Qed.

(** Among numbers, two values neither of which is below the other are
    equal as numbers. *)
Lemma not_ltb_eqb (x y : float) :
  number x -> number y -> (x <? y) = false -> (y <? x) = false -> (x =? y) = true.
Proof.
  intros Hx Hy. rewrite !ltb_spec, eqb_spec. unfold SFltb, SFeqb.
  destruct (SFcompare_antisym _ _ (number_Prim2SF _ Hx) (number_Prim2SF _ Hy))
    as (c & -> & ->).
  destruct c; simpl; congruence.
Qed.

Lemma ltb_leb (x y : float) : (x <? y) = true -> (x <=? y) = true.
Proof.
  rewrite ltb_spec, leb_spec. unfold SFltb, SFleb.
  destruct (SFcompare _ _) as [[| |]|]; congruence.
Qed.

Lemma ltb_not_geb (x y : float) : (x <? y) = true -> (y <=? x) = false.
Proof.
  intros H. pose proof (ltb_number_l _ _ H) as Hx. pose proof (ltb_number_r _ _ H) as Hy.
  revert H. rewrite ltb_spec, leb_spec. unfold SFltb, SFleb.
  destruct (SFcompare_antisym _ _ (number_Prim2SF _ Hx) (number_Prim2SF _ Hy))
    as (c & -> & ->).
  destruct c; simpl; congruence.
Qed.

(** *** Infinities, and lists of one repeated value *)

Lemma Prim2SF_infinity : Prim2SF infinity = S754_infinity false.
Proof. reflexivity. Qed.
Lemma Prim2SF_neg_infinity : Prim2SF neg_infinity = S754_infinity true.
Proof. reflexivity. Qed.

Lemma infinity_not_below (x : float) : (infinity <? x) = false.
Proof.
  rewrite ltb_spec, Prim2SF_infinity. unfold SFltb.
  destruct (Prim2SF x) as [s|s| |s m e]; try reflexivity. destruct s; reflexivity.
Qed.

Lemma not_below_neg_infinity (x : float) : (x <? neg_infinity) = false.
Proof.
  rewrite ltb_spec, Prim2SF_neg_infinity. unfold SFltb.
  destruct (Prim2SF x) as [s|s| |s m e]; try reflexivity; destruct s; reflexivity.
Qed.

Lemma Math_min_same (x : float) : JS.number x -> JS.Math_min x x = x.
Proof.
  intros H. unfold JS.Math_min. rewrite H, ltb_irrefl. simpl. now destruct (get_sign x).
Qed.

Lemma Math_max_same (x : float) : JS.number x -> JS.Math_max x x = x.
Proof.
  intros H. unfold JS.Math_max. rewrite H, ltb_irrefl. simpl. now destruct (get_sign x).
Qed.

Lemma Math_min_list_repeat (x : float) (n : nat) :
  JS.number x -> (0 < n)%nat -> JS.Math_min_list (repeat x n) = x.
Proof.
  intros H Hn. unfold JS.Math_min_list. destruct n as [|n]; [lia|]. simpl.
  assert (E : JS.Math_min infinity x = x).
  { unfold JS.Math_min. rewrite H, infinity_not_below.
    change (is_nan infinity) with false. change (get_sign infinity) with false. simpl.
    now destruct (x <? infinity). }
  rewrite E. clear Hn. induction n as [|n IH]; simpl; [reflexivity|].
  now rewrite Math_min_same.
Qed.

Lemma Math_max_list_repeat (x : float) (n : nat) :
  JS.number x -> (0 < n)%nat -> JS.Math_max_list (repeat x n) = x.
Proof.
  intros H Hn. unfold JS.Math_max_list. destruct n as [|n]; [lia|]. simpl.
  assert (E : JS.Math_max neg_infinity x = x).
  { unfold JS.Math_max. rewrite H, not_below_neg_infinity.
    change (is_nan neg_infinity) with false. change (get_sign neg_infinity) with true. simpl.
    now destruct (neg_infinity <? x). }
  rewrite E. clear Hn. induction n as [|n IH]; simpl; [reflexivity|].
  now rewrite Math_max_same.
Qed.

(** *** Finite doubles *)

Lemma finite_Prim2SF (x : float) :
  is_finite x = true ->
  (exists s, Prim2SF x = S754_zero s) \/ (exists s m e, Prim2SF x = S754_finite s m e).
Proof.
  unfold is_finite, Prim2SF. intros H. apply negb_true_iff, orb_false_elim in H.
  destruct H as [-> Hi]. rewrite Hi.
  destruct (is_zero x); [left; eauto|].
  destruct (Z.frexp x) as [r e].
  destruct (shr_fexp _ _ _ _ _) as [sh e'].
  destruct (shr_m sh); eauto.
Qed.

Lemma sub_self (x : float) : is_finite x = true -> x - x = 0.
Proof.
  intros H. apply Prim2SF_inj. rewrite sub_spec.
  destruct (finite_Prim2SF x H) as [[s ->]|(s & m & e & ->)].
  - destruct s; reflexivity.
  - unfold SF64sub, SFsub. cbv zeta. rewrite Z.sub_diag. reflexivity.
Qed.

(** *** Small integers as doubles *)

Lemma digits2_size (p : positive) : digits2_pos p = Pos.size p.
Proof. induction p; simpl; congruence. Qed.

Lemma digits2_iter_xO (p k : positive) :
  Zpos (digits2_pos (Pos.iter xO p k)) = (Zpos (digits2_pos p) + Zpos k)%Z.
Proof.
  induction k using Pos.peano_ind.
  - simpl. lia.
  - rewrite Pos.iter_succ. simpl. lia.
Qed.

Lemma digits2_bound (p : positive) (n : Z) :
  (0 <= n)%Z -> (Zpos p < 2 ^ n)%Z -> (Zpos (digits2_pos p) <= n)%Z.
Proof.
  intros Hn H. rewrite digits2_size.
  pose proof (Pos.size_le p) as L.
  assert (L' : (2 ^ Zpos (Pos.size p) <= 2 * Zpos p)%Z).
  { apply Pos2Z.pos_le_pos in L. rewrite Pos2Z.inj_pow in L. exact L. }
  destruct (Z.le_gt_cases (Zpos (Pos.size p)) n) as [|G]; [assumption|].
  assert ((2 ^ (n + 1) <= 2 ^ Zpos (Pos.size p))%Z) by (apply Z.pow_le_mono_r; lia).
  rewrite Z.pow_add_r in H0 by lia. lia.
Qed.

Lemma normalize_small (p : positive) :
  (Zpos p < 2 ^ 53)%Z ->
  exists m e, binary_normalize prec emax (Zpos p) 0 false = S754_finite false m e.
Proof.
  intros H. pose proof (digits2_bound p 53 ltac:(lia) H) as Hd.
  unfold binary_normalize, binary_round.
  assert (Hf : fexp prec emax (Zpos (digits2_pos p) + 0) = (Zpos (digits2_pos p) - 53)%Z).
  { unfold fexp, SpecFloat.emin, prec, emax. lia. }
  rewrite Hf. unfold shl_align.
  destruct (Zpos (digits2_pos p) - 53 - 0)%Z as [|q|q] eqn:Eq; [| lia |].
  - (* 53 digits already *)
    unfold binary_round_aux, shr_fexp. cbn [Zdigits2 shr_record_of_loc].
    rewrite Hf. replace (Zpos (digits2_pos p) - 53 - 0)%Z with 0%Z by lia.
    cbn [shr shr_m loc_of_shr_record round_nearest_even Zdigits2 shr_record_of_loc].
    rewrite Hf. replace (Zpos (digits2_pos p) - 53 - 0)%Z with 0%Z by lia.
    cbn [shr shr_m]. eexists _, _. reflexivity.
  - unfold binary_round_aux, shr_fexp. cbn [Zdigits2 shr_record_of_loc].
    assert (Hf' : (fexp prec emax (Zpos (digits2_pos (Pos.iter xO p q)) + (Zpos (digits2_pos p) - 53))
                   - (Zpos (digits2_pos p) - 53) = 0)%Z).
    { rewrite digits2_iter_xO. unfold fexp, SpecFloat.emin, prec, emax. lia. }
    rewrite Hf'.
    cbn [shr shr_m loc_of_shr_record round_nearest_even Zdigits2 shr_record_of_loc].
    rewrite Hf'. cbn [shr shr_m].
    replace (Zpos (digits2_pos p) - 53 <=? emax - prec)%Z with true
      by (symmetry; apply Z.leb_le; unfold emax, prec; lia).
    eexists _, _. reflexivity.
Qed.

Lemma of_nat_Prim2SF (n : nat) :
  (0 < n)%nat -> (Z.of_nat n < 2 ^ 53)%Z ->
  exists m e, Prim2SF (JS.of_nat n) = S754_finite false m e.
Proof.
  intros H0 H. unfold JS.of_nat. rewrite of_uint63_spec.
  rewrite Uint63.of_Z_spec.
  rewrite Z.mod_small by (split; [lia|]; unfold wB; simpl; lia).
  destruct (Z.of_nat n) as [|p|p] eqn:E; try lia.
  now apply normalize_small.
Qed.

Lemma zero_div_of_nat (n : nat) :
  (0 < n)%nat -> (Z.of_nat n < 2 ^ 53)%Z -> 0 / JS.of_nat n = 0.
Proof.
  intros H0 H. apply Prim2SF_inj. rewrite div_spec.
  destruct (of_nat_Prim2SF n H0 H) as (m & e & ->). reflexivity.
Qed.

End JSFacts.

(** ** The buffer keeps absolute indices stable *)

Module BufferFacts.
Import IMUBuffer BufferRun.

Lemma firstn_snoc {A : Type} (l : list A) (n : nat) (a : A) :
  nth_error l n = Some a -> firstn (S n) l = firstn n l ++ [a].
Proof.
  revert n; induction l as [|h l IH]; intros [|n] H; simpl in *; try discriminate.
  - now inversion H.
  - f_equal. now apply IH.
Qed.

Lemma nth_error_labelled {A : Type} (xs : list A) (k : nat) :
  nth_error (labelled xs) k =
  match nth_error xs k with Some x => Some (k, x) | None => None end.
Proof.
  unfold labelled.
  assert (G : forall s, nth_error (combine (seq s (List.length xs)) xs) k =
                 match nth_error xs k with Some x => Some (s + k, x) | None => None end).
  { revert k; induction xs as [|x xs IH]; intros k s; simpl.
    - now destruct k.
    - destruct k as [|k]; simpl.
      + now rewrite Nat.add_0_r.
      + rewrite IH. destruct (nth_error xs k); [|reflexivity].
        do 2 f_equal. lia. }
  apply (G 0).
Qed.

Lemma after_S {A : Type} (maxSize shiftSize : nat) (xs : list A) (n : nat) (x : A) :
  nth_error xs n = Some x ->
  after maxSize shiftSize xs (S n) = push (after maxSize shiftSize xs n) (n, x).
Proof.
  intros H. unfold after, pushAll.
  rewrite (firstn_snoc (labelled xs) n (n, x)).
  - now rewrite fold_left_app.
  - now rewrite nth_error_labelled, H.
Qed.

Lemma push_maxSize {A : Type} (b : IMUBuffer A) (x : A) : maxSize (push b x) = maxSize b.
Proof. unfold push. now destruct (_ <? _). Qed.

Lemma push_shiftSize {A : Type} (b : IMUBuffer A) (x : A) : shiftSize (push b x) = shiftSize b.
Proof. unfold push. now destruct (_ <? _). Qed.

Lemma after_sizes {A : Type} (maxSize0 shiftSize0 : nat) (xs : list A) (n : nat) :
  maxSize (after maxSize0 shiftSize0 xs n) = maxSize0 /\
  shiftSize (after maxSize0 shiftSize0 xs n) = shiftSize0.
Proof.
  unfold after, pushAll.
  generalize (firstn n (labelled xs)); intros l.
  assert (G : forall b : IMUBuffer (nat * A),
             maxSize (fold_left push l b) = maxSize b /\
             shiftSize (fold_left push l b) = shiftSize b).
  { induction l as [|a l IH]; intros b; simpl; [tauto|].
    destruct (IH (push b a)) as [-> ->].
    now rewrite push_maxSize, push_shiftSize. }
  apply (G (new maxSize0 shiftSize0)).
Qed.

Lemma inv_all {A : Type} (maxSize0 shiftSize0 : nat) (xs : list A) (n : nat) :
  n <= List.length xs -> Inv maxSize0 shiftSize0 xs n.
Proof.
  induction n as [|n IH]; intros Hn.
  - split; unfold after, length; simpl; intros; lia.
  - destruct (nth_error xs n) as [x|] eqn:Hx;
      [|apply nth_error_None in Hx; lia].
    specialize (IH ltac:(lia)). destruct IH as [I1 I2 I3 I4].
    pose proof (after_S maxSize0 shiftSize0 xs n x Hx) as HS.
    pose proof (after_sizes maxSize0 shiftSize0 xs n) as [Hm Hs].
    assert (Hn' : assigned maxSize0 shiftSize0 xs n =
                  length (after maxSize0 shiftSize0 xs n) + offset (after maxSize0 shiftSize0 xs n))
      by reflexivity.
    set (b := after maxSize0 shiftSize0 xs n) in *.
    set (len := length b) in *.
    (* the array after [data.push] *)
    assert (D1 : forall p, p <= len ->
               nth_error (data b ++ [(n, x)]) p = nth_error (labelled xs) (n - len + p)).
    { intros p Hp. destruct (Nat.eq_dec p len) as [->|Hne].
      - rewrite nth_error_app2 by (unfold len, length; lia).
        replace (len - List.length (data b)) with 0 by (unfold len, length; lia).
        replace (n - len + len) with n by lia.
        now rewrite nth_error_labelled, Hx.
      - rewrite nth_error_app1 by (unfold len, length in *; lia).
        apply I2; lia. }
    assert (X1 : forall p, p <= len ->
               p + offset b = assigned maxSize0 shiftSize0 xs (n - len + p)).
    { intros p Hp. destruct (Nat.eq_dec p len) as [->|Hne].
      - replace (n - len + len) with n by lia. lia.
      - apply I3; lia. }
    assert (L1 : List.length (data b ++ [(n, x)]) = S len)
      by (rewrite length_app; simpl; unfold len, length; lia).
    unfold absIndex in *. clearbody len. clearbody b.
    split; rewrite HS; unfold push, length, absIndex; rewrite L1, Hm, Hs;
      destruct (maxSize0 <? S len) eqn:Hc; cbn [data offset].
    + rewrite length_skipn, L1. lia.
    + rewrite L1. lia.
    + intros p. rewrite length_skipn, L1. intros Hp.
      rewrite nth_error_skipn, D1 by lia. f_equal. lia.
    + intros p. rewrite L1. intros Hp. rewrite D1 by lia. f_equal.
    + intros p. rewrite length_skipn, L1. intros Hp.
      replace (S n - (S len - shiftSize0) + p) with (n - len + (shiftSize0 + p)) by lia.
      rewrite <- X1 by lia. lia.
    + intros p. rewrite L1. intros Hp.
      replace (S n - S len + p) with (n - len + p) by lia. apply X1; lia.
    + intros k Hk. rewrite length_skipn, L1.
      assert (assigned maxSize0 shiftSize0 xs k <= len + offset b).
      { destruct (Nat.eq_dec k n) as [->|]; [lia|]. specialize (I4 k ltac:(lia)). lia. }
      lia.
    + intros k Hk. rewrite L1.
      assert (assigned maxSize0 shiftSize0 xs k <= len + offset b).
      { destruct (Nat.eq_dec k n) as [->|]; [lia|]. specialize (I4 k ltac:(lia)). lia. }
      lia.
Qed.

Lemma assigned_increasing {A : Type} (maxSize0 shiftSize0 : nat) (xs : list A) (j k : nat) :
  j < k -> k <= List.length xs ->
  assigned maxSize0 shiftSize0 xs j < assigned maxSize0 shiftSize0 xs k.
Proof.
  intros Hjk Hk. exact (inv_fresh (inv_all maxSize0 shiftSize0 xs k Hk) Hjk).
Qed.

Lemma slot_label {A : Type} (maxSize0 shiftSize0 : nat) (xs : list A) (n i k : nat) (x : A) :
  n <= List.length xs ->
  get (after maxSize0 shiftSize0 xs n) i = Some (k, x) ->
  nth_error xs k = Some x /\ k < n /\
  absIndex (after maxSize0 shiftSize0 xs n) i = assigned maxSize0 shiftSize0 xs k.
Proof.
  intros Hn Hg. destruct (inv_all maxSize0 shiftSize0 xs n Hn) as [I1 I2 I3 _].
  unfold get in Hg.
  assert (Hi : i < length (after maxSize0 shiftSize0 xs n)).
  { unfold length. apply nth_error_Some. congruence. }
  rewrite I2 in Hg by exact Hi. rewrite nth_error_labelled in Hg.
  destruct (nth_error xs _) eqn:E; [|discriminate].
  inversion Hg; subst. repeat split; try assumption; try lia.
  rewrite I3 by exact Hi. reflexivity.
Qed.

Lemma length_bounded {A : Type} (maxSize0 shiftSize0 : nat) (xs : list A) (n : nat) :
  0 < shiftSize0 -> length (after maxSize0 shiftSize0 xs n) <= maxSize0.
Proof.
  intros Hs. unfold after, pushAll.
  generalize (firstn n (labelled xs)); intros l.
  assert (G : forall b : IMUBuffer (nat * A),
             shiftSize b = shiftSize0 -> maxSize b = maxSize0 ->
             length b <= maxSize0 -> length (fold_left push l b) <= maxSize0).
  { induction l as [|a l IH]; intros b E1 E2 Hb; simpl; [assumption|].
    apply IH; [now rewrite push_shiftSize | now rewrite push_maxSize |].
    unfold push, length in *.
    assert (L : List.length (data b ++ [a]) = S (List.length (data b)))
      by (rewrite length_app; simpl; lia).
    rewrite L. destruct (maxSize b <? _) eqn:Hc; cbn [data].
    - rewrite length_skipn, L. lia.
    - rewrite L. apply Nat.ltb_ge in Hc. lia. }
  apply G; try reflexivity. unfold length; simpl; lia.
Qed.

(** The labels are bookkeeping only: erasing them gives the buffer that
    the plain samples produce. *)
Lemma labels_erase {A : Type} (maxSize0 shiftSize0 : nat) (xs : list A) (n : nat) :
  let b := after maxSize0 shiftSize0 xs n in
  let plain := pushAll (new maxSize0 shiftSize0) (firstn n xs) in
  map snd (data b) = data plain /\ offset b = offset plain /\
  totalPushed b = totalPushed plain /\ totalPushed plain = Nat.min n (List.length xs).
Proof.
  cbv zeta. unfold after, pushAll.
  assert (L : firstn n xs = map snd (firstn n (labelled xs))).
  { unfold labelled. rewrite <- firstn_map. f_equal.
    assert (G : forall s, map snd (combine (seq s (List.length xs)) xs) = xs).
    { induction xs as [|x l IH]; intros s; simpl; [reflexivity|]. now rewrite IH. }
    now rewrite G. }
  assert (N : List.length (firstn n (labelled xs)) = Nat.min n (List.length xs)).
  { rewrite length_firstn. unfold labelled.
    rewrite length_combine, length_seq. lia. }
  rewrite L, <- N. generalize (firstn n (labelled xs)). intros l.
  assert (G : forall (b : IMUBuffer (nat * A)) (c : IMUBuffer A),
             maxSize b = maxSize c -> shiftSize b = shiftSize c ->
             map snd (data b) = data c -> offset b = offset c ->
             totalPushed b = totalPushed c ->
             map snd (data (fold_left push l b)) = data (fold_left push (map snd l) c) /\
             offset (fold_left push l b) = offset (fold_left push (map snd l) c) /\
             totalPushed (fold_left push l b) = totalPushed (fold_left push (map snd l) c) /\
             totalPushed (fold_left push (map snd l) c) = totalPushed c + List.length l).
  { induction l as [|a l IH]; intros b c E1 E2 E3 E4 E5; simpl.
    - repeat split; auto.
    - assert (E6 : List.length (data b ++ [a]) = List.length (data c ++ [snd a])).
      { rewrite <- E3, !length_app, length_map. reflexivity. }
      destruct (IH (push b a) (push c (snd a))) as (H1 & H2 & H3 & H4).
      + now rewrite !push_maxSize.
      + now rewrite !push_shiftSize.
      + unfold push. rewrite E1, E2, E6.
        destruct (maxSize c <? _); cbn [data].
        * rewrite <- skipn_map, map_app, E3. reflexivity.
        * rewrite map_app, E3. reflexivity.
      + unfold push. rewrite E1, E2, E6, E4.
        destruct (maxSize c <? _); reflexivity.
      + unfold push. rewrite E1, E6, E5.
        destruct (maxSize c <? _); reflexivity.
      + repeat split; auto. rewrite H4. unfold push.
        destruct (maxSize c <? _); cbn [totalPushed]; lia. }
  destruct (G (new maxSize0 shiftSize0) (new maxSize0 shiftSize0)) as (H1 & H2 & H3 & H4);
    try reflexivity.
  repeat split; auto.
Qed.

(** Two slots with the same absolute index, at any two moments of a run,
    hold the same sample. *)
Lemma slot_unique {A : Type} (maxSize0 shiftSize0 : nat) (xs : list A)
      (n n' i i' : nat) (s s' : nat * A) :
  n <= List.length xs -> n' <= List.length xs ->
  get (after maxSize0 shiftSize0 xs n) i = Some s ->
  get (after maxSize0 shiftSize0 xs n') i' = Some s' ->
  absIndex (after maxSize0 shiftSize0 xs n) i = absIndex (after maxSize0 shiftSize0 xs n') i' ->
  s = s'.
Proof.
  intros Hn Hn' Hs Hs' E. destruct s as [k x], s' as [k' x'].
  destruct (slot_label maxSize0 shiftSize0 xs n i k x Hn Hs) as (Hx & Hk & Ha).
  destruct (slot_label maxSize0 shiftSize0 xs n' i' k' x' Hn' Hs') as (Hx' & Hk' & Ha').
  rewrite Ha, Ha' in E.
  assert (k = k').
  { destruct (Nat.lt_trichotomy k k') as [Hlt|[Heq|Hgt]]; [|assumption|].
    - pose proof (assigned_increasing maxSize0 shiftSize0 xs k k' Hlt ltac:(lia)). lia.
    - pose proof (assigned_increasing maxSize0 shiftSize0 xs k' k Hgt ltac:(lia)). lia. }
  subst k'. congruence.
Qed.

End BufferFacts.

(** ** The gates of the shot detector *)

Module DetectorFacts.
Import ShotDetector Gates JSFacts.
Local Open Scope float_scope.

(** *** The dip and recovery searches *)

Section Search.
Variable aMags : list float.

Lemma dip_fold (js : list nat) (cur : nat) :
  let r := fold_left (fun dipIdx j =>
             if JS.get aMags j <? JS.get aMags dipIdx then j else dipIdx) js cur in
  (r = cur \/ In r js) /\
  (r = cur \/ (JS.get aMags r <? JS.get aMags cur) = true) /\
  (forall j, In j js -> (JS.get aMags j <? JS.get aMags r) = false).
Proof.
  revert cur. induction js as [|j0 js IH]; intros cur; simpl.
  - repeat split; auto. intros j [].
  - destruct (JS.get aMags j0 <? JS.get aMags cur) eqn:E.
    + destruct (IH j0) as (Hin & Hlt & Hmin). simpl in Hin, Hlt, Hmin.
      set (r := fold_left _ js j0) in *.
      repeat split.
      * destruct Hin as [->|Hin]; auto.
      * right. destruct Hlt as [->|Hlt]; [assumption|].
        exact (ltb_trans _ _ _ Hlt E).
      * intros j [<-|Hj]; [|auto].
        destruct Hlt as [->|Hlt]; [apply ltb_irrefl|].
        destruct (JS.get aMags j0 <? JS.get aMags r) eqn:E2; [|reflexivity].
        pose proof (ltb_trans _ _ _ Hlt E2) as C. now rewrite ltb_irrefl in C.
    + destruct (IH cur) as (Hin & Hlt & Hmin). simpl in Hin, Hlt, Hmin.
      set (r := fold_left _ js cur) in *.
      repeat split.
      * destruct Hin as [->|Hin]; auto.
      * assumption.
      * intros j [<-|Hj]; [|auto].
        destruct Hlt as [->|Hlt]; [assumption|].
        destruct (JS.get aMags j0 <? JS.get aMags r) eqn:E2; [|reflexivity].
        pose proof (ltb_trans _ _ _ E2 Hlt) as C. congruence.
Qed.

Lemma findDip_range (from to_ : nat) :
  (from < to_)%nat -> (from <= findDip aMags from to_ < to_)%nat.
Proof.
  intros H. unfold findDip.
  destruct (dip_fold (seq from (to_ - from)) from) as ([E|Hin] & _ & _).
  - simpl in E. rewrite E. lia.
  - apply in_seq in Hin. lia.
Qed.

Lemma findDip_least (from to_ j : nat) :
  (from <= j < to_)%nat ->
  (JS.get aMags j <? JS.get aMags (findDip aMags from to_)) = false.
Proof.
  intros H. unfold findDip.
  destruct (dip_fold (seq from (to_ - from)) from) as (_ & _ & Hmin).
  apply Hmin. apply in_seq. lia.
Qed.

Lemma findRecovery_range (from to_ : nat) :
  (from < to_)%nat -> (from <= findRecovery aMags from to_ < to_)%nat.
Proof.
  intros H. unfold findRecovery.
  assert (G : forall js cur,
             let r := fold_left (fun recIdx j =>
                 if JS.get aMags recIdx <? JS.get aMags j then j else recIdx) js cur in
             r = cur \/ In r js).
  { induction js as [|j0 js IH]; intros cur; simpl; [auto|].
    destruct (IH (if JS.get aMags cur <? JS.get aMags j0 then j0 else cur)) as [E|Hin];
      [|auto].
    simpl in E. rewrite E. destruct (_ <? _); auto. }
  destruct (G (seq from (to_ - from)) from) as [E|Hin].
  - simpl in E. rewrite E. lia.
  - apply in_seq in Hin. lia.
Qed.

End Search.

(** *** What one candidate check does *)

(** Case analysis on the test at the head of the code under study. *)
Ltac gate_step :=
  lazymatch goal with
  | |- (if ?c then _ else _) = _ \/ _ =>
    let E := fresh "E" in destruct c eqn:E; [left; reflexivity|]
  | |- match ?o with Some _ => _ | None => _ end = _ \/ _ =>
    let E := fresh "E" in destruct o eqn:E; [|left; reflexivity]
  end.

Ltac gate_facts :=
  repeat match goal with
         | H : _ || _ = false |- _ => apply orb_false_elim in H; destruct H
         | H : (_ <=? _)%nat = false |- _ => apply Nat.leb_gt in H
         end.

(** An iteration of the batch loop either leaves the state as it was, or
    the candidate passed every gate and its shot is appended. *)
Lemma detectStep_inv (d : ShotDetector) (imuData : list Sample) (aMags : list float)
      (st : BatchState) (i : nat) :
  detectStep d imuData aMags st i = st \/
  exists s base dipIdx recIdx,
    Passed aMags (length aMags) i base dipIdx recIdx /\
    nth_error imuData i = Some s /\
    tooClose i (lastIdx st) = false /\
    consensusRejects (consensusOf d aMags i dipIdx recIdx) = false /\
    calibrationRejects (calibResultOf d imuData i dipIdx recIdx (Baseline.mean base)) = false /\
    detectStep d imuData aMags st i =
    {| shots := shots st ++ [batchShot d imuData aMags i s base dipIdx recIdx];
       lastIdx := At i;
       lastTime := sampleTimeOf s |}.
Proof.
  unfold detectStep. cbv zeta.
  repeat gate_step.
  right.
  gate_facts.
  eexists _, _, _, _.
  split; [constructor; try eassumption; try reflexivity
         |repeat split; try eassumption; reflexivity].
Qed.

(** A live candidate check either returns [null] and leaves the detector
    as it was, or the candidate passed every gate. *)
Lemma checkCandidate_inv (d : ShotDetector) (aMags : list float) (i len : nat)
      (currentTime : float) (buffer : IMUBuffer.IMUBuffer Sample) :
  _checkCandidate d aMags i len currentTime buffer = (None, d) \/
  exists base dipIdx recIdx,
    Passed aMags len i base dipIdx recIdx /\
    (i + 1 < Nat.min len (i + DIP_SEARCH_WINDOW))%nat /\
    tooClose (IMUBuffer.absIndex buffer i) (lastShotIdx d) = false /\
    consensusRejects (consensusOf d aMags i dipIdx recIdx) = false /\
    calibrationRejects
      (calibResultOf d (IMUBuffer.data buffer) i dipIdx recIdx (Baseline.mean base)) = false /\
    _checkCandidate d aMags i len currentTime buffer =
    (Some (liveShot d aMags i currentTime buffer base dipIdx recIdx),
     accepted d currentTime (IMUBuffer.absIndex buffer i)).
Proof.
  unfold _checkCandidate. cbv zeta.
  repeat gate_step.
  right.
  gate_facts.
  eexists _, _, _.
  split; [constructor; try eassumption; try reflexivity
         |repeat split; try eassumption; reflexivity].
Qed.

(** *** From the gates to the dip gate of the specification *)

Lemma passed_window (aMags : list float) (len i : nat) (base : Baseline.t)
      (dipIdx recIdx : nat) :
  Passed aMags len i base dipIdx recIdx ->
  (i + 1 < Nat.min len (i + DIP_SEARCH_WINDOW))%nat.
Proof.
  intros HP. pose proof (passed_rec_window HP) as Hr. pose proof (passed_dipIdx HP) as Hd.
  destruct (Nat.lt_ge_cases (i + 1) (Nat.min len (i + DIP_SEARCH_WINDOW))) as [|Hge];
    [assumption|].
  unfold findDip in Hd.
  replace (Nat.min len (i + DIP_SEARCH_WINDOW) - (i + 1))%nat with 0%nat in Hd by lia.
  simpl in Hd. unfold DIP_SEARCH_WINDOW, RECOVERY_SEARCH_WINDOW in *. lia.
Qed.

Lemma passed_dipGate (aMags : list float) (len i : nat) (base : Baseline.t)
      (dipIdx recIdx : nat) :
  Passed aMags len i base dipIdx recIdx ->
  dipGate aMags len i (JS.get aMags i) (JS.get aMags dipIdx)
          (JS.get aMags i - JS.get aMags dipIdx).
Proof.
  intros HP. pose proof (passed_window _ _ _ _ _ _ HP) as Hw.
  pose proof (findDip_range aMags _ _ Hw) as Hr. rewrite <- (passed_dipIdx HP) in Hr.
  exists base, dipIdx.
  split; [exact (passed_base HP)|].
  split; [unfold DIP_SEARCH_WINDOW in *; lia|].
  split; [unfold DIP_SEARCH_WINDOW in *; lia|].
  split; [reflexivity|]. split; [reflexivity|].
  split.
  { intros j Hj Hl. rewrite (passed_dipIdx HP). apply findDip_least.
    unfold DIP_SEARCH_WINDOW. lia. }
  split; [reflexivity|]. cbv zeta.
  pose proof (passed_dip_sigma HP) as H1. pose proof (passed_dip_abs HP) as H2.
  pose proof (passed_range HP) as H3.
  repeat split; try assumption.
  - intros Hn Ht. now apply not_ltb_leb.
  - intros Hn. apply not_ltb_leb; [reflexivity | assumption | assumption].
  - intros Hn Ht. now apply not_ltb_leb.
Qed.

(** *** Separation of peak indices *)

Lemma tooClose_apart (i l : nat) : tooClose i (At l) = false -> apart l i.
Proof.
  unfold tooClose, apart, MIN_SHOT_SAMPLES. intros H. apply Z.ltb_ge in H. lia.
Qed.

Lemma separated_nil : separated [].
Proof. intros p q i j _ H. destruct p; discriminate. Qed.

Lemma separated_snoc (idxs : list nat) (i : nat) :
  separated idxs -> (forall j, In j idxs -> apart j i) -> separated (idxs ++ [i]).
Proof.
  intros Hs Hi p q a b Hpq Ha Hb.
  destruct (Nat.lt_ge_cases q (length idxs)) as [Hq|Hq].
  - rewrite nth_error_app1 in Ha, Hb by lia. eauto.
  - assert (q = length idxs).
    { assert (q < length (idxs ++ [i]))%nat by (apply nth_error_Some; congruence).
      rewrite length_app in *; simpl in *; lia. }
    subst q. rewrite nth_error_app1 in Ha by lia.
    rewrite nth_error_app2, Nat.sub_diag in Hb by lia. simpl in Hb.
    inversion Hb; subst. apply Hi. eapply nth_error_In; eauto.
Qed.

Lemma separated_cons (i : nat) (idxs : list nat) :
  separated idxs -> (forall j, In j idxs -> apart i j) -> separated (i :: idxs).
Proof.
  intros Hs Hi p q a b Hpq Ha Hb.
  destruct q as [|q]; [lia|]. simpl in Hb.
  destruct p as [|p]; simpl in Ha.
  - inversion Ha; subst. apply Hi. eapply nth_error_In; eauto.
  - apply (Hs p q); auto. lia.
Qed.

(** *** The batch scan *)

Lemma detectStep_keeps (d : ShotDetector) (imuData : list Sample) (st : BatchState) (i : nat) :
  BatchInv d imuData st -> BatchInv d imuData (detectStep d imuData (map aMag imuData) st i).
Proof.
  intros [I1 I2 I3].
  destruct (detectStep_inv d imuData (map aMag imuData) st i)
    as [->|(s & base & dipIdx & recIdx & HP & Hs & Hc & _ & _ & ->)]; [now split|].
  split; cbn [shots lastIdx].
  - intros sh Hin. apply in_app_or in Hin. destruct Hin as [Hin|[<-|[]]]; [auto|].
    exists s, base, dipIdx, recIdx. cbn [batchShot Shot.idx]. auto.
  - rewrite map_app. cbn [map batchShot Shot.idx]. apply separated_snoc; [assumption|].
    intros j Hj. apply in_map_iff in Hj. destruct Hj as (sh & <- & Hin).
    destruct (I3 sh Hin) as (l & Hl & Hle). rewrite Hl in Hc.
    apply tooClose_apart in Hc. unfold apart in *. lia.
  - intros sh Hin. exists i. split; [reflexivity|].
    apply in_app_or in Hin. destruct Hin as [Hin|[<-|[]]]; [|cbn; lia].
    destruct (I3 sh Hin) as (l & Hl & Hle). rewrite Hl in Hc.
    apply tooClose_apart in Hc. unfold apart in *. lia.
Qed.

Lemma detectAll_inv (d : ShotDetector) (imuData : list Sample) :
  BatchInv d imuData
    (fold_left (detectStep d imuData (map aMag imuData))
               (batchIndices (length (map aMag imuData)))
               {| shots := []; lastIdx := NegInfinity; lastTime := 0%float |}).
Proof.
  generalize (batchIndices (length (map aMag imuData))). intros l.
  assert (G : forall st, BatchInv d imuData st ->
                         BatchInv d imuData (fold_left (detectStep d imuData (map aMag imuData)) l st)).
  { induction l as [|i l IH]; intros st Hst; simpl; [assumption|].
    apply IH. now apply detectStep_keeps. }
  apply G. split; cbn [shots map]; [intros sh [] | apply separated_nil | intros sh []].
Qed.

(** *** The live scan *)

Lemma scan_inv (d : ShotDetector) (aMags : list float) (len : nat) (currentTime : float)
      (buffer : IMUBuffer.IMUBuffer Sample) (indices : list nat) :
  scan d aMags len currentTime buffer indices = (None, d) \/
  exists i base dipIdx recIdx,
    In i indices /\
    Passed aMags len i base dipIdx recIdx /\
    (i + 1 < Nat.min len (i + DIP_SEARCH_WINDOW))%nat /\
    tooClose (IMUBuffer.absIndex buffer i) (lastShotIdx d) = false /\
    scan d aMags len currentTime buffer indices =
    (Some (liveShot d aMags i currentTime buffer base dipIdx recIdx),
     accepted d currentTime (IMUBuffer.absIndex buffer i)).
Proof.
  induction indices as [|i rest IH]; simpl; [now left|].
  destruct (checkCandidate_inv d aMags i len currentTime buffer)
    as [->|(base & dipIdx & recIdx & HP & Hw & Hc & _ & _ & ->)]; cbv beta iota.
  - destruct IH as [IH|(j & base & dipIdx & recIdx & Hin & IH)]; [now left|].
    right. exists j, base, dipIdx, recIdx. split; [now right | exact IH].
  - right. exists i, base, dipIdx, recIdx.
    split; [now left|]. split; [exact HP|]. split; [exact Hw|]. split; [exact Hc|reflexivity].
Qed.

Lemma processSample_inv (d : ShotDetector) (buffer : IMUBuffer.IMUBuffer Sample)
      (currentTime : float) :
  processSample d buffer currentTime = (None, d) \/
  exists i base dipIdx recIdx,
    let aMags := map aMag (IMUBuffer.data buffer) in
    let len := IMUBuffer.length buffer in
    (len - SCAN_START_OFFSET <= i < len - SCAN_END_OFFSET)%nat /\
    Passed aMags len i base dipIdx recIdx /\
    tooClose (IMUBuffer.absIndex buffer i) (lastShotIdx d) = false /\
    processSample d buffer currentTime =
    (Some (liveShot d aMags i currentTime buffer base dipIdx recIdx),
     accepted d currentTime (IMUBuffer.absIndex buffer i)).
Proof.
  unfold processSample.
  destruct (_ <? _)%nat eqn:E; [now left|]. cbv zeta.
  destruct (scan_inv d (map aMag (IMUBuffer.data buffer)) (IMUBuffer.length buffer)
                     currentTime buffer
                     (seq (IMUBuffer.length buffer - SCAN_START_OFFSET)
                          (IMUBuffer.length buffer - SCAN_END_OFFSET -
                           (IMUBuffer.length buffer - SCAN_START_OFFSET))))
    as [->|(i & base & dipIdx & recIdx & Hin & HP & _ & Hc & ->)]; [now left|].
  right. exists i, base, dipIdx, recIdx. apply in_seq in Hin.
  split; [lia|]. split; [exact HP|]. split; [exact Hc|reflexivity].
Qed.

Lemma run_separated (calls : list (IMUBuffer.IMUBuffer Sample * float)) (d : ShotDetector) :
  separated (map LiveShot.idx (fst (run d calls))) /\
  (forall l sh, lastShotIdx d = At l -> In sh (fst (run d calls)) -> apart l (LiveShot.idx sh)).
Proof.
  revert d. induction calls as [|[buffer now] rest IH]; intros d; simpl.
  - split; [apply separated_nil | intros l sh _ []].
  - destruct (processSample_inv d buffer now)
      as [->|(i & base & dipIdx & recIdx & _ & _ & Hc & ->)].
    + specialize (IH d). destruct (run d rest) as [later d'']. exact IH.
    + specialize (IH (accepted d now (IMUBuffer.absIndex buffer i))).
      destruct (run _ rest) as [later d'']. simpl in *. destruct IH as [IH1 IH2].
      split.
      * apply separated_cons; [assumption|].
        intros j Hj. apply in_map_iff in Hj. destruct Hj as (sh & <- & Hin).
        exact (IH2 _ sh eq_refl Hin).
      * intros l sh Hl [<-|Hin].
        -- cbn. rewrite Hl in Hc. now apply tooClose_apart.
        -- rewrite Hl in Hc. apply tooClose_apart in Hc.
           pose proof (IH2 _ sh eq_refl Hin). unfold apart in *. lia.
Qed.

End DetectorFacts.

(** ** The movement detector *)

Module MovementFacts.
Import MovementDetector Movement JSFacts.
Local Open Scope float_scope.

(** How [Math.max(0, Math.min(1, x))] clamps a number: the result lies
    in [0, 1]; it is 0 below 0, 1 above 1, and [x] in between. *)
Lemma clamp_unit (x : float) :
  JS.number x ->
  let c := Movement.clamp x 0 1 in
  (0 <=? c)%float = true /\ (c <=? 1)%float = true /\
  ((x <? 0)%float = true -> c = 0%float) /\
  ((1 <? x)%float = true -> c = 1%float) /\
  ((0 <=? x)%float = true -> (x <=? 1)%float = true -> (c =? x)%float = true).
Proof.
  intros Hx. pose proof Hx as Hn. unfold JS.number in Hn. cbv zeta.
  unfold Movement.clamp, JS.Math_max, JS.Math_min.
  change (is_nan 1) with false. change (is_nan 0) with false. rewrite Hn. cbn [orb].
  destruct (1 <? x)%float eqn:E1.
  { vm_compute. repeat split; try reflexivity.
    - intros H0. pose proof (ltb_trans _ _ _ E1 H0) as C. vm_compute in C. discriminate.
    - intros _ H1. rewrite (ltb_not_geb _ _ E1) in H1. discriminate. }
  assert (Hx1 : (x <=? 1)%float = true) by (apply not_ltb_leb; auto; reflexivity).
  assert (Hmin : exists y, (if x <? 1 then x else if get_sign 1 then 1 else x) = y /\ y = x).
  { exists x. split; [|reflexivity]. destruct (x <? 1); reflexivity. }
  destruct Hmin as (y & -> & ->). rewrite Hn.
  destruct (0 <? x) eqn:E3.
  - repeat split; auto using ltb_leb; try discriminate.
    + intros H0. pose proof (ltb_trans _ _ _ E3 H0) as C. vm_compute in C. discriminate.
    + intros _ _. apply not_ltb_eqb; auto using ltb_irrefl.
  - destruct (x <? 0) eqn:E4.
    + repeat split; try reflexivity; try discriminate.
      intros H0 _. rewrite (ltb_not_geb _ _ E4) in H0. discriminate.
    + change (get_sign 0) with false. cbv iota.
      repeat split; try reflexivity; try discriminate.
      intros _ _. apply not_ltb_eqb; auto; reflexivity.
Qed.

Lemma pushed_length (w : list float) (aMag : float) :
  (length w <= MOVEMENT_WINDOW)%nat ->
  (length (pushed w aMag) <= MOVEMENT_WINDOW)%nat /\
  pushed w aMag = skipn (length w + 1 - MOVEMENT_WINDOW) (w ++ [aMag]).
Proof.
  intros H. unfold pushed.
  assert (L : length (w ++ [aMag]) = S (length w)) by (rewrite length_app; simpl; lia).
  rewrite L. destruct (MOVEMENT_WINDOW <? S (length w))%nat eqn:E.
  - apply Nat.ltb_lt in E. assert (E' : length w = MOVEMENT_WINDOW) by lia.
    rewrite E'. replace (MOVEMENT_WINDOW + 1 - MOVEMENT_WINDOW)%nat with 1%nat by lia.
    split; [|reflexivity].
    destruct (w ++ [aMag]) eqn:Ew; simpl in *; lia.
  - apply Nat.ltb_ge in E.
    replace (length w + 1 - MOVEMENT_WINDOW)%nat with 0%nat by lia.
    split; [rewrite L; lia | reflexivity].
Qed.

Lemma processSample_filling (d : MovementDetector) (aMag t : float) :
  (length (window d) + 1 < MOVEMENT_WINDOW)%nat ->
  processSample d aMag t =
  ({| window := window d ++ [aMag]; isMoving := isMoving d;
      lastTransitionTime := lastTransitionTime d; intensity := intensity d |},
   isMoving d).
Proof.
  intros H. unfold processSample, pushed.
  assert (L : length (window d ++ [aMag]) = S (length (window d)))
    by (rewrite length_app; simpl; lia).
  rewrite L.
  replace (MOVEMENT_WINDOW <? S (length (window d)))%nat with false
    by (symmetry; apply Nat.ltb_ge; lia).
  rewrite L.
  replace (S (length (window d)) <? MOVEMENT_WINDOW)%nat with true
    by (symmetry; apply Nat.ltb_lt; lia).
  reflexivity.
Qed.

(** While fewer than 20 samples have been received the calls return the
    state the detector started with and change nothing but the window. *)
Lemma feed_filling (samples : list (float * float)) (d : MovementDetector) :
  (length (window d) + length samples < MOVEMENT_WINDOW)%nat ->
  let d' := fst (feed d samples) in
  window d' = window d ++ map fst samples /\
  isMoving d' = isMoving d /\ intensity d' = intensity d /\
  lastTransitionTime d' = lastTransitionTime d /\
  snd (feed d samples) = repeat (isMoving d) (length samples).
Proof.
  revert d. induction samples as [|[a t] rest IH]; intros d H; simpl in *.
  - rewrite app_nil_r. repeat split.
  - rewrite processSample_filling by lia.
    set (d1 := {| window := window d ++ [a]; isMoving := isMoving d;
                  lastTransitionTime := lastTransitionTime d; intensity := intensity d |}).
    specialize (IH d1). cbn [window d1 isMoving intensity lastTransitionTime] in IH.
    rewrite length_app in IH. simpl in IH. specialize (IH ltac:(lia)).
    destruct (feed d1 rest) as [d2 rs]. cbn [fst snd] in *.
    destruct IH as (H1 & H2 & H3 & H4 & H5).
    rewrite H1, <- app_assoc. repeat split; auto. now rewrite H5.
Qed.

Lemma pushed_full (w : list float) (aMag : float) :
  (19 <= length w)%nat -> (20 <= length (pushed w aMag))%nat.
Proof.
  intros H. unfold pushed.
  assert (L : length (w ++ [aMag]) = S (length w)) by (rewrite length_app; simpl; lia).
  rewrite L. destruct (MOVEMENT_WINDOW <? S (length w))%nat eqn:E.
  - apply Nat.ltb_lt in E. unfold MOVEMENT_WINDOW in E.
    destruct (w ++ [aMag]) eqn:Ew; simpl in *; lia.
  - lia.
Qed.

(** A call with a full window whose standard deviation is not above the
    threshold: a stationary detector stays stationary; a moving one either
    becomes stationary, more than 800 ms after [lastTransitionTime], or
    stays moving with [lastTransitionTime] as it was. *)
Lemma processSample_quiet (d : MovementDetector) (aMag t : float) :
  (19 <= length (window d))%nat ->
  (MOVEMENT_THRESHOLD <? windowStd (pushed (window d) aMag)) = false ->
  let d' := fst (processSample d aMag t) in
  (19 <= length (window d'))%nat /\
  (isMoving d = false -> isMoving d' = false) /\
  (isMoving d = true -> isMoving d' = true ->
   lastTransitionTime d' = lastTransitionTime d).
Proof.
  intros Hw Hq. cbv zeta. pose proof (pushed_full (window d) aMag Hw) as Hf.
  unfold processSample.
  replace (length (pushed (window d) aMag) <? MOVEMENT_WINDOW)%nat with false
    by (symmetry; apply Nat.ltb_ge; exact Hf).
  cbv zeta. rewrite Hq.
  destruct (isMoving d) eqn:E; cbn [negb Bool.eqb];
    try (destruct (MOVEMENT_HYSTERESIS_MS <? t - lastTransitionTime d));
    cbn [fst window isMoving lastTransitionTime];
    repeat split; try lia; try congruence.
Qed.

(** While a moving detector stays moving through calls whose standard
    deviation is not above the threshold, [lastTransitionTime] does not
    move: the dwell time is counted from before the first of them. *)
Lemma dwell (samples : list (float * float)) (d : MovementDetector) :
  (19 <= length (window d))%nat -> quiet d samples ->
  (isMoving d = false -> isMoving (fst (feed d samples)) = false) /\
  (isMoving d = true -> isMoving (fst (feed d samples)) = true ->
   lastTransitionTime (fst (feed d samples)) = lastTransitionTime d).
Proof.
  revert d. induction samples as [|[a t] rest IH]; intros d Hw Hq; simpl in *.
  - split; auto.
  - destruct Hq as [Hq Hrest].
    destruct (processSample_quiet d a t Hw Hq) as (Hw' & Hs & Hm).
    destruct (processSample d a t) as [d1 r] eqn:E1. cbn [fst] in *.
    destruct (IH d1 Hw' Hrest) as [IH1 IH2].
    destruct (feed d1 rest) as [d2 rs]. cbn [fst] in *.
    split.
    + intros H. auto.
    + intros H H2. destruct (isMoving d1) eqn:E.
      * rewrite IH2 by auto. auto.
      * rewrite IH1 in H2 by reflexivity. discriminate.
Qed.

End MovementFacts.

(** ** Profiles of identical feature vectors *)

Module CalibratorFacts.
Import MotionCalibrator JSFacts.
Local Open Scope float_scope.

Lemma filter_repeat_true {A : Type} (f : A -> bool) (x : A) (n : nat) :
  f x = true -> filter f (repeat x n) = repeat x n.
Proof. intros H. induction n as [|n IH]; simpl; [reflexivity|]. now rewrite H, IH. Qed.

(** The values that [computeProfile] averages for one feature of [n]
    identical vectors. *)
Lemma keyStat_repeat (f : Features.t) (n : nat) (key : FeatureKey) :
  JS.number (feature f key) -> (0 < n)%nat ->
  keyStat (repeat f n) key =
  {| Stat.mean := JS.mean (repeat (feature f key) n);
     Stat.std := JS.std (repeat (feature f key) n) (JS.mean (repeat (feature f key) n));
     Stat.min := JS.Math_min_list (repeat (feature f key) n);
     Stat.max := JS.Math_max_list (repeat (feature f key) n) |}.
Proof.
  intros Hv Hn. unfold keyStat.
  rewrite map_repeat.
  rewrite filter_repeat_true by (unfold JS.number in Hv; now rewrite Hv).
  destruct n as [|n]; [lia|]. reflexivity.
Qed.

(** A feature that is NaN in every vector is left out of the average:
    its statistic is all zeros. *)
Lemma keyStat_repeat_nan (f : Features.t) (n : nat) (key : FeatureKey) :
  is_nan (feature f key) = true ->
  keyStat (repeat f n) key =
  {| Stat.mean := 0; Stat.std := 0; Stat.min := 0; Stat.max := 0 |}.
Proof.
  intros Hv. unfold keyStat. rewrite map_repeat.
  assert (E : filter (fun v => negb (is_nan v)) (repeat (feature f key) n) = []).
  { induction n as [|n IH]; simpl; [reflexivity|]. now rewrite Hv. }
  now rewrite E.
Qed.

(** When the mean is the shared value itself, every squared deviation is
    zero and so is the standard deviation. *)
Lemma std_repeat_exact (v : float) (n : nat) :
  is_finite v = true -> (0 < n)%nat -> (Z.of_nat n < 2 ^ 53)%Z ->
  JS.std (repeat v n) v = 0.
Proof.
  intros Hf Hn Hb. unfold JS.std, JS.variance.
  assert (E : forall k, fold_left (fun a v0 => a + (v0 - v) * (v0 - v)) (repeat v k) 0 = 0).
  { induction k as [|k IH]; simpl; [reflexivity|].
    rewrite (sub_self v Hf). change (0 + 0 * 0) with 0. exact IH. }
  rewrite E, repeat_length, (zero_div_of_nat n Hn Hb). reflexivity.
Qed.

Lemma stat_computeProfile (f : Features.t) (n : nat) (key : FeatureKey) :
  exists p, computeProfile (Some (repeat f (S n))) = Some p /\
            Profile.count p = S n /\
            forall key, stat p key = Some (keyStat (repeat f (S n)) key).
Proof.
  eexists. split; [reflexivity|]. split.
  - cbn [Profile.count]. apply repeat_length.
  - intros k. destruct k; reflexivity.
Qed.

End CalibratorFacts.

(** ** More on the order of doubles *)

Module JSMore.
Import JS JSFacts.
Local Open Scope float_scope.

Lemma SFlt_le_trans (x y z : spec_float) :
  SFltb x y = true -> SFleb y z = true -> SFltb x z = true.
Proof.
  unfold SFltb, SFleb.
  destruct x as [sx|sx| |sx mx ex], y as [sy|sy| |sy my ey], z as [sz|sz| |sz mz ez];
    simpl; try discriminate; try reflexivity;
    try (destruct sx); try (destruct sy); try (destruct sz);
    simpl; try discriminate; try reflexivity;
    change (Pos.compare_cont Eq mx my) with (Pos.compare mx my);
    change (Pos.compare_cont Eq my mz) with (Pos.compare my mz);
    change (Pos.compare_cont Eq mx mz) with (Pos.compare mx mz);
    destruct (Z.compare_spec ex ey), (Z.compare_spec ey ez), (Z.compare_spec ex ez);
    try discriminate; try reflexivity; try lia;
    destruct (Pos.compare_spec mx my), (Pos.compare_spec my mz), (Pos.compare_spec mx mz);
    simpl; try discriminate; try reflexivity; lia.
Qed.

Lemma ltb_leb_trans (x y z : float) :
  (x <? y) = true -> (y <=? z) = true -> (x <? z) = true.
Proof. rewrite !ltb_spec, leb_spec. apply SFlt_le_trans. Qed.

Lemma SFle_lt_trans (x y z : spec_float) :
  SFleb x y = true -> SFltb y z = true -> SFltb x z = true.
Proof.
  unfold SFltb, SFleb.
  destruct x as [sx|sx| |sx mx ex], y as [sy|sy| |sy my ey], z as [sz|sz| |sz mz ez];
    simpl; try discriminate; try reflexivity;
    try (destruct sx); try (destruct sy); try (destruct sz);
    simpl; try discriminate; try reflexivity;
    change (Pos.compare_cont Eq mx my) with (Pos.compare mx my);
    change (Pos.compare_cont Eq my mz) with (Pos.compare my mz);
    change (Pos.compare_cont Eq mx mz) with (Pos.compare mx mz);
    destruct (Z.compare_spec ex ey), (Z.compare_spec ey ez), (Z.compare_spec ex ez);
    try discriminate; try reflexivity; try lia;
    destruct (Pos.compare_spec mx my), (Pos.compare_spec my mz), (Pos.compare_spec mx mz);
    simpl; try discriminate; try reflexivity; lia.
Qed.

Lemma leb_ltb_trans (x y z : float) :
  (x <=? y) = true -> (y <? z) = true -> (x <? z) = true.
Proof. rewrite !ltb_spec, leb_spec. apply SFle_lt_trans. Qed.

(** Raising the first argument of [Math.max] does not lower the result. *)
Lemma below_max_mono (r a b y : float) :
  (a <? b) = true -> (r <? JS.Math_max a y) = true -> (r <? JS.Math_max b y) = true.
Proof.
  intros Hab H.
  pose proof (ltb_number_l _ _ Hab) as Na. pose proof (ltb_number_r _ _ Hab) as Nb.
  pose proof (ltb_number_r _ _ H) as Nm.
  unfold JS.Math_max in *. unfold JS.number in *. rewrite Na in H, Nm. rewrite Nb. simpl in *.
  destruct (is_nan y) eqn:Ny; [vm_compute in Nm; discriminate|].
  destruct (b <? y) eqn:E1.
  - (* result y *)
    destruct (a <? y) eqn:E2; [assumption|].
    pose proof (ltb_trans _ _ _ Hab E1). congruence.
  - assert (Hyb : (y <=? b) = true) by (apply not_ltb_leb; assumption).
    assert (Hrb : (r <? b) = true).
    { destruct (a <? y) eqn:E2.
      - exact (ltb_leb_trans _ _ _ H Hyb).
      - destruct (y <? a) eqn:E3; [exact (ltb_trans _ _ _ H Hab)|].
        destruct (get_sign a); [exact (ltb_leb_trans _ _ _ H Hyb) | exact (ltb_trans _ _ _ H Hab)]. }
    destruct (y <? b) eqn:E4; [assumption|]. destruct (get_sign b); [|assumption].
    assert (Hby : (b <=? y) = true) by (apply not_ltb_leb; assumption).
    exact (ltb_leb_trans _ _ _ Hrb Hby).
Qed.

End JSMore.

(** ** More on the detector: every gate, and where shots come from *)

Module DetectorMore.
Import ShotDetector Gates Statements JSFacts.
Local Open Scope float_scope.

Lemma rec_fold (aMags : list float) (js : list nat) (cur : nat) :
  let r := fold_left (fun recIdx j =>
             if JS.get aMags recIdx <? JS.get aMags j then j else recIdx) js cur in
  (r = cur \/ In r js) /\
  (r = cur \/ (JS.get aMags cur <? JS.get aMags r) = true) /\
  (forall j, In j js -> (JS.get aMags r <? JS.get aMags j) = false).
Proof.
  revert cur. induction js as [|j0 js IH]; intros cur; simpl.
  - repeat split; auto. intros j [].
  - destruct (JS.get aMags cur <? JS.get aMags j0) eqn:E.
    + destruct (IH j0) as (Hin & Hlt & Hmax). simpl in Hin, Hlt, Hmax.
      set (r := fold_left _ js j0) in *.
      repeat split.
      * destruct Hin as [->|Hin]; auto.
      * right. destruct Hlt as [->|Hlt]; [assumption|].
        exact (ltb_trans _ _ _ E Hlt).
      * intros j [<-|Hj]; [|auto].
        destruct Hlt as [->|Hlt]; [apply ltb_irrefl|].
        destruct (JS.get aMags r <? JS.get aMags j0) eqn:E2; [|reflexivity].
        pose proof (ltb_trans _ _ _ Hlt E2) as C. now rewrite ltb_irrefl in C.
    + destruct (IH cur) as (Hin & Hlt & Hmax). simpl in Hin, Hlt, Hmax.
      set (r := fold_left _ js cur) in *.
      repeat split.
      * destruct Hin as [->|Hin]; auto.
      * assumption.
      * intros j [<-|Hj]; [|auto].
        destruct Hlt as [->|Hlt]; [assumption|].
        destruct (JS.get aMags r <? JS.get aMags j0) eqn:E2; [|reflexivity].
        pose proof (ltb_trans _ _ _ Hlt E2) as C. congruence.
Qed.

Lemma findRecovery_greatest (aMags : list float) (from to_ j : nat) :
  (from <= j < to_)%nat ->
  (JS.get aMags (findRecovery aMags from to_) <? JS.get aMags j) = false.
Proof.
  intros H. unfold findRecovery.
  destruct (rec_fold aMags (seq from (to_ - from)) from) as (_ & _ & Hmax).
  apply Hmax. apply in_seq. lia.
Qed.

(** An iteration of the batch loop either leaves the state as it was, or
    the candidate passed every gate, the two separation gates and the two
    post-filters included, and its shot is appended. *)
Lemma detectStep_cases (d : ShotDetector) (imuData : list Sample) (aMags : list float)
      (st : BatchState) (i : nat) :
  detectStep d imuData aMags st i = st \/
  exists s base dipIdx recIdx,
    Passed aMags (length aMags) i base dipIdx recIdx /\
    nth_error imuData i = Some s /\
    tooClose i (lastIdx st) = false /\
    timeGate (lastTime st) (sampleTimeOf s) /\
    consensusRejects (consensusOf d aMags i dipIdx recIdx) = false /\
    calibrationRejects (calibResultOf d imuData i dipIdx recIdx (Baseline.mean base)) = false /\
    detectStep d imuData aMags st i =
    {| shots := shots st ++ [batchShot d imuData aMags i s base dipIdx recIdx];
       lastIdx := At i;
       lastTime := sampleTimeOf s |}.
Proof.
  unfold detectStep, timeGate. cbv zeta.
  repeat DetectorFacts.gate_step.
  right.
  match goal with H : (_ && _) = false |- _ => rename H into Ht end.
  DetectorFacts.gate_facts.
  eexists _, _, _, _.
  split; [constructor; try eassumption; try reflexivity
         |repeat split; try eassumption; reflexivity].
Qed.

Lemma checkCandidate_cases (d : ShotDetector) (aMags : list float) (i len : nat)
      (currentTime : float) (buffer : IMUBuffer.IMUBuffer Sample) :
  _checkCandidate d aMags i len currentTime buffer = (None, d) \/
  exists base dipIdx recIdx,
    Passed aMags len i base dipIdx recIdx /\
    (i + 1 < Nat.min len (i + DIP_SEARCH_WINDOW))%nat /\
    tooClose (IMUBuffer.absIndex buffer i) (lastShotIdx d) = false /\
    timeGate (lastShotTime d) currentTime /\
    consensusRejects (consensusOf d aMags i dipIdx recIdx) = false /\
    calibrationRejects
      (calibResultOf d (IMUBuffer.data buffer) i dipIdx recIdx (Baseline.mean base)) = false /\
    _checkCandidate d aMags i len currentTime buffer =
    (Some (liveShot d aMags i currentTime buffer base dipIdx recIdx),
     accepted d currentTime (IMUBuffer.absIndex buffer i)).
Proof.
  unfold _checkCandidate, timeGate. cbv zeta.
  repeat DetectorFacts.gate_step.
  right.
  match goal with H : (_ && _) = false |- _ => rename H into Ht end.
  DetectorFacts.gate_facts.
  eexists _, _, _.
  split; [constructor; try eassumption; try reflexivity
         |repeat split; try eassumption; reflexivity].
Qed.

Lemma detectAll_recorded (d : ShotDetector) (imuData : list Sample) (sh : Shot.shot) :
  In sh (detectAll d imuData) -> Recorded d imuData sh.
Proof.
  unfold detectAll. cbv zeta. rewrite length_map.
  set (l0 := batchIndices (length imuData)).
  assert (G : forall l st,
             (forall i, In i l -> In i l0) ->
             (forall sh, In sh (shots st) -> Recorded d imuData sh) ->
             forall sh, In sh (shots (fold_left (detectStep d imuData (map aMag imuData)) l st)) ->
                        Recorded d imuData sh).
  { induction l as [|i l IH]; intros st Hl Hst sh' Hin; simpl in Hin; [auto|].
    apply IH in Hin; [assumption | intros; apply Hl; now right |].
    clear Hin sh'. intros sh' Hin.
    destruct (detectStep_cases d imuData (map aMag imuData) st i)
      as [E|(s & base & dipIdx & recIdx & HP & Hs & _ & _ & Hc & Hk & E)];
      rewrite E in Hin; [auto|].
    cbn [shots] in Hin. apply in_app_or in Hin. destruct Hin as [Hin|[<-|[]]]; [auto|].
    exists i, s, base, dipIdx, recIdx. rewrite length_map in HP.
    split; [apply Hl; now left|]. auto. }
  apply G; [auto | intros ? []].
Qed.

(** *** The live scan, with every gate *)

Lemma scan_cases (d : ShotDetector) (aMags : list float) (len : nat) (currentTime : float)
      (buffer : IMUBuffer.IMUBuffer Sample) (indices : list nat) :
  scan d aMags len currentTime buffer indices = (None, d) \/
  exists i base dipIdx recIdx,
    In i indices /\
    Passed aMags len i base dipIdx recIdx /\
    timeGate (lastShotTime d) currentTime /\
    consensusRejects (consensusOf d aMags i dipIdx recIdx) = false /\
    calibrationRejects
      (calibResultOf d (IMUBuffer.data buffer) i dipIdx recIdx (Baseline.mean base)) = false /\
    scan d aMags len currentTime buffer indices =
    (Some (liveShot d aMags i currentTime buffer base dipIdx recIdx),
     accepted d currentTime (IMUBuffer.absIndex buffer i)).
Proof.
  induction indices as [|i rest IH]; simpl; [now left|].
  destruct (checkCandidate_cases d aMags i len currentTime buffer)
    as [->|(base & dipIdx & recIdx & HP & _ & _ & Ht & Hc & Hk & ->)]; cbv beta iota.
  - destruct IH as [IH|(j & base & dipIdx & recIdx & Hin & IH)]; [now left|].
    right. exists j, base, dipIdx, recIdx. split; [now right | exact IH].
  - right. exists i, base, dipIdx, recIdx.
    split; [now left|]. split; [exact HP|]. split; [exact Ht|].
    split; [exact Hc|]. split; [exact Hk|reflexivity].
Qed.

Lemma processSample_cases (d : ShotDetector) (buffer : IMUBuffer.IMUBuffer Sample)
      (currentTime : float) :
  processSample d buffer currentTime = (None, d) \/
  exists i base dipIdx recIdx,
    let aMags := map aMag (IMUBuffer.data buffer) in
    let len := IMUBuffer.length buffer in
    (SCAN_START_OFFSET + BASELINE_WINDOW + BASELINE_OFFSET <= len)%nat /\
    (len - SCAN_START_OFFSET <= i < len - SCAN_END_OFFSET)%nat /\
    Passed aMags len i base dipIdx recIdx /\
    timeGate (lastShotTime d) currentTime /\
    consensusRejects (consensusOf d aMags i dipIdx recIdx) = false /\
    calibrationRejects
      (calibResultOf d (IMUBuffer.data buffer) i dipIdx recIdx (Baseline.mean base)) = false /\
    processSample d buffer currentTime =
    (Some (liveShot d aMags i currentTime buffer base dipIdx recIdx),
     accepted d currentTime (IMUBuffer.absIndex buffer i)).
Proof.
  unfold processSample.
  destruct (_ <? _)%nat eqn:E; [now left|]. cbv zeta. apply Nat.ltb_ge in E.
  destruct (scan_cases d (map aMag (IMUBuffer.data buffer)) (IMUBuffer.length buffer)
                       currentTime buffer
                       (seq (IMUBuffer.length buffer - SCAN_START_OFFSET)
                            (IMUBuffer.length buffer - SCAN_END_OFFSET -
                             (IMUBuffer.length buffer - SCAN_START_OFFSET))))
    as [->|(i & base & dipIdx & recIdx & Hin & HP & Ht & Hc & Hk & ->)]; [now left|].
  right. exists i, base, dipIdx, recIdx. apply in_seq in Hin.
  split; [exact E|]. split; [lia|]. split; [exact HP|]. split; [exact Ht|].
  split; [exact Hc|]. split; [exact Hk|reflexivity].
Qed.

(** *** Neighbours in a list *)

Lemma successive_nil {A : Type} (R : A -> A -> Prop) : successive R [].
Proof. intros k a b H. destruct k; discriminate. Qed.

Lemma nth_error_last {A : Type} (l : list A) (k : nat) (x d : A) :
  nth_error l k = Some x -> S k = length l -> last l d = x.
Proof.
  revert k. induction l as [|a l IH]; intros k Hx Hk; [destruct k; discriminate|].
  destruct k as [|k]; simpl in *.
  - inversion Hx; subst. destruct l; [reflexivity | discriminate].
  - destruct l as [|a' l']; [destruct k; discriminate|]. apply (IH k); [assumption | lia].
Qed.

Lemma successive_snoc {A : Type} (R : A -> A -> Prop) (l : list A) (b d : A) :
  successive R l -> (l <> [] -> R (last l d) b) -> successive R (l ++ [b]).
Proof.
  intros Hs Hb k x y Hx Hy.
  assert (Hk : (S k < length (l ++ [b]))%nat) by (apply nth_error_Some; congruence).
  rewrite length_app in Hk. simpl in Hk.
  rewrite nth_error_app1 in Hx by lia.
  destruct (Nat.eq_dec (S k) (length l)) as [E|E].
  - rewrite nth_error_app2, E, Nat.sub_diag in Hy by lia. simpl in Hy.
    inversion Hy; subst y.
    assert (Hl : l <> []) by (intros ->; destruct k; discriminate).
    specialize (Hb Hl).
    now rewrite (nth_error_last l k x d Hx E) in Hb.
  - rewrite nth_error_app1 in Hy by lia. eauto.
Qed.

Lemma successive_cons {A : Type} (R : A -> A -> Prop) (a : A) (l : list A) :
  successive R l -> (forall b, nth_error l 0 = Some b -> R a b) -> successive R (a :: l).
Proof.
  intros Hs Ha k x y Hx Hy. destruct k as [|k]; simpl in *.
  - inversion Hx; subst. auto.
  - eauto.
Qed.

(** What a shot returned by [processSample] and the detector afterwards
    look like. *)
Lemma processSample_returns (d d' : ShotDetector) (buffer : IMUBuffer.IMUBuffer Sample)
      (currentTime : float) (sh : LiveShot.shot) :
  processSample d buffer currentTime = (Some sh, d') ->
  let len := IMUBuffer.length buffer in
  (190 <= len /\
   len - 90 <= LiveShot.bufferIdx sh < len - 50 /\
   LiveShot.idx sh = LiveShot.bufferIdx sh + IMUBuffer.offset buffer /\
   LiveShot.t sh = currentTime /\
   (exists s, IMUBuffer.get buffer (LiveShot.bufferIdx sh) = Some s /\
              LiveShot.mag sh = aMag s) /\
   lastShotTime d' = currentTime /\
   lastShotIdx d' = At (LiveShot.idx sh) /\
   calibration d' = calibration d /\ useConsensus d' = useConsensus d /\
   consensusOpts d' = consensusOpts d)%nat.
Proof.
  intros H. cbv zeta.
  destruct (processSample_cases d buffer currentTime)
    as [E|(i & base & dipIdx & recIdx & Hlen & Hi & _ & _ & _ & _ & E)];
    rewrite E in H; [discriminate|].
  inversion H; subst; clear H.
  unfold SCAN_START_OFFSET, SCAN_END_OFFSET, BASELINE_WINDOW, BASELINE_OFFSET in *.
  cbn [liveShot accepted LiveShot.bufferIdx LiveShot.idx LiveShot.t LiveShot.mag
       lastShotTime lastShotIdx calibration useConsensus consensusOpts].
  split; [lia|]. split; [lia|]. split; [reflexivity|]. split; [reflexivity|].
  split; [|repeat split].
  unfold IMUBuffer.get, IMUBuffer.length in *.
  destruct (nth_error (IMUBuffer.data buffer) i) as [s|] eqn:Hs;
    [|apply nth_error_None in Hs; lia].
  exists s. split; [reflexivity|].
  unfold JS.get. apply nth_error_nth. rewrite nth_error_map, Hs. reflexivity.
Qed.

End DetectorMore.

(** ** More on runs of pushes *)

Module BufferMore.
Import IMUBuffer BufferRun.

(** What pushing [xs] into a fresh buffer maintains when a compaction
    never drops more than the buffer holds. *)
Lemma pushAll_stream {A : Type} (maxSize0 shiftSize0 : nat) (xs : list A) :
  shiftSize0 <= maxSize0 + 1 ->
  let b := pushAll (new maxSize0 shiftSize0) xs in
  maxSize b = maxSize0 /\ shiftSize b = shiftSize0 /\
  data b = skipn (offset b) xs /\ offset b <= List.length xs /\
  totalPushed b = List.length xs.
Proof.
  intros Hs. cbv zeta. induction xs as [|x xs IH] using rev_ind.
  - simpl. repeat split; lia.
  - unfold pushAll in *. rewrite fold_left_app. simpl.
    set (b := fold_left push xs (new maxSize0 shiftSize0)) in *.
    destruct IH as (HM & HS & Hd & Ho & Ht).
    assert (E1 : data b ++ [x] = skipn (offset b) (xs ++ [x])).
    { rewrite skipn_app, Hd. replace (offset b - List.length xs) with 0 by lia. reflexivity. }
    assert (L1 : List.length (data b ++ [x]) = List.length xs - offset b + 1).
    { rewrite E1, length_skipn, length_app. simpl. lia. }
    unfold push. destruct (maxSize b <? List.length (data b ++ [x])) eqn:E;
      cbn [maxSize shiftSize data offset totalPushed]; rewrite length_app; simpl.
    + apply Nat.ltb_lt in E. rewrite E1, skipn_skipn.
      repeat split; try assumption; try lia.
      f_equal. lia.
    + repeat split; try assumption; lia.
Qed.

Lemma pushAll_retains {A : Type} (maxSize0 shiftSize0 : nat) (xs : list A) :
  let b := pushAll (new maxSize0 shiftSize0) xs in
  maxSize b = maxSize0 /\ shiftSize b = shiftSize0 /\
  Nat.min (List.length xs) (maxSize0 + 1 - shiftSize0) <= length b.
Proof.
  cbv zeta. induction xs as [|x xs IH] using rev_ind.
  - simpl. repeat split. unfold length. simpl. lia.
  - unfold pushAll in *. rewrite fold_left_app. simpl.
    set (b := fold_left push xs (new maxSize0 shiftSize0)) in *.
    destruct IH as (HM & HS & Hl). unfold length in *.
    assert (L1 : List.length (data b ++ [x]) = List.length (data b) + 1).
    { rewrite length_app. simpl. lia. }
    unfold push. destruct (maxSize b <? List.length (data b ++ [x])) eqn:E;
      cbn [maxSize shiftSize data offset totalPushed]; rewrite length_app; simpl.
    + apply Nat.ltb_lt in E. rewrite length_skipn. repeat split; try assumption. lia.
    + repeat split; try assumption. lia.
Qed.

End BufferMore.

(** ** The live loop *)

Module TrackerFacts.
Import ShotDetector Tracker.

Lemma live_snoc (maxSize shiftSize : nat) (d : ShotDetector) (xs : list Sample) (x : Sample) :
  live maxSize shiftSize d (xs ++ [x]) = onSample (live maxSize shiftSize d xs) x.
Proof. unfold live. now rewrite fold_left_app. Qed.

Lemma live_state (maxSize shiftSize : nat) (d : ShotDetector) (xs : list Sample) :
  imu (live maxSize shiftSize d xs) = xs /\
  buffer (live maxSize shiftSize d xs) =
    BufferRun.pushAll (IMUBuffer.new maxSize shiftSize) xs.
Proof.
  induction xs as [|x xs IH] using rev_ind; [split; reflexivity|].
  rewrite live_snoc. destruct IH as [I1 I2]. unfold onSample.
  destruct (processSample _ _ _) as [shot d'].
  cbn [imu buffer]. rewrite I1, I2. split; [reflexivity|].
  unfold BufferRun.pushAll. now rewrite fold_left_app.
Qed.

End TrackerFacts.

(** ** The consensus methods on short data *)

Module ConsensusFacts.
Import ShotDetectorConsensus JSFacts.
Local Open Scope float_scope.

Lemma slice_length {A : Type} (a : list A) (start end_ : nat) :
  length (JS.slice a start end_) = (Nat.min end_ (length a) - start)%nat.
Proof. unfold JS.slice. rewrite length_firstn, length_skipn. lia. Qed.

(** [Math.min(1, x)] is never above 1. *)
Lemma min_one_capped (x : float) : (1 <? JS.Math_min 1 x) = false.
Proof.
  unfold JS.Math_min. change (is_nan 1) with false. simpl.
  destruct (is_nan x); [reflexivity|].
  destruct (1 <? x) eqn:E1; [reflexivity|].
  destruct (x <? 1) eqn:E2; [|exact E1].
  exact E1.
Qed.

Lemma windowSigma_short (aMags : list float) (peakIdx : nat)
      (opts : option WindowSigmaOpts.t) :
  (length aMags < 40)%nat ->
  windowSigma aMags peakIdx opts = {| Method.vote := false; Method.confidence := 0 |}.
Proof.
  intros H. unfold windowSigma. cbv zeta.
  match goal with |- (if ?c then _ else _) = _ => replace c with true; [reflexivity|] end.
  symmetry. apply Nat.ltb_lt. rewrite slice_length. lia.
Qed.

Lemma envelopeRatio_early (aMags : list float) (peakIdx : nat)
      (opts : option EnvelopeRatioOpts.t) :
  (peakIdx < JS.or_default_nat (field opts EnvelopeRatioOpts.shortWindow) 50 / 2 + 20)%nat ->
  envelopeRatio aMags peakIdx opts = {| Method.vote := false; Method.confidence := 0 |}.
Proof.
  intros H. unfold envelopeRatio. cbv zeta.
  set (shortW := JS.or_default_nat (field opts EnvelopeRatioOpts.shortWindow) 50) in *.
  destruct (_ <? 10)%nat; [reflexivity|].
  match goal with |- (if ?c then _ else _) = _ => replace c with true; [reflexivity|] end.
  symmetry. apply Nat.ltb_lt. rewrite slice_length. lia.
Qed.

Lemma confidence_quarters (votes : nat) :
  (votes <= 4)%nat -> (1 <? JS.of_nat votes / JS.of_nat 4) = false.
Proof.
  intros H. destruct votes as [|[|[|[|[|v]]]]]; try (vm_compute; reflexivity). lia.
Qed.

End ConsensusFacts.

(** ** Pattern extraction *)

Module PatternFacts.
Import PatternExtraction PatternStatements JSFacts.
Local Open Scope float_scope.

Lemma max_floor (a : float) :
  JS.number (JS.Math_max a 11) -> (11 <=? JS.Math_max a 11) = true.
Proof.
  unfold JS.Math_max, JS.number. change (is_nan 11) with false. rewrite orb_false_r.
  destruct (is_nan a) eqn:Na; [intros H; vm_compute in H; discriminate|]. intros _.
  destruct (a <? 11) eqn:E1; [reflexivity|].
  destruct (11 <? a) eqn:E2; [now apply ltb_leb|].
  destruct (get_sign a); [reflexivity|].
  apply not_ltb_leb; [exact Na | reflexivity | exact E1].
Qed.

Ltac step :=
  lazymatch goal with
  | |- (if ?c then _ else _) = _ \/ _ =>
    let E := fresh "E" in destruct c eqn:E; [left; reflexivity|]
  | |- match ?o with Some _ => _ | None => _ end = _ \/ _ =>
    let E := fresh "E" in destruct o eqn:E; [|left; reflexivity]
  end.

Lemma extractStep_cases (imuData : list Sample) (label : String.string)
      (st : ExtractState) (i : nat) :
  let aMags := map aMag imuData in
  extractStep imuData aMags (peakThresh aMags) label st i = st \/
  exists dipIdx recIdx baseMean f,
    Relaxed aMags i dipIdx recIdx baseMean /\
    tooNear i (lastPeakIdx st) = false /\
    MotionCalibrator._extractFeatures imuData i dipIdx recIdx baseMean = Some f /\
    extractStep imuData aMags (peakThresh aMags) label st i =
    {| patterns := patterns st ++ [ {| features := f; label := label; idx := i |} ];
       lastPeakIdx := ShotDetector.At i |}.
Proof.
  cbv zeta. unfold extractStep. cbv zeta.
  rewrite !Nat.max_0_l.
  unfold ShotDetector.BASELINE_OFFSET, ShotDetector.BASELINE_WINDOW,
    ShotDetector.DIP_SEARCH_WINDOW, ShotDetector.RECOVERY_SEARCH_WINDOW.
  repeat step.
  right.
  repeat match goal with
         | H : _ || _ = false |- _ => apply orb_false_elim in H; destruct H
         | H : (_ <=? _)%nat = false |- _ => apply Nat.leb_gt in H
         | H : (_ <? _)%nat = false |- _ => apply Nat.ltb_ge in H
         end.
  match goal with
  | H : (i + 1 < Nat.min _ _)%nat |- _ =>
    pose proof (DetectorFacts.findDip_range (map aMag imuData) _ _ H) as Hd
  end.
  match goal with
  | H : (ShotDetector.findDip _ _ _ + 1 < Nat.min _ _)%nat |- _ =>
    pose proof (DetectorFacts.findRecovery_range (map aMag imuData) _ _ H) as Hr
  end.
  eexists _, _, _, _.
  split; [|split; [reflexivity|split; [eassumption|reflexivity]]].
  constructor; try assumption; try reflexivity.
  - intros Ht Hp. eapply leb_trans; [exact (max_floor _ Ht)|].
    apply not_ltb_leb; assumption.
  - lia.
  - intros j Hj Hl. apply DetectorFacts.findDip_least. lia.
  - lia.
  - intros j Hj Hl. apply DetectorMore.findRecovery_greatest. lia.
Qed.

Lemma tooNear_spaced (i l : nat) :
  tooNear i (ShotDetector.At l) = false -> (l + 20 <= i)%nat.
Proof. unfold tooNear, minSpacing. intros H. apply Z.ltb_ge in H. lia. Qed.

Lemma spaced_nil (gap : nat) : spaced gap [].
Proof. intros p q i j _ H. destruct p; discriminate. Qed.

Lemma spaced_snoc (gap : nat) (idxs : list nat) (i : nat) :
  spaced gap idxs -> (forall j, In j idxs -> (j + gap <= i)%nat) -> spaced gap (idxs ++ [i]).
Proof.
  intros Hs Hi p q a b Hpq Ha Hb.
  destruct (Nat.lt_ge_cases q (length idxs)) as [Hq|Hq].
  - rewrite nth_error_app1 in Ha, Hb by lia. eauto.
  - assert (q = length idxs).
    { assert (q < length (idxs ++ [i]))%nat by (apply nth_error_Some; congruence).
      rewrite length_app in *; simpl in *; lia. }
    subst q. rewrite nth_error_app1 in Ha by lia.
    rewrite nth_error_app2, Nat.sub_diag in Hb by lia. simpl in Hb.
    inversion Hb; subst. apply Hi. eapply nth_error_In; eauto.
Qed.

(** What the loop of [extractPatterns] maintains. *)
Lemma extract_loop (imuData : list Sample) (label : String.string) (l0 : list nat) :
  forall l st,
    (forall i, In i l -> In i l0) ->
    (forall p, In p (patterns st) ->
       label = PatternExtraction.label p /\ In (idx p) l0 /\
       exists dipIdx recIdx baseMean,
         Relaxed (map aMag imuData) (idx p) dipIdx recIdx baseMean /\
         MotionCalibrator._extractFeatures imuData (idx p) dipIdx recIdx baseMean =
           Some (features p)) ->
    spaced 20 (map idx (patterns st)) ->
    (forall p, In p (patterns st) ->
       exists k, lastPeakIdx st = ShotDetector.At k /\ (idx p <= k)%nat) ->
    let st' := fold_left (extractStep imuData (map aMag imuData)
                            (peakThresh (map aMag imuData)) label) l st in
    (forall p, In p (patterns st') ->
       label = PatternExtraction.label p /\ In (idx p) l0 /\
       exists dipIdx recIdx baseMean,
         Relaxed (map aMag imuData) (idx p) dipIdx recIdx baseMean /\
         MotionCalibrator._extractFeatures imuData (idx p) dipIdx recIdx baseMean =
           Some (features p)) /\
    spaced 20 (map idx (patterns st')).
Proof.
  induction l as [|i l IH]; intros st Hl H1 H2 H3; simpl; [split; assumption|].
  apply IH; [intros; apply Hl; now right | | |];
    destruct (extractStep_cases imuData label st i)
      as [E|(dipIdx & recIdx & baseMean & f & HR & Hn & Hf & E)];
    cbv zeta in E; rewrite E; try assumption; cbn [patterns lastPeakIdx].
  - intros p Hin. apply in_app_or in Hin. destruct Hin as [Hin|[<-|[]]]; [auto|].
    cbn [PatternExtraction.label idx features].
    split; [reflexivity|]. split; [apply Hl; now left|].
    exists dipIdx, recIdx, baseMean. split; assumption.
  - rewrite map_app. cbn [map idx]. apply spaced_snoc; [assumption|].
    intros j Hj. apply in_map_iff in Hj. destruct Hj as (p & <- & Hin).
    destruct (H3 p Hin) as (k & Hk & Hle). rewrite Hk in Hn.
    apply tooNear_spaced in Hn. lia.
  - intros p Hin. exists i. split; [reflexivity|].
    apply in_app_or in Hin. destruct Hin as [Hin|[<-|[]]]; [|cbn; lia].
    destruct (H3 p Hin) as (k & Hk & Hle). rewrite Hk in Hn.
    apply tooNear_spaced in Hn. lia.
Qed.

Lemma extractPatterns_facts (imuData : list Sample) (label : String.string) :
  (forall p, In p (extractPatterns imuData label) -> Extracted imuData label p) /\
  spaced 20 (map idx (extractPatterns imuData label)).
Proof.
  unfold extractPatterns. cbv zeta.
  destruct (_ <? 60)%nat; [split; [intros p []|apply spaced_nil]|].
  destruct (extract_loop imuData label (extractIndices (length (map aMag imuData)))
              (extractIndices (length (map aMag imuData)))
              {| patterns := []; lastPeakIdx := ShotDetector.NegInfinity |})
    as [G1 G2]; cbn [patterns map]; auto using spaced_nil; try (intros p []).
  cbv zeta in G1, G2. split; [|exact G2].
  intros p Hin. destruct (G1 p Hin) as (Hlab & Hi & Hrest).
  split; [exact Hlab|]. split; [|exact Hrest].
  unfold extractIndices in Hi. apply in_seq in Hi. rewrite length_map in Hi.
  unfold ShotDetector.DIP_SEARCH_WINDOW, ShotDetector.RECOVERY_SEARCH_WINDOW in Hi. lia.
Qed.

End PatternFacts.

(** ** Calibration *)

Module CalibrationFacts.
Import ShotDetector Gates Statements PatternExtraction CalibrationStatements.

Lemma profileOf_counted (ps : list Pattern) : counted (profileOf ps) (length ps).
Proof.
  unfold counted, profileOf. destruct ps as [|p ps]; simpl.
  - split; [split; reflexivity | intros p H; discriminate].
  - split; [split; intros H; discriminate|].
    intros q H. inversion H; subst. cbn. now rewrite length_map.
Qed.

(** Case analysis on the test at the head of both scans. *)
Ltac both_step :=
  lazymatch goal with
  | |- sameButCalib (if ?c then _ else _) _ =>
    let E := fresh "E" in destruct c eqn:E; [assumption|]
  | |- sameButCalib (match ?o with Some _ => _ | None => _ end) _ =>
    let E := fresh "E" in destruct o eqn:E; [|assumption]
  end.

(** Two detectors that differ only in their calibration, neither of
    which ever rejects by it, record the same shots. *)
Lemma detectStep_sameButCalib (d1 d2 : ShotDetector) (imuData : list Sample)
      (aMags : list float) (st1 st2 : BatchState) (i : nat) :
  useConsensus d1 = useConsensus d2 -> consensusOpts d1 = consensusOpts d2 ->
  (forall dipIdx recIdx m,
      calibrationRejects (calibResultOf d1 imuData i dipIdx recIdx m) = false) ->
  (forall dipIdx recIdx m,
      calibrationRejects (calibResultOf d2 imuData i dipIdx recIdx m) = false) ->
  sameButCalib st1 st2 ->
  sameButCalib (detectStep d1 imuData aMags st1 i) (detectStep d2 imuData aMags st2 i).
Proof.
  intros Hu Ho H1 H2 Hst. pose proof Hst as (Hs & Hi & Ht).
  unfold detectStep, consensusOf. cbv zeta. rewrite <- Hi, <- Ht, <- Hu, <- Ho.
  repeat both_step. rewrite H1, H2.
  split; [|split; reflexivity]. cbn [shots]. rewrite !map_app, Hs. reflexivity.
Qed.

Lemma detectAll_sameButCalib (d1 d2 : ShotDetector) (imuData : list Sample) :
  useConsensus d1 = useConsensus d2 -> consensusOpts d1 = consensusOpts d2 ->
  (forall i dipIdx recIdx m,
      calibrationRejects (calibResultOf d1 imuData i dipIdx recIdx m) = false) ->
  (forall i dipIdx recIdx m,
      calibrationRejects (calibResultOf d2 imuData i dipIdx recIdx m) = false) ->
  map withoutCalibResult (detectAll d1 imuData) =
  map withoutCalibResult (detectAll d2 imuData).
Proof.
  intros Hu Ho H1 H2. unfold detectAll. cbv zeta.
  generalize (batchIndices (length (map aMag imuData))). intros l.
  assert (G : forall st1 st2, sameButCalib st1 st2 ->
            sameButCalib (fold_left (detectStep d1 imuData (map aMag imuData)) l st1)
                         (fold_left (detectStep d2 imuData (map aMag imuData)) l st2)).
  { induction l as [|i l IH]; intros st1 st2 Hst; simpl; [assumption|].
    apply IH. apply detectStep_sameButCalib; auto. }
  apply G. repeat split.
Qed.

(** With no shooting profile, [classify] accepts. *)
Lemma classify_no_shooting (f : MotionCalibrator.Features.t)
      (cal : MotionCalibrator.Calibration) :
  (forall profs, MotionCalibrator.profiles cal = Some profs ->
                 MotionCalibrator.Profiles.shooting profs = None) ->
  MotionCalibrator.isShot (MotionCalibrator.classify f (Some cal)) = true.
Proof.
  intros H. unfold MotionCalibrator.classify.
  destruct (MotionCalibrator.profiles cal) as [profs|]; [|reflexivity].
  now rewrite (H profs eq_refl).
Qed.

End CalibrationFacts.

(** ** The feature vector *)

Module FeatureFacts.
Import MotionCalibrator JSFacts.
Local Open Scope float_scope.

(** The running maximum of the gyroscope loop. *)
Lemma max_fold (G : nat -> float) (js : list nat) (init : float) :
  let r := fold_left (fun m j => let g := G j in if m <? g then g else m) js init in
  (r = init \/ (init <? r) = true) /\
  (forall j, In j js -> (r <? G j) = false).
Proof.
  revert init. induction js as [|j0 js IH]; intros init; simpl.
  - split; [now left | intros j []].
  - destruct (init <? G j0) eqn:E.
    + destruct (IH (G j0)) as (Hlt & Hmax). simpl in Hlt, Hmax.
      set (r := fold_left _ js (G j0)) in *.
      split.
      * right. destruct Hlt as [->|Hlt]; [assumption | exact (ltb_trans _ _ _ E Hlt)].
      * intros j [<-|Hj]; [|auto].
        destruct Hlt as [->|Hlt]; [apply ltb_irrefl|].
        destruct (r <? G j0) eqn:E2; [|reflexivity].
        pose proof (ltb_trans _ _ _ Hlt E2) as C. now rewrite ltb_irrefl in C.
    + destruct (IH init) as (Hlt & Hmax). simpl in Hlt, Hmax.
      set (r := fold_left _ js init) in *.
      split; [assumption|].
      intros j [<-|Hj]; [|auto].
      destruct Hlt as [->|Hlt]; [assumption|].
      destruct (r <? G j0) eqn:E2; [|reflexivity].
      pose proof (ltb_trans _ _ _ Hlt E2) as C. congruence.
Qed.

Lemma extractFeatures_none (imuData : list Sample) (peakIdx dipIdx recIdx : nat)
      (baselineMean : float) :
  _extractFeatures imuData peakIdx dipIdx recIdx baselineMean = None <->
  (length imuData <= peakIdx \/ length imuData <= dipIdx \/ length imuData <= recIdx)%nat.
Proof.
  unfold _extractFeatures.
  destruct (length imuData <=? dipIdx)%nat eqn:Ed; simpl.
  { apply Nat.leb_le in Ed. split; auto. }
  destruct (length imuData <=? recIdx)%nat eqn:Er; simpl.
  { apply Nat.leb_le in Er. split; auto. }
  apply Nat.leb_gt in Ed, Er.
  destruct (nth_error imuData peakIdx) as [ps|] eqn:E1.
  - destruct (nth_error imuData dipIdx) as [ds|] eqn:E2;
      [|apply nth_error_None in E2; lia].
    destruct (nth_error imuData recIdx) as [rs|] eqn:E3;
      [|apply nth_error_None in E3; lia].
    assert (peakIdx < length imuData)%nat by (apply nth_error_Some; congruence).
    split; [discriminate | lia].
  - apply nth_error_None in E1. split; auto.
Qed.

End FeatureFacts.

(** ** Runs of the movement detector *)

Module MovementMore.
Import MovementDetector Movement MovementStatements JSFacts.
Local Open Scope float_scope.

(** The clamp is a number only if its argument is. *)
Lemma clamp_number (x : float) : JS.number (clamp x 0 1) -> JS.number x.
Proof.
  unfold clamp, JS.Math_max, JS.Math_min, JS.number.
  change (is_nan 0) with false. change (is_nan 1) with false. simpl.
  destruct (is_nan x); [intros H; vm_compute in H; discriminate | reflexivity].
Qed.

Lemma processSample_keeps (d : MovementDetector) (aMag t : float) :
  (length (window d) <= MOVEMENT_WINDOW)%nat -> unitIntensity d ->
  let d' := fst (processSample d aMag t) in
  length (window d') = Nat.min (S (length (window d))) MOVEMENT_WINDOW /\
  unitIntensity d'.
Proof.
  intros Hw Hi. cbv zeta.
  assert (Lp : length (pushed (window d) aMag) = Nat.min (S (length (window d))) MOVEMENT_WINDOW).
  { unfold pushed. unfold MOVEMENT_WINDOW in *.
    assert (L : length (window d ++ [aMag]) = S (length (window d)))
      by (rewrite length_app; simpl; lia).
    rewrite L. destruct (20 <? S (length (window d)))%nat eqn:E.
    - apply Nat.ltb_lt in E. destruct (window d ++ [aMag]) eqn:Ew; simpl in *; lia.
    - apply Nat.ltb_ge in E. lia. }
  assert (C : forall x, unitIntensity
                {| window := pushed (window d) aMag; isMoving := true;
                   lastTransitionTime := t; intensity := clamp x 0 1 |}).
  { intros x Hn. cbn [intensity] in *. pose proof (clamp_number x Hn) as Hx.
    destruct (MovementFacts.clamp_unit x Hx) as (H0 & H1 & _). split; assumption. }
  unfold processSample. cbv zeta.
  destruct (_ <? MOVEMENT_WINDOW)%nat; [split; [exact Lp | exact Hi]|].
  fold (clamp ((windowStd (pushed (window d) aMag) - 0.3) / 1.5) 0 1).
  destruct (negb _); [destruct (MOVEMENT_THRESHOLD <? _); [|destruct (_ <? _)]|];
    (split; [exact Lp | exact (C _)]).
Qed.

Lemma feed_keeps (samples : list (float * float)) (d : MovementDetector) :
  (length (window d) <= MOVEMENT_WINDOW)%nat -> unitIntensity d ->
  length (window (fst (feed d samples))) =
    Nat.min (length (window d) + length samples) MOVEMENT_WINDOW /\
  length (snd (feed d samples)) = length samples /\
  unitIntensity (fst (feed d samples)).
Proof.
  revert d. induction samples as [|[a t] rest IH]; intros d Hw Hi; simpl.
  - split; [lia|]. split; [reflexivity | assumption].
  - destruct (processSample_keeps d a t Hw Hi) as [H1 H2]. cbv zeta in H1, H2.
    unfold MOVEMENT_WINDOW in *.
    destruct (processSample d a t) as [d' r]. simpl in H1, H2.
    assert (Hw' : (length (window d') <= 20)%nat) by lia.
    destruct (IH d' Hw' H2) as (I1 & I2 & I3).
    destruct (feed d' rest) as [d'' rs]. simpl in *.
    split; [lia|]. split; [lia | assumption].
Qed.

End MovementMore.

(** ** The clock text *)

Module TimeFacts.
Import Util.

Lemma append_inj (a a' b b' : String.string) :
  String.length a = String.length a' ->
  String.append a b = String.append a' b' -> a = a' /\ b = b'.
Proof.
  revert a'. induction a as [|c a IH]; intros [|c' a'] Hl H; simpl in *; try discriminate.
  - split; [reflexivity | assumption].
  - injection H as Hc H. injection Hl as Hl. destruct (IH a' Hl H) as [-> ->].
    subst. split; reflexivity.
Qed.

Lemma length_append (a b : String.string) :
  String.length (String.append a b) = String.length a + String.length b.
Proof. induction a; simpl; congruence. Qed.

Lemma decimal_parses (n : N) :
  DecimalString.NilZero.uint_of_string (Session.decimal n) = Some (N.to_uint n).
Proof.
  unfold Session.decimal. apply DecimalString.NilZero.usu.
  destruct n as [|p]; [discriminate|]. simpl.
  intros H. pose proof (DecimalPos.Unsigned.to_uint_nonnil p). contradiction.
Qed.

Lemma decimal_inj (n n' : N) : Session.decimal n = Session.decimal n' -> n = n'.
Proof.
  intros H. pose proof (decimal_parses n) as P. rewrite H, decimal_parses in P.
  injection P as P. apply (f_equal N.of_uint) in P.
  now rewrite !DecimalN.Unsigned.of_to in P.
Qed.

Lemma decimal_nonempty (n : N) : Session.decimal n <> ""%string.
Proof.
  intros H. pose proof (decimal_parses n) as P. rewrite H in P. discriminate.
Qed.

Lemma padStart2_length (s : String.string) : 2 <= String.length (padStart2 s).
Proof.
  unfold padStart2. destruct s as [|c [|c' s]]; simpl; lia.
Qed.

Lemma padStart2_decimal_inj (n n' : N) :
  padStart2 (Session.decimal n) = padStart2 (Session.decimal n') -> n = n'.
Proof.
  assert (G : forall a b : N,
             String.length (Session.decimal a) = 1 ->
             2 <= String.length (Session.decimal b) ->
             String.String "0"%char (Session.decimal a) = Session.decimal b -> a = b).
  { intros a b La Lb H. pose proof (decimal_parses b) as P. rewrite <- H in P.
    pose proof (decimal_parses a) as Q.
    assert (Z0 : forall s, s <> ""%string ->
                DecimalString.NilZero.uint_of_string s =
                DecimalString.NilEmpty.uint_of_string s).
    { intros [|c s] Hs; [contradiction | reflexivity]. }
    rewrite Z0 in P by discriminate. rewrite Z0 in Q by apply decimal_nonempty.
    change (DecimalString.NilEmpty.uint_of_string (String.String "0" (Session.decimal a)))
      with (DecimalString.uint_of_char "0"
              (DecimalString.NilEmpty.uint_of_string (Session.decimal a))) in P.
    rewrite Q in P. injection P as P.
    apply (f_equal N.of_uint) in P. rewrite DecimalN.Unsigned.of_to in P.
    rewrite <- P. change (N.of_uint (Decimal.D0 (N.to_uint a))) with (N.of_uint (N.to_uint a)).
    now rewrite DecimalN.Unsigned.of_to. }
  intros H. unfold padStart2 in H.
  pose proof (decimal_nonempty n) as Hn. pose proof (decimal_nonempty n') as Hn'.
  destruct (String.length (Session.decimal n)) as [|[|k]] eqn:L;
    destruct (String.length (Session.decimal n')) as [|[|k']] eqn:L';
    try (destruct (Session.decimal n); [contradiction | discriminate]);
    try (destruct (Session.decimal n'); [contradiction | discriminate]).
  - injection H as H. now apply decimal_inj.
  - apply G; [assumption | lia | assumption].
  - symmetry. apply G; [assumption | lia | now symmetry].
  - now apply decimal_inj.
Qed.

Lemma String_of_nonneg (z : Z) : (0 <= z)%Z -> String_of z = Session.decimal (Z.to_N z).
Proof. intros H. destruct z; [reflexivity | reflexivity | lia]. Qed.

Lemma seconds_two_digits (s : Z) :
  (0 <= s < 60)%Z -> String.length (padStart2 (String_of s)) = 2.
Proof.
  intros H. rewrite String_of_nonneg by lia.
  assert (G : forall k, k < 60 ->
             String.length (padStart2 (Session.decimal (N.of_nat k))) = 2).
  { intros k Hk. do 60 (destruct k as [|k]; [reflexivity|]). lia. }
  replace (Z.to_N s) with (N.of_nat (Z.to_nat s)) by lia.
  apply G. lia.
Qed.

Lemma isSafeInteger_spec (x : Z) :
  isSafeInteger x = true <-> (- 2 ^ 53 < x < 2 ^ 53)%Z.
Proof. unfold isSafeInteger. rewrite andb_true_iff, !Z.ltb_lt. tauto. Qed.

Lemma formatTimeFromSec_safe (t : Z) :
  (0 <= t < 2 ^ 53)%Z ->
  formatTimeFromSec t =
  Some (String.append (padStart2 (String_of (t / 60)))
                      (String.append ":"%string (padStart2 (String_of (Z.rem t 60))))).
Proof.
  intros H. unfold formatTimeFromSec.
  replace (isSafeInteger t) with true by (symmetry; apply isSafeInteger_spec; lia).
  reflexivity.
Qed.

Lemma formatTime_safe (ms : Z) :
  (0 <= ms < 2 ^ 53)%Z ->
  formatTime ms =
  Some (String.append (padStart2 (String_of (ms / 1000 / 60)))
                      (String.append ":"%string
                                     (padStart2 (String_of (Z.rem (ms / 1000) 60))))).
Proof.
  intros H. unfold formatTime.
  replace (isSafeInteger ms) with true by (symmetry; apply isSafeInteger_spec; lia).
  reflexivity.
Qed.

Lemma whole_seconds_safe (ms : Z) :
  (0 <= ms < 2 ^ 53)%Z -> (0 <= ms / 1000 < 2 ^ 53)%Z.
Proof.
  intros H. split; [apply Z.div_pos; lia|].
  apply Z.le_lt_trans with ms; [|lia].
  apply Z.div_le_upper_bound; lia.
Qed.

Lemma formatTimeFromSec_inj (t t' : Z) :
  (0 <= t < 2 ^ 53)%Z -> (0 <= t' < 2 ^ 53)%Z ->
  formatTimeFromSec t = formatTimeFromSec t' -> t = t'.
Proof.
  intros Ht Ht' H.
  rewrite (formatTimeFromSec_safe t Ht), (formatTimeFromSec_safe t' Ht') in H.
  apply (f_equal (fun o => match o with Some x => x | None => ""%string end)) in H.
  cbv beta iota in H.
  assert (Hs : (0 <= Z.rem t 60 < 60)%Z) by (rewrite Z.rem_mod_nonneg by lia; apply Z.mod_pos_bound; lia).
  assert (Hs' : (0 <= Z.rem t' 60 < 60)%Z) by (rewrite Z.rem_mod_nonneg by lia; apply Z.mod_pos_bound; lia).
  assert (Hm : (0 <= t / 60)%Z) by (apply Z.div_pos; lia).
  assert (Hm' : (0 <= t' / 60)%Z) by (apply Z.div_pos; lia).
  pose proof (f_equal String.length H) as L.
  rewrite !length_append, (seconds_two_digits _ Hs), (seconds_two_digits _ Hs') in L.
  change (String.length ":"%string) with 1 in L.
  assert (L' : String.length (padStart2 (String_of (t / 60))) =
               String.length (padStart2 (String_of (t' / 60)))) by lia.
  destruct (append_inj _ _ _ _ L' H) as [HA HB].
  injection HB as HB.
  rewrite !String_of_nonneg in HA, HB by lia.
  apply padStart2_decimal_inj in HA, HB.
  assert (Em : (t / 60 = t' / 60)%Z) by lia.
  assert (Es : (Z.rem t 60 = Z.rem t' 60)%Z) by lia.
  rewrite !Z.rem_mod_nonneg in Es by lia.
  rewrite (Z.div_mod t 60), (Z.div_mod t' 60) by lia. now rewrite Em, Es.
Qed.

End TimeFacts.

(** ** Profiles and distances *)

Module ProfileFacts.
Import MotionCalibrator JSFacts JSMore.
Local Open Scope float_scope.

Lemma Math_min_cases (a b : float) :
  JS.number a -> JS.number b ->
  (JS.Math_min a b = a \/ JS.Math_min a b = b) /\
  (a <? JS.Math_min a b) = false /\ (b <? JS.Math_min a b) = false.
Proof.
  intros Ha Hb. unfold JS.Math_min, JS.number in *. rewrite Ha, Hb. simpl.
  destruct (a <? b) eqn:E1.
  - split; [now left|]. split; [apply ltb_irrefl|].
    destruct (b <? a) eqn:E2; [|reflexivity].
    pose proof (ltb_trans _ _ _ E1 E2) as C. now rewrite ltb_irrefl in C.
  - destruct (b <? a) eqn:E2.
    + split; [now right|]. split; [exact E1 | apply ltb_irrefl].
    + destruct (get_sign a).
      * split; [now left|]. split; [apply ltb_irrefl | exact E2].
      * split; [now right|]. split; [exact E1 | apply ltb_irrefl].
Qed.

Lemma Math_max_cases (a b : float) :
  JS.number a -> JS.number b ->
  (JS.Math_max a b = a \/ JS.Math_max a b = b) /\
  (JS.Math_max a b <? a) = false /\ (JS.Math_max a b <? b) = false.
Proof.
  intros Ha Hb. unfold JS.Math_max, JS.number in *. rewrite Ha, Hb. simpl.
  destruct (a <? b) eqn:E1.
  - split; [now right|]. split; [|apply ltb_irrefl].
    destruct (b <? a) eqn:E2; [|reflexivity].
    pose proof (ltb_trans _ _ _ E1 E2) as C. now rewrite ltb_irrefl in C.
  - destruct (b <? a) eqn:E2.
    + split; [now left|]. split; [apply ltb_irrefl | exact E1].
    + destruct (get_sign a).
      * split; [now right|]. split; [exact E2 | apply ltb_irrefl].
      * split; [now left|]. split; [apply ltb_irrefl | exact E1].
Qed.

(** Among numbers, not being below is kept by going further down. *)
Lemma not_below_trans (x m m' : float) :
  JS.number m -> JS.number m' ->
  (x <? m) = false -> (m <? m') = false -> (x <? m') = false.
Proof.
  intros Hm Hm' H1 H2. destruct (x <? m') eqn:E; [|reflexivity].
  pose proof (not_ltb_leb _ _ Hm Hm' H2) as L.
  pose proof (ltb_leb_trans _ _ _ E L) as C. congruence.
Qed.

Lemma not_above_trans (x m m' : float) :
  JS.number m -> JS.number m' ->
  (m <? x) = false -> (m' <? m) = false -> (m' <? x) = false.
Proof.
  intros Hm Hm' H1 H2. destruct (m' <? x) eqn:E; [|reflexivity].
  pose proof (not_ltb_leb _ _ Hm' Hm H2) as L.
  pose proof (leb_ltb_trans _ _ _ L E) as C. congruence.
Qed.

Lemma min_fold (xs : list float) (init : float) :
  JS.number init -> (forall x, In x xs -> JS.number x) ->
  let r := fold_left JS.Math_min xs init in
  JS.number r /\ (r = init \/ In r xs) /\ (init <? r) = false /\
  (forall x, In x xs -> (x <? r) = false).
Proof.
  revert init. induction xs as [|x0 xs IH]; intros init Hi Hx; simpl.
  - repeat split; auto. apply ltb_irrefl. intros x [].
  - assert (H0 : JS.number x0) by (apply Hx; now left).
    destruct (Math_min_cases init x0 Hi H0) as (Hc & Hl1 & Hl2).
    assert (Hn : JS.number (JS.Math_min init x0)) by (destruct Hc as [->| ->]; assumption).
    destruct (IH (JS.Math_min init x0) Hn (fun x H => Hx x (or_intror H)))
      as (Nr & Hin & Hlt & Hmin). simpl in *.
    set (r := fold_left JS.Math_min xs (JS.Math_min init x0)) in *.
    split; [exact Nr|]. split.
    { destruct Hin as [E|Hin]; [|auto]. rewrite E. destruct Hc as [->| ->]; auto. }
    split.
    { exact (not_below_trans _ _ _ Hn Nr Hl1 Hlt). }
    intros x [<-|Hin']; [|auto].
    exact (not_below_trans _ _ _ Hn Nr Hl2 Hlt).
Qed.

Lemma max_fold_list (xs : list float) (init : float) :
  JS.number init -> (forall x, In x xs -> JS.number x) ->
  let r := fold_left JS.Math_max xs init in
  JS.number r /\ (r = init \/ In r xs) /\ (r <? init) = false /\
  (forall x, In x xs -> (r <? x) = false).
Proof.
  revert init. induction xs as [|x0 xs IH]; intros init Hi Hx; simpl.
  - repeat split; auto. apply ltb_irrefl. intros x [].
  - assert (H0 : JS.number x0) by (apply Hx; now left).
    destruct (Math_max_cases init x0 Hi H0) as (Hc & Hl1 & Hl2).
    assert (Hn : JS.number (JS.Math_max init x0)) by (destruct Hc as [->| ->]; assumption).
    destruct (IH (JS.Math_max init x0) Hn (fun x H => Hx x (or_intror H)))
      as (Nr & Hin & Hlt & Hmax). simpl in *.
    set (r := fold_left JS.Math_max xs (JS.Math_max init x0)) in *.
    split; [exact Nr|]. split.
    { destruct Hin as [E|Hin]; [|auto]. rewrite E. destruct Hc as [->| ->]; auto. }
    split.
    { exact (not_above_trans _ _ _ Hn Nr Hl1 Hlt). }
    intros x [<-|Hin']; [|auto].
    exact (not_above_trans _ _ _ Hn Nr Hl2 Hlt).
Qed.

Lemma min_from_infinity (x : float) : JS.number x -> JS.Math_min infinity x = x.
Proof.
  intros H. unfold JS.Math_min, JS.number in *. rewrite H. simpl.
  rewrite infinity_not_below. destruct (x <? infinity); reflexivity.
Qed.

Lemma max_from_neg_infinity (x : float) : JS.number x -> JS.Math_max neg_infinity x = x.
Proof.
  intros H. unfold JS.Math_max, JS.number in *. rewrite H. simpl.
  rewrite not_below_neg_infinity. destruct (neg_infinity <? x); reflexivity.
Qed.

Lemma min_list_bounds (xs : list float) :
  xs <> [] -> (forall x, In x xs -> JS.number x) ->
  In (JS.Math_min_list xs) xs /\ forall x, In x xs -> (x <? JS.Math_min_list xs) = false.
Proof.
  intros Hne Hx. destruct xs as [|x0 xs]; [contradiction|].
  unfold JS.Math_min_list. simpl.
  assert (H0 : JS.number x0) by (apply Hx; now left).
  rewrite (min_from_infinity x0 H0).
  destruct (min_fold xs x0 H0 (fun x H => Hx x (or_intror H))) as (_ & Hin & Hlt & Hmin).
  simpl in *. split; [destruct Hin as [E|Hin]; [left; now rewrite E | now right]|].
  intros x [<-|H]; auto.
Qed.

Lemma max_list_bounds (xs : list float) :
  xs <> [] -> (forall x, In x xs -> JS.number x) ->
  In (JS.Math_max_list xs) xs /\ forall x, In x xs -> (JS.Math_max_list xs <? x) = false.
Proof.
  intros Hne Hx. destruct xs as [|x0 xs]; [contradiction|].
  unfold JS.Math_max_list. simpl.
  assert (H0 : JS.number x0) by (apply Hx; now left).
  rewrite (max_from_neg_infinity x0 H0).
  destruct (max_fold_list xs x0 H0 (fun x H => Hx x (or_intror H))) as (_ & Hin & Hlt & Hmax).
  simpl in *. split; [destruct Hin as [E|Hin]; [left; now rewrite E | now right]|].
  intros x [<-|H]; auto.
Qed.

Lemma stat_of_profile (ps : list Features.t) (profile : Profile.t) (key : FeatureKey) :
  computeProfile (Some ps) = Some profile -> stat profile key = Some (keyStat ps key).
Proof.
  destruct ps as [|p ps]; [discriminate|]. intros H. injection H as <-.
  destruct key; reflexivity.
Qed.

(** A distance is infinite when no feature of the profile has a spread. *)
Lemma distTo_spreadless (f : Features.t) (p : Profile.t) :
  (forall key st, stat p key = Some st -> (Stat.std st =? 0) = true) ->
  distTo f (Some p) = infinity.
Proof.
  intros H. unfold distTo.
  assert (G : forall ws acc,
    fold_left
      (fun (acc : float * float) (kw : FeatureKey * float) =>
         let '(sumWeightedZ, totalWeight) := acc in
         let '(key, w) := kw in
         match stat p key with
         | None => acc
         | Some st =>
           if Stat.std st =? 0 then acc
           else
             let z := JS.Math_abs (feature f key - Stat.mean st) / Stat.std st in
             (sumWeightedZ + z * w, totalWeight + w)
         end) ws acc = acc).
  { induction ws as [|[key w] ws IH]; intros [s t]; simpl; [reflexivity|].
    destruct (stat p key) as [st|] eqn:E; [|apply IH].
    rewrite (H key st E). apply IH. }
  rewrite G. reflexivity.
Qed.

Lemma eqb_zero_not_positive (x : float) : (x =? 0) = true -> (0 <? x) = false.
Proof.
  rewrite eqb_spec, ltb_spec. unfold SFeqb, SFltb.
  change (Prim2SF 0) with (S754_zero false).
  destruct (Prim2SF x) as [s|s| |s m e]; simpl; try discriminate; try reflexivity.
  - destruct s; discriminate.
  - destruct s; discriminate.
Qed.

End ProfileFacts.

(** ** From buffer slots to stream positions *)

Module ShiftFacts.
Import ShotDetector Gates JSFacts.
Local Open Scope float_scope.

Lemma get_skipn (S : list float) (off j : nat) :
  JS.get (skipn off S) j = JS.get S (off + j).
Proof.
  unfold JS.get. revert S. induction off as [|off IH]; intros S; [reflexivity|].
  destruct S as [|x S]; simpl; [now destruct j | apply IH].
Qed.

Lemma get_prev_skipn (S : list float) (off i : nat) :
  (1 <= i)%nat -> JS.get_prev (skipn off S) i = JS.get_prev S (off + i).
Proof.
  intros H. destruct i as [|k]; [lia|]. rewrite Nat.add_succ_r. simpl.
  apply get_skipn.
Qed.

Lemma baseline_skipn (S : list float) (off i : nat) :
  (100 <= i)%nat ->
  _baseline (skipn off S) (i - BASELINE_OFFSET) = _baseline S (off + i - BASELINE_OFFSET).
Proof.
  intros H. unfold _baseline, JS.slice, BASELINE_OFFSET, BASELINE_WINDOW. cbv zeta.
  rewrite skipn_skipn.
  replace (i - 20 - (i - 20 - 80))%nat with 80%nat by lia.
  replace (off + i - 20 - (off + i - 20 - 80))%nat with 80%nat by lia.
  replace (i - 20 - 80 + off)%nat with (off + i - 20 - 80)%nat by lia.
  reflexivity.
Qed.

Lemma seq_add (off a n : nat) : seq (off + a) n = map (Nat.add off) (seq a n).
Proof.
  revert a. induction n as [|n IH]; intros a; simpl; [reflexivity|].
  f_equal. rewrite <- IH. f_equal. lia.
Qed.

Lemma findDip_skipn (S : list float) (off a b : nat) :
  (off + findDip (skipn off S) a b = findDip S (off + a) (off + b))%nat.
Proof.
  unfold findDip.
  replace (off + b - (off + a))%nat with (b - a)%nat by lia.
  rewrite seq_add. generalize (seq a (b - a)). intros js. generalize a. clear a.
  induction js as [|j js IH]; intros cur; simpl; [reflexivity|].
  rewrite !get_skipn. destruct (_ <? _); apply IH.
Qed.

Lemma findRecovery_skipn (S : list float) (off a b : nat) :
  (off + findRecovery (skipn off S) a b = findRecovery S (off + a) (off + b))%nat.
Proof.
  unfold findRecovery.
  replace (off + b - (off + a))%nat with (b - a)%nat by lia.
  rewrite seq_add. generalize (seq a (b - a)). intros js. generalize a. clear a.
  induction js as [|j js IH]; intros cur; simpl; [reflexivity|].
  rewrite !get_skipn. destruct (_ <? _); apply IH.
Qed.

(** A candidate that passes the gates in a buffer passes them at its
    absolute index in the stream that the buffer is the tail of. *)
Lemma passed_skipn (S : list float) (off i : nat) (base : Baseline.t) (dipIdx recIdx : nat) :
  (off <= length S)%nat -> (100 <= i)%nat ->
  Passed (skipn off S) (length (skipn off S)) i base dipIdx recIdx ->
  Passed S (length S) (off + i) base (off + dipIdx) (off + recIdx).
Proof.
  intros Ho Hi HP. rewrite length_skipn in HP.
  assert (M : forall k, (Nat.min (length S) (off + k) = off + Nat.min (length S - off) k)%nat)
    by (intros; lia).
  pose proof (get_skipn S off i) as Gi.
  pose proof (get_skipn S off (i + 1)) as Gn.
  pose proof (get_skipn S off dipIdx) as Gd.
  pose proof (get_skipn S off recIdx) as Gr.
  replace (off + (i + 1))%nat with (off + i + 1)%nat in Gn by lia.
  constructor.
  - rewrite <- Gi, <- get_prev_skipn by lia. exact (passed_prev HP).
  - rewrite <- Gi, <- Gn. exact (passed_next HP).
  - rewrite <- baseline_skipn by assumption. exact (passed_base HP).
  - rewrite <- Gi. exact (passed_peak_sigma HP).
  - rewrite <- Gi. exact (passed_peak_abs HP).
  - replace (off + i + 1)%nat with (off + (i + 1))%nat by lia.
    replace (off + i + DIP_SEARCH_WINDOW)%nat with (off + (i + DIP_SEARCH_WINDOW))%nat by lia.
    rewrite M, <- findDip_skipn. f_equal. exact (passed_dipIdx HP).
  - rewrite <- Gd. exact (passed_dip_sigma HP).
  - rewrite <- Gd. exact (passed_dip_abs HP).
  - rewrite <- Gi, <- Gd. exact (passed_range HP).
  - pose proof (passed_rec_window HP). lia.
  - replace (off + dipIdx + 1)%nat with (off + (dipIdx + 1))%nat by lia.
    replace (off + dipIdx + RECOVERY_SEARCH_WINDOW)%nat
      with (off + (dipIdx + RECOVERY_SEARCH_WINDOW))%nat by lia.
    rewrite M, <- findRecovery_skipn. f_equal. exact (passed_recIdx HP).
  - rewrite <- Gr. exact (passed_rec_sigma HP).
  - rewrite <- Gr, <- Gd. exact (passed_rec_rise HP).
Qed.

End ShiftFacts.

Module LiveFacts.
Import ShotDetector Gates LiveStatements ShiftFacts.

Lemma reportedAt_more (xs : list Sample) (x : Sample) (sh : LiveShot.shot) (n : nat) :
  reportedAt xs sh n -> reportedAt (xs ++ [x]) sh n.
Proof.
  intros (Hr & Hn & (s & Hs & Ht) & base & dipIdx & recIdx & HP & Hm & Hd & Hv).
  assert (Hlen : (n - 1 < length xs)%nat) by (apply nth_error_Some; congruence).
  pose proof (passed_window_bounds := DetectorFacts.passed_window _ _ _ _ _ _ HP).
  pose proof (DetectorFacts.findDip_range (map aMag (firstn n xs)) _ _ passed_window_bounds) as Hdr.
  rewrite <- (passed_dipIdx HP) in Hdr.
  pose proof (DetectorFacts.findRecovery_range (map aMag (firstn n xs)) _ _
                (passed_rec_window HP)) as Hrr.
  rewrite <- (passed_recIdx HP) in Hrr.
  assert (G : forall k, (k < length xs)%nat ->
                JS.get (map aMag (xs ++ [x])) k = JS.get (map aMag xs) k).
  { intros k Hk. unfold JS.get. rewrite map_app. apply app_nth1. now rewrite length_map. }
  split; [exact Hr|]. split; [rewrite length_app; simpl; lia|].
  split.
  { exists s. split; [|exact Ht]. rewrite nth_error_app1 by assumption. exact Hs. }
  exists base, dipIdx, recIdx.
  split.
  { rewrite firstn_app. replace (n - length xs)%nat with 0%nat by lia.
    simpl. rewrite app_nil_r. exact HP. }
  rewrite !G by lia. auto.
Qed.

End LiveFacts.

(** ** The batch loop at one index *)

Module ScanFacts.
Import ShotDetector Gates Statements JSFacts HeavyMotion.
Local Open Scope float_scope.

(** A candidate that passes every test of the loop body is recorded. *)
Lemma detectStep_accepts (d : ShotDetector) (imuData : list Sample) (aMags : list float)
      (st : BatchState) (i : nat) (s : Sample) (base : Baseline.t) (dipIdx recIdx : nat) :
  Passed aMags (length aMags) i base dipIdx recIdx ->
  nth_error imuData i = Some s ->
  tooClose i (lastIdx st) = false ->
  timeGate (lastTime st) (sampleTimeOf s) ->
  consensusRejects (consensusOf d aMags i dipIdx recIdx) = false ->
  calibrationRejects (calibResultOf d imuData i dipIdx recIdx (Baseline.mean base)) = false ->
  detectStep d imuData aMags st i =
  {| shots := shots st ++ [batchShot d imuData aMags i s base dipIdx recIdx];
     lastIdx := At i;
     lastTime := sampleTimeOf s |}.
Proof.
  intros HP Hs Hc Ht Hk Hr.
  destruct HP as [passed_prev passed_next passed_base passed_peak_sigma passed_peak_abs
                  passed_dipIdx passed_dip_sigma passed_dip_abs passed_range
                  passed_rec_window passed_recIdx passed_rec_sigma passed_rec_rise].
  unfold detectStep. cbv zeta.
  rewrite passed_prev, passed_next. cbn [orb].
  rewrite passed_base, passed_peak_sigma, passed_peak_abs. cbn [orb].
  rewrite Hc, Hs.
  unfold timeGate, sampleTimeOf in Ht. rewrite Ht.
  rewrite <- passed_dipIdx, passed_dip_sigma, passed_dip_abs. cbn [orb].
  rewrite passed_range.
  apply Nat.leb_gt in passed_rec_window. rewrite passed_rec_window.
  rewrite <- passed_recIdx, passed_rec_sigma, passed_rec_rise. cbn [orb].
  rewrite Hk, Hr. reflexivity.
Qed.

(** The loop only appends, and what it appends over a list of indices
    carries one of them. *)
Lemma fold_appends (d : ShotDetector) (imuData : list Sample) (aMags : list float)
      (l : list nat) (st : BatchState) :
  exists extra,
    shots (fold_left (detectStep d imuData aMags) l st) = shots st ++ extra /\
    forall sh, In sh extra -> In (Shot.idx sh) l.
Proof.
  revert st. induction l as [|i l IH]; intros st; simpl.
  - exists []. split; [now rewrite app_nil_r | intros ? []].
  - destruct (IH (detectStep d imuData aMags st i)) as (extra & E & Hin).
    destruct (DetectorMore.detectStep_cases d imuData aMags st i)
      as [E1|(s & base & dipIdx & recIdx & _ & _ & _ & _ & _ & _ & E1)];
      rewrite E1 in E |- *.
    + exists extra. split; [exact E | intros sh H; right; auto].
    + cbn [shots] in E. rewrite <- app_assoc in E.
      eexists. split; [exact E|].
      intros sh [<-|H]; [left; reflexivity | right; auto].
Qed.

Lemma batchIndices_split (len i : nat) :
  In i (batchIndices len) ->
  batchIndices len =
  seq (BASELINE_WINDOW + BASELINE_OFFSET) (i - (BASELINE_WINDOW + BASELINE_OFFSET)) ++
  i :: seq (i + 1) (len - DIP_SEARCH_WINDOW - RECOVERY_SEARCH_WINDOW - (i + 1)).
Proof.
  unfold batchIndices. cbv zeta. intros H. apply in_seq in H.
  unfold BASELINE_WINDOW, BASELINE_OFFSET, DIP_SEARCH_WINDOW, RECOVERY_SEARCH_WINDOW in *.
  replace (len - 35 - 30 - (80 + 20))%nat
    with ((i - (80 + 20)) + S (len - 35 - 30 - (i + 1)))%nat by lia.
  rewrite seq_app. f_equal.
  replace (80 + 20 + (i - (80 + 20)))%nat with i by lia.
  simpl. do 2 f_equal. lia.
Qed.

(** A shot at [i] is in the result exactly when the iteration at [i],
    run in the state in which the loop reaches it, changes that state. *)
Lemma shot_at_iff (d : ShotDetector) (imuData : list Sample) (i : nat) :
  In i (batchIndices (length imuData)) ->
  ((exists sh, In sh (detectAll d imuData) /\ Shot.idx sh = i) <->
   detectStep d imuData (map aMag imuData) (reaching d imuData i) i <> reaching d imuData i).
Proof.
  intros Hi. unfold detectAll. cbv zeta. rewrite length_map.
  rewrite (batchIndices_split _ _ Hi), fold_left_app. cbn [fold_left].
  fold (reaching d imuData i). set (st := reaching d imuData i).
  destruct (fold_appends d imuData (map aMag imuData)
              (seq (BASELINE_WINDOW + BASELINE_OFFSET) (i - (BASELINE_WINDOW + BASELINE_OFFSET)))
              {| shots := []; lastIdx := NegInfinity; lastTime := 0 |})
    as (before & Eb & Hb).
  fold (reaching d imuData i) in Eb. fold st in Eb. cbn [shots app] in Eb.
  destruct (fold_appends d imuData (map aMag imuData)
              (seq (i + 1) (length imuData - DIP_SEARCH_WINDOW - RECOVERY_SEARCH_WINDOW - (i + 1)))
              (detectStep d imuData (map aMag imuData) st i))
    as (after & Ea & Ha).
  rewrite Ea.
  assert (Nb : forall sh, In sh (shots st) -> Shot.idx sh <> i).
  { intros sh H. rewrite Eb in H. apply Hb, in_seq in H. lia. }
  assert (Na : forall sh, In sh after -> Shot.idx sh <> i).
  { intros sh H. apply Ha, in_seq in H. lia. }
  destruct (DetectorMore.detectStep_cases d imuData (map aMag imuData) st i)
    as [E|(s & base & dipIdx & recIdx & _ & _ & _ & _ & _ & _ & E)]; rewrite E.
  - split; [|intros C; now elim C].
    intros (sh & Hin & Hidx). apply in_app_or in Hin.
    destruct Hin as [Hin|Hin]; [elim (Nb sh Hin Hidx) | elim (Na sh Hin Hidx)].
  - split.
    + intros _ C. apply (f_equal (fun s => length (shots s))) in C.
      cbn [shots] in C. rewrite length_app in C. simpl in C. lia.
    + intros _. eexists. split.
      * cbn [shots]. apply in_or_app. left. apply in_or_app. right. left. reflexivity.
      * reflexivity.
Qed.

(** Inside the scan range the recovery window is never empty. *)
Lemma recovery_window (aMags : list float) (i : nat) :
  In i (batchIndices (length aMags)) ->
  let dipIdx := findDip aMags (i + 1) (Nat.min (length aMags) (i + DIP_SEARCH_WINDOW)) in
  (dipIdx + 1 < Nat.min (length aMags) (dipIdx + RECOVERY_SEARCH_WINDOW))%nat.
Proof.
  intros Hi dipIdx. unfold batchIndices in Hi. cbv zeta in Hi. apply in_seq in Hi.
  unfold BASELINE_WINDOW, BASELINE_OFFSET, DIP_SEARCH_WINDOW, RECOVERY_SEARCH_WINDOW in *.
  pose proof (DetectorFacts.findDip_range aMags (i + 1) (Nat.min (length aMags) (i + 35))
                ltac:(lia)) as H.
  fold dipIdx in H. lia.
Qed.

(** With the peak gate passed, a shot is recorded at [i] exactly when
    the rest of the loop body passes. *)
Lemma shot_at_rest (d : ShotDetector) (imuData : list Sample) (i : nat) (base : Baseline.t) :
  let aMags := map aMag imuData in
  In i (batchIndices (length aMags)) ->
  _baseline aMags (i - BASELINE_OFFSET) = Some base ->
  (JS.get aMags i <?
   Baseline.mean base + PEAK_SIGMA * JS.Math_min (Baseline.std base) MAX_EFFECTIVE_STD) = false ->
  (JS.get aMags i <? MIN_PEAK_ABS) = false ->
  ((exists sh, In sh (detectAll d imuData) /\ Shot.idx sh = i) <-> restOfBody d imuData i base).
Proof.
  intros aMags Hi Hb Hp1 Hp2.
  assert (Hi' : In i (batchIndices (length imuData)))
    by (unfold aMags in Hi; now rewrite length_map in Hi).
  rewrite (shot_at_iff d imuData i Hi'). fold aMags.
  set (st := reaching d imuData i).
  split.
  - intros Hne.
    destruct (DetectorMore.detectStep_cases d imuData aMags st i)
      as [E|(s & base' & dipIdx & recIdx & HP & Hs & Hc & Ht & Hk & Hr & _)];
      [contradiction|].
    destruct HP as [passed_prev passed_next passed_base passed_peak_sigma passed_peak_abs
                    passed_dipIdx passed_dip_sigma passed_dip_abs passed_range
                    passed_rec_window passed_recIdx passed_rec_sigma passed_rec_rise].
    assert (base' = base) by congruence. subst base'.
    unfold restOfBody. cbv zeta. fold aMags. fold st.
    change 35%nat with DIP_SEARCH_WINDOW. change 30%nat with RECOVERY_SEARCH_WINDOW.
    rewrite <- passed_dipIdx, <- passed_recIdx.
    split; [split; assumption|]. split; [exact Hc|].
    split; [exists s; split; assumption|].
    split; [exact passed_dip_sigma|]. split; [exact passed_dip_abs|].
    split; [exact passed_range|]. split; [exact passed_rec_sigma|].
    split; [exact passed_rec_rise|]. split; assumption.
  - unfold restOfBody. cbv zeta. fold aMags. fold st.
    intros ((Hl1 & Hl2) & Hc & (s & Hs & Ht) & Hd1 & Hd2 & Hr & Hr1 & Hr2 & Hk & Hcal).
    erewrite detectStep_accepts; try eassumption.
    + intros C. apply (f_equal (fun s => length (shots s))) in C.
      cbn [shots] in C. rewrite length_app in C. simpl in C. lia.
    + constructor; try assumption; try reflexivity.
      apply (recovery_window aMags i Hi).
Qed.

End ScanFacts.

(** ** Profiles on an engine with an argument limit *)

Module EngineFacts.
Import MotionCalibrator JSFacts.

Lemma spreads_repeat (maxArguments : nat) (f : Features.t) (n : nat) (key : FeatureKey) :
  JS.number (feature f key) ->
  Engine.spreads maxArguments (repeat f n) key = (n <=? maxArguments)%nat.
Proof.
  intros Hv. unfold Engine.spreads. cbv zeta. rewrite map_repeat.
  rewrite CalibratorFacts.filter_repeat_true by (unfold JS.number in Hv; now rewrite Hv).
  now rewrite repeat_length.
Qed.

Lemma spreads_within (maxArguments : nat) (ps : list Features.t) (key : FeatureKey) :
  (length ps <= maxArguments)%nat -> Engine.spreads maxArguments ps key = true.
Proof.
  intros H. unfold Engine.spreads. cbv zeta. apply Nat.leb_le.
  etransitivity; [apply filter_length_le|]. now rewrite length_map.
Qed.

Lemma computeProfile_within (maxArguments : nat) (ps : list Features.t) :
  (length ps <= maxArguments)%nat ->
  Engine.computeProfile maxArguments (Some ps) =
  Engine.Returns (MotionCalibrator.computeProfile (Some ps)).
Proof.
  intros H. unfold Engine.computeProfile.
  assert (E : forallb (Engine.spreads maxArguments ps) featureKeys = true)
    by (apply forallb_forall; intros key _; now apply spreads_within).
  now rewrite E.
Qed.

Lemma computeProfile_beyond (maxArguments : nat) (f : Features.t) (n : nat)
      (key : FeatureKey) :
  JS.number (feature f key) -> (maxArguments < n)%nat ->
  Engine.computeProfile maxArguments (Some (repeat f n)) = Engine.RangeError.
Proof.
  intros Hv Hn. unfold Engine.computeProfile.
  assert (E : forallb (Engine.spreads maxArguments (repeat f n)) featureKeys = false).
  { apply not_true_is_false. intros C. rewrite forallb_forall in C.
    specialize (C key ltac:(destruct key; simpl; tauto)).
    rewrite (spreads_repeat _ _ _ _ Hv) in C. apply Nat.leb_le in C. lia. }
  now rewrite E.
Qed.

End EngineFacts.

(** * The claims *)

Import ShotDetector Gates Recordings.

(** ** The dip gate *)

(** C1.  In batch mode ([detectAll]) and in live mode ([_checkCandidate])
    a candidate peak yields a shot only if the smallest magnitude found in
    the search window after the peak (indices [i+1 .. i+34], within 35
    samples of the peak) is at most [mean - 1.5 * std] for the unclamped
    baseline [std] and at most 6, and the peak-to-dip range is at least
    [max(8, effStd * 5.0)] for the clamped [effStd]; a candidate for which
    one of these fails records no shot. *)
Theorem C1_dip_gate :
  (forall (d : ShotDetector) (imuData : list Sample) (sh : Shot.shot),
      In sh (detectAll d imuData) ->
      dipGate (map aMag imuData) (length imuData)
              (Shot.idx sh) (Shot.mag sh) (Shot.dipMag sh) (Shot.range sh))
  /\
  (forall (d d' : ShotDetector) (aMags : list float) (i len : nat) (currentTime : float)
          (buffer : IMUBuffer.IMUBuffer Sample) (sh : LiveShot.shot),
      _checkCandidate d aMags i len currentTime buffer = (Some sh, d') ->
      LiveShot.bufferIdx sh = i /\
      dipGate aMags len i (LiveShot.mag sh) (LiveShot.dipMag sh) (LiveShot.range sh)).
Proof.
  split.
  - intros d imuData sh Hin.
    destruct (Gates.batch_shots (DetectorFacts.detectAll_inv d imuData) sh Hin)
      as (s & base & dipIdx & recIdx & HP & _ & E).
    rewrite length_map in HP.
    rewrite E. cbn [batchShot Shot.idx Shot.mag Shot.dipMag Shot.range].
    exact (DetectorFacts.passed_dipGate _ _ _ _ _ _ HP).
  - intros d d' aMags i len currentTime buffer sh H.
    destruct (DetectorFacts.checkCandidate_inv d aMags i len currentTime buffer)
      as [E|(base & dipIdx & recIdx & HP & _ & _ & _ & _ & E)];
      rewrite E in H; [discriminate|].
    inversion H; subst.
    cbn [liveShot LiveShot.bufferIdx LiveShot.mag LiveShot.dipMag LiveShot.range].
    split; [reflexivity | exact (DetectorFacts.passed_dipGate _ _ _ _ _ _ HP)].
Qed.

Lemma detectAll_oneShot :
  detectAll new oneShot =
  [ {| Shot.idx := 100; Shot.mag := 20; Shot.dipMag := 2; Shot.recoveryMag := 15;
       Shot.range := 18; Shot.t := 2000; Shot.tRel := 1000;
       Shot.consensus := None; Shot.calibResult := None |} ].
Proof. vm_compute. reflexivity. Qed.

(** The shot of [oneShot], found in batch mode, satisfies the dip gate. *)
Lemma C1_dip_gate_witness :
  dipGate (map aMag oneShot) (length oneShot) 100 20 2 18.
Proof.
  apply (proj1 C1_dip_gate new oneShot
               {| Shot.idx := 100; Shot.mag := 20; Shot.dipMag := 2;
                  Shot.recoveryMag := 15; Shot.range := 18; Shot.t := 2000;
                  Shot.tRel := 1000; Shot.consensus := None;
                  Shot.calibResult := None |}).
  rewrite detectAll_oneShot. left. reflexivity.
Defined.

(** The earlier core.js has the same gate with its own bounds, 8 for the
    dip and 6 for the range: it records the shot of [shallowDip], whose dip
    is 7, which the later file rejects. *)
Lemma legacy_dip_bound :
  map LegacyCore.Shot.dipMag (LegacyCore.detectAll shallowDip) = [7%float] /\
  detectAll new shallowDip = [].
Proof. split; vm_compute; reflexivity. Qed.

(** ** The minimum separation *)

(** C2.  Any two shots returned by one run of [detectAll] have peak
    indices at least 60 samples apart, whatever lies between them; in
    live mode the same holds of the absolute indices of the shots returned
    by successive calls, and of each of them against the detector's
    [lastShotIdx] at the start. *)
Theorem C2_minimum_separation :
  (forall (d : ShotDetector) (imuData : list Sample),
      separated (map Shot.idx (detectAll d imuData)))
  /\
  (forall (d : ShotDetector) (calls : list (IMUBuffer.IMUBuffer Sample * float)),
      separated (map LiveShot.idx (fst (run d calls))) /\
      (forall l sh, lastShotIdx d = At l -> In sh (fst (run d calls)) ->
                    apart l (LiveShot.idx sh))).
Proof.
  split.
  - intros d imuData. exact (Gates.batch_separated (DetectorFacts.detectAll_inv d imuData)).
  - intros d calls. apply DetectorFacts.run_separated.
Qed.

(** The two shots of [twoShots] are those at 100 and 250. *)
Lemma C2_minimum_separation_witness :
  map Shot.idx (detectAll new twoShots) = [100; 250] /\ apart 100 250.
Proof.
  assert (E : map Shot.idx (detectAll new twoShots) = [100; 250])
    by (vm_compute; reflexivity).
  split; [exact E|].
  apply (proj1 C2_minimum_separation new twoShots 0 1); [lia | |]; rewrite E; reflexivity.
Defined.

(** ** The local maximum *)

(** C3, as the specification states it, fails: [flatPeak] yields a shot
    at sample 100 although sample 101 is as large, so [aMag[i] > aMag[i+1]]
    does not hold there. *)
Lemma C3_spec_local_max_counterexample :
  ~ (forall (d : ShotDetector) (imuData : list Sample) (sh : Shot.shot),
        In sh (detectAll d imuData) ->
        specLocalMax (map aMag imuData) (Shot.idx sh)).
Proof.
  intros H.
  assert (E : In {| Shot.idx := 100; Shot.mag := 20; Shot.dipMag := 2;
                    Shot.recoveryMag := 15; Shot.range := 18; Shot.t := 2000;
                    Shot.tRel := 1000; Shot.consensus := None;
                    Shot.calibResult := None |} (detectAll new flatPeak))
    by (vm_compute; left; reflexivity).
  destruct (H _ _ _ E) as [H1 _]. vm_compute in H1. discriminate.
Qed.

(** C3, amended.  In batch and in live mode a candidate at [i] is
    rejected unless neither [aMag[i] <= aMag[i-1]] nor [aMag[i] < aMag[i+1]]
    holds: among numbers, unless [aMag[i] > aMag[i-1]] (strictly greater
    than the previous sample) and [aMag[i] >= aMag[i+1]] (at least the next
    sample). *)
Theorem C3_local_max_as_coded :
  (forall (d : ShotDetector) (imuData : list Sample) (sh : Shot.shot),
      In sh (detectAll d imuData) ->
      let aMags := map aMag imuData in
      let i := Shot.idx sh in
      codeLocalMax aMags i /\
      (JS.number (JS.get aMags i) -> JS.number (JS.get_prev aMags i) ->
       (JS.get_prev aMags i <? JS.get aMags i)%float = true) /\
      (JS.number (JS.get aMags i) -> JS.number (JS.get aMags (i + 1)) ->
       (JS.get aMags (i + 1) <=? JS.get aMags i)%float = true))
  /\
  (forall (d d' : ShotDetector) (aMags : list float) (i len : nat) (currentTime : float)
          (buffer : IMUBuffer.IMUBuffer Sample) (sh : LiveShot.shot),
      _checkCandidate d aMags i len currentTime buffer = (Some sh, d') ->
      codeLocalMax aMags i /\
      (JS.number (JS.get aMags i) -> JS.number (JS.get_prev aMags i) ->
       (JS.get_prev aMags i <? JS.get aMags i)%float = true) /\
      (JS.number (JS.get aMags i) -> JS.number (JS.get aMags (i + 1)) ->
       (JS.get aMags (i + 1) <=? JS.get aMags i)%float = true)).
Proof.
  assert (G : forall aMags len i base dipIdx recIdx,
             Passed aMags len i base dipIdx recIdx ->
             codeLocalMax aMags i /\
             (JS.number (JS.get aMags i) -> JS.number (JS.get_prev aMags i) ->
              (JS.get_prev aMags i <? JS.get aMags i)%float = true) /\
             (JS.number (JS.get aMags i) -> JS.number (JS.get aMags (i + 1)) ->
              (JS.get aMags (i + 1) <=? JS.get aMags i)%float = true)).
  { intros aMags len i base dipIdx recIdx HP.
    pose proof (passed_prev HP) as H1. pose proof (passed_next HP) as H2.
    split; [split; assumption|]. split; intros Ha Hb.
    - now apply JSFacts.not_leb_ltb.
    - now apply JSFacts.not_ltb_leb. }
  split.
  - intros d imuData sh Hin.
    destruct (Gates.batch_shots (DetectorFacts.detectAll_inv d imuData) sh Hin)
      as (s & base & dipIdx & recIdx & HP & _ & _).
    exact (G _ _ _ _ _ _ HP).
  - intros d d' aMags i len currentTime buffer sh H.
    destruct (DetectorFacts.checkCandidate_inv d aMags i len currentTime buffer)
      as [E|(base & dipIdx & recIdx & HP & _)]; [rewrite E in H; discriminate|].
    exact (G _ _ _ _ _ _ HP).
Qed.

(** The shot of [flatPeak]: sample 100 exceeds sample 99 and equals
    sample 101. *)
Lemma C3_local_max_as_coded_witness :
  codeLocalMax (map aMag flatPeak) 100.
Proof.
  apply (proj1 C3_local_max_as_coded new flatPeak
               {| Shot.idx := 100; Shot.mag := 20; Shot.dipMag := 2;
                  Shot.recoveryMag := 15; Shot.range := 18; Shot.t := 2000;
                  Shot.tRel := 1000; Shot.consensus := None;
                  Shot.calibResult := None |}).
  vm_compute. left. reflexivity.
Defined.

(** ** Live calls that return null *)

(** C10.  A call to [processSample] that returns [null] leaves the
    detector, and so [lastShotTime] and [lastShotIdx], as they were; a call
    that returns a shot sets them to the call's time and the shot's
    absolute index. *)
Theorem C10_null_leaves_detector_state :
  forall (d d' : ShotDetector) (buffer : IMUBuffer.IMUBuffer Sample) (currentTime : float),
    (processSample d buffer currentTime = (None, d') ->
     lastShotTime d' = lastShotTime d /\ lastShotIdx d' = lastShotIdx d) /\
    (forall sh, processSample d buffer currentTime = (Some sh, d') ->
     lastShotTime d' = currentTime /\ lastShotIdx d' = At (LiveShot.idx sh)).
Proof.
  intros d d' buffer currentTime.
  destruct (DetectorFacts.processSample_inv d buffer currentTime)
    as [E|(i & base & dipIdx & recIdx & _ & _ & _ & E)]; rewrite E; split.
  - intros H. inversion H; subst. split; reflexivity.
  - intros sh H. discriminate.
  - intros H. discriminate.
  - intros sh H. inversion H; subst. split; reflexivity.
Qed.

(** A full buffer in which every scanned index fails a gate: the
    detector keeps the time and index of the shot it accepted before. *)
Lemma C10_null_leaves_detector_state_witness :
  lastShotTime (snd (processSample afterShot (bufferOf oneShot) 5000)) = 4000%float /\
  lastShotIdx (snd (processSample afterShot (bufferOf oneShot) 5000)) = At 40.
Proof.
  apply (proj1 (C10_null_leaves_detector_state
                  afterShot (snd (processSample afterShot (bufferOf oneShot) 5000))
                  (bufferOf oneShot) 5000%float)).
  vm_compute. reflexivity.
Defined.

(** ** Absolute indices of the buffer *)

(** C9.  Push the samples [xs] in order into a fresh buffer, each
    labelled with its push ordinal, compacting whenever [push] does.  At
    every moment of the run a sample still in the buffer has the absolute
    index of the slot it filled when it was pushed; no absolute index ever
    names two samples; the indices given to successive pushes strictly
    increase; and, for a positive [shiftSize], the buffer holds at most
    [maxSize] samples after every push. *)
Theorem C9_absolute_indices :
  forall (A : Type) (maxSize shiftSize : nat) (xs : list A),
    let buf := BufferRun.after maxSize shiftSize xs in
    let assigned := BufferRun.assigned maxSize shiftSize xs in
    (forall k, assigned k = IMUBuffer.absIndex (buf k) (IMUBuffer.length (buf k))) /\
    (forall n i k x, n <= length xs -> IMUBuffer.get (buf n) i = Some (k, x) ->
       nth_error xs k = Some x /\ k < n /\ IMUBuffer.absIndex (buf n) i = assigned k) /\
    (forall n n' i i' s s', n <= length xs -> n' <= length xs ->
       IMUBuffer.get (buf n) i = Some s -> IMUBuffer.get (buf n') i' = Some s' ->
       IMUBuffer.absIndex (buf n) i = IMUBuffer.absIndex (buf n') i' -> s = s') /\
    (forall j k, j < k -> k < length xs -> assigned j < assigned k) /\
    (0 < shiftSize -> forall n, IMUBuffer.length (buf n) <= maxSize).
Proof.
  intros A maxSize shiftSize xs. cbv zeta.
  split; [reflexivity|].
  split; [intros n i k x; apply BufferFacts.slot_label|].
  split; [intros n n' i i' s s'; apply BufferFacts.slot_unique|].
  split.
  - intros j k Hjk Hk. apply BufferFacts.assigned_increasing; lia.
  - intros Hs n. now apply BufferFacts.length_bounded.
Qed.

(** The default buffer (3000, 1000) after 3001 pushes has compacted once
    and holds 2001 samples. *)
Lemma C9_absolute_indices_witness :
  0 < 1000 /\
  IMUBuffer.length (BufferRun.after 3000 1000 (repeat tt 3001) 3001) <= 3000.
Proof.
  split; [lia|].
  destruct (C9_absolute_indices unit 3000 1000 (repeat tt 3001)) as (_ & _ & _ & _ & H).
  apply H. lia.
Defined.

(** ** The consensus quorum *)



(** ** Calibration fails open *)

(** C6.  For every feature vector, [classify] with no calibration
    ([null]), with a calibration that has no [profiles] ([{}]), and with a
    calibration whose shooting profile is [null] returns [isShot = true]. *)
Theorem C6_classify_fails_open :
  forall (features : MotionCalibrator.Features.t),
    MotionCalibrator.isShot (MotionCalibrator.classify features None) = true /\
    MotionCalibrator.isShot
      (MotionCalibrator.classify features
         (Some {| MotionCalibrator.profiles := None |})) = true /\
    (forall walking running dribbling,
        MotionCalibrator.isShot
          (MotionCalibrator.classify features
             (Some {| MotionCalibrator.profiles :=
                        Some {| MotionCalibrator.Profiles.walking := walking;
                                MotionCalibrator.Profiles.running := running;
                                MotionCalibrator.Profiles.dribbling := dribbling;
                                MotionCalibrator.Profiles.shooting := None |} |})) = true).
Proof. intros features. repeat split. Qed.


(** ** The movement detector *)

(** C8.  [processSample] appends the magnitude to the window and keeps
    the last 20 values.  Until 20 samples have been received it returns the
    prior moving state and leaves state, intensity and transition time as
    they were.  Once the window is full it sets the intensity to
    [clamp((std - 0.3) / 1.5, 0, 1)] for the standard deviation [std] of the
    window; it is moving as soon as [std] exceeds 0.8; and it goes back to
    stationary only when [std] does not exceed 0.8 and more than 800 ms have
    passed since [lastTransitionTime], which, while the detector is moving,
    is the time of the latest call whose [std] exceeded 0.8 (the switch to
    moving being one). *)
Theorem C8_movement_detector :
  forall (d : MovementDetector.MovementDetector) (aMag t : float),
    let w := MovementDetector.pushed (MovementDetector.window d) aMag in
    let d' := fst (MovementDetector.processSample d aMag t) in
    let r := snd (MovementDetector.processSample d aMag t) in
    let std := MovementDetector.windowStd w in
    MovementDetector.window d' = w /\
    r = MovementDetector.isMoving d' /\
    (length (MovementDetector.window d) <= 20 ->
     length w <= 20 /\
     w = skipn (length (MovementDetector.window d) + 1 - 20)
               (MovementDetector.window d ++ [aMag])) /\
    (length w < 20 ->
     r = MovementDetector.isMoving d /\
     MovementDetector.isMoving d' = MovementDetector.isMoving d /\
     MovementDetector.intensity d' = MovementDetector.intensity d /\
     MovementDetector.lastTransitionTime d' = MovementDetector.lastTransitionTime d) /\
    (20 <= length w ->
     MovementDetector.intensity d' = Movement.clamp ((std - 0.3) / 1.5)%float 0 1 /\
     ((0.8 <? std)%float = true ->
      MovementDetector.isMoving d' = true /\
      MovementDetector.lastTransitionTime d' = t) /\
     (MovementDetector.isMoving d = true -> MovementDetector.isMoving d' = false ->
      (0.8 <? std)%float = false /\
      (800 <? t - MovementDetector.lastTransitionTime d)%float = true /\
      MovementDetector.lastTransitionTime d' = t) /\
     (MovementDetector.isMoving d = true -> MovementDetector.isMoving d' = true ->
      (0.8 <? std)%float = false ->
      (800 <? t - MovementDetector.lastTransitionTime d)%float = false /\
      MovementDetector.lastTransitionTime d' = MovementDetector.lastTransitionTime d)).
Proof.
  intros d aMag t. cbv zeta.
  split; [|split; [|split; [|split]]].
  - unfold MovementDetector.processSample.
    repeat match goal with |- context [if ?c then _ else _] => destruct c end; reflexivity.
  - unfold MovementDetector.processSample.
    repeat match goal with |- context [if ?c then _ else _] => destruct c end; reflexivity.
  - apply MovementFacts.pushed_length.
  - intros H. unfold MovementDetector.processSample.
    replace (length (MovementDetector.pushed (MovementDetector.window d) aMag)
             <? MovementDetector.MOVEMENT_WINDOW) with true
      by (symmetry; apply Nat.ltb_lt; exact H).
    repeat split.
  - intros H. unfold MovementDetector.processSample.
    replace (length (MovementDetector.pushed (MovementDetector.window d) aMag)
             <? MovementDetector.MOVEMENT_WINDOW) with false
      by (symmetry; apply Nat.ltb_ge; exact H).
    cbv zeta. fold (Movement.clamp
      ((MovementDetector.windowStd
          (MovementDetector.pushed (MovementDetector.window d) aMag) - 0.3) / 1.5)%float 0 1).
    unfold MovementDetector.MOVEMENT_THRESHOLD, MovementDetector.MOVEMENT_HYSTERESIS_MS.
    destruct (0.8 <? MovementDetector.windowStd _)%float eqn:E1;
      destruct (MovementDetector.isMoving d) eqn:E2; cbn [negb Bool.eqb fst snd];
      try (destruct (800 <? t - MovementDetector.lastTransitionTime d)%float eqn:E3);
      cbn [fst snd MovementDetector.isMoving MovementDetector.intensity
           MovementDetector.lastTransitionTime];
      repeat split; try reflexivity; try assumption; intros; try discriminate; try congruence.
Qed.

(** The detector [settling] is moving and its window was last above the
    threshold at 1800 ms; a still sample at 2700 ms, more than 800 ms
    later, makes it stationary. *)
Lemma C8_movement_detector_witness :
  (0.8 <? MovementDetector.windowStd
            (MovementDetector.pushed (MovementDetector.window settling) 10))%float = false /\
  (800 <? 2700 - MovementDetector.lastTransitionTime settling)%float = true /\
  MovementDetector.lastTransitionTime
    (fst (MovementDetector.processSample settling 10 2700)) = 2700%float.
Proof.
  destruct (C8_movement_detector settling 10 2700) as (_ & _ & _ & _ & H).
  destruct (H ltac:(vm_compute; lia)) as (_ & _ & H' & _).
  apply H'; vm_compute; reflexivity.
Defined.

(** ** Profiles *)

(** C7, as the specification states it, fails on doubles: ten feature
    vectors whose features are all 0.1 sum to 0.9999999999999999, so their
    mean is 0.09999999999999999, not 0.1 (and their standard deviation is
    about 1.4e-17, not 0). *)
Lemma C7_identical_profile_counterexample : ~ Scenarios.identicalProfileExact.
Proof.
  intros H.
  destruct (H (uniform 0.1) 10 ltac:(lia)) as (p & Hp & _ & Hk).
  destruct (Hk MotionCalibrator.peakMag) as (st & Hst & _ & Hmean & _).
  vm_compute in Hp. inversion Hp; subst p. clear Hp.
  cbn in Hst. inversion Hst; subst st. clear Hst.
  cbn in Hmean.
  assert (C : (0.099999999999999992 =? 0.1)%float = true) by (rewrite Hmean; reflexivity).
  vm_compute in C. discriminate.
Qed.

(** C7, amended.  [computeProfile] returns [null] for a missing or empty
    pattern list.  Take [n >= 1] identical feature vectors and an engine that
    accepts [maxArguments] arguments in a call.  When [n] exceeds
    [maxArguments] and some feature is a number, the call ends with the
    [RangeError] of [Math.min(...vals)].  When [n] is at most [maxArguments],
    it returns a profile with [count = n] in which every feature whose
    shared value is a number has [min] and [max] equal to that value, and
    [mean] and [std] equal to the mean and the standard deviation of [n]
    copies of it as double arithmetic computes them; when the shared value is
    finite, [n < 2^53] and that mean is the shared value itself, the [std] is
    0.  A feature that is NaN in every vector gets the all-zero statistic. *)
Theorem C7_identical_profile_as_computed :
  forall maxArguments : nat,
    Engine.computeProfile maxArguments None = Engine.Returns None /\
    Engine.computeProfile maxArguments (Some []) = Engine.Returns None /\
    forall (f : MotionCalibrator.Features.t) (n : nat), 0 < n ->
      (maxArguments < n ->
       (exists key, JS.number (MotionCalibrator.feature f key)) ->
       Engine.computeProfile maxArguments (Some (repeat f n)) = Engine.RangeError) /\
      (n <= maxArguments ->
       exists p,
         Engine.computeProfile maxArguments (Some (repeat f n)) = Engine.Returns (Some p) /\
         MotionCalibrator.Profile.count p = n /\
         (forall key, is_nan (MotionCalibrator.feature f key) = true ->
            MotionCalibrator.stat p key =
            Some {| MotionCalibrator.Stat.mean := 0; MotionCalibrator.Stat.std := 0;
                    MotionCalibrator.Stat.min := 0; MotionCalibrator.Stat.max := 0 |}) /\
         forall key, JS.number (MotionCalibrator.feature f key) ->
           exists st, MotionCalibrator.stat p key = Some st /\
             MotionCalibrator.Stat.min st = MotionCalibrator.feature f key /\
             MotionCalibrator.Stat.max st = MotionCalibrator.feature f key /\
             MotionCalibrator.Stat.mean st =
               JS.mean (repeat (MotionCalibrator.feature f key) n) /\
             MotionCalibrator.Stat.std st =
               JS.std (repeat (MotionCalibrator.feature f key) n)
                      (MotionCalibrator.Stat.mean st) /\
             (is_finite (MotionCalibrator.feature f key) = true ->
              (Z.of_nat n < 2 ^ 53)%Z ->
              MotionCalibrator.Stat.mean st = MotionCalibrator.feature f key ->
              MotionCalibrator.Stat.std st = 0%float)).
Proof.
  intros maxArguments.
  split; [reflexivity|]. split; [reflexivity|].
  intros f n Hn. split.
  - intros Hb (key & Hv). exact (EngineFacts.computeProfile_beyond _ f n key Hv Hb).
  - intros Hb. destruct n as [|n]; [lia|].
    destruct (CalibratorFacts.stat_computeProfile f n MotionCalibrator.peakMag)
      as (p & Hp & Hc & Hs).
    exists p. split.
    { rewrite EngineFacts.computeProfile_within by (now rewrite repeat_length).
      now rewrite Hp. }
    split; [exact Hc|].
    split; [intros key Hv; rewrite Hs; f_equal;
            now apply CalibratorFacts.keyStat_repeat_nan|].
    intros key Hv. eexists. split; [apply Hs|].
    rewrite (CalibratorFacts.keyStat_repeat f (S n) key Hv Hn).
    cbn [MotionCalibrator.Stat.min MotionCalibrator.Stat.max MotionCalibrator.Stat.mean
         MotionCalibrator.Stat.std].
    split; [apply JSFacts.Math_min_list_repeat; assumption|].
    split; [apply JSFacts.Math_max_list_repeat; assumption|].
    split; [reflexivity|]. split; [reflexivity|].
    intros Hf Hb' Hm. rewrite Hm. now apply CalibratorFacts.std_repeat_exact.
Qed.

(** Ten feature vectors whose features are all 20, on an engine that
    accepts a thousand arguments: the mean is 20 and the standard deviation
    0. *)
Lemma C7_identical_profile_as_computed_witness :
  exists p,
    Engine.computeProfile 1000 (Some (repeat (uniform 20) 10)) = Engine.Returns (Some p) /\
    MotionCalibrator.Profile.count p = 10 /\
    exists st, MotionCalibrator.stat p MotionCalibrator.dipMag = Some st /\
      MotionCalibrator.Stat.min st = 20%float /\ MotionCalibrator.Stat.max st = 20%float /\
      MotionCalibrator.Stat.mean st = 20%float /\ MotionCalibrator.Stat.std st = 0%float.
Proof.
  destruct (C7_identical_profile_as_computed 1000) as (_ & _ & H).
  destruct (H (uniform 20) 10 ltac:(lia)) as (_ & H').
  destruct (H' ltac:(lia)) as (p & Hp & Hc & _ & Hk).
  exists p. split; [exact Hp|]. split; [exact Hc|].
  destruct (Hk MotionCalibrator.dipMag eq_refl) as (st & Hst & Hmin & Hmax & Hmean & _ & Hstd).
  exists st. split; [exact Hst|]. split; [exact Hmin|]. split; [exact Hmax|].
  assert (Hm : MotionCalibrator.Stat.mean st = 20%float)
    by (rewrite Hmean; vm_compute; reflexivity).
  split; [exact Hm|]. apply Hstd; [reflexivity | vm_compute; reflexivity | exact Hm].
Defined.

(** ** Heavy motion *)

(** C4, as the specification states it, fails: in [heavyMotion] the one
    baseline the scan computes has mean 12.25 and standard deviation 2.5,
    sample 100 is a peak of 16, which is [1.5 * 2.5] above that mean, and
    [detectAll] records a shot there. *)
Lemma C4_heavy_motion_counterexample : ~ Scenarios.heavyMotionRejected.
Proof.
  intros H.
  assert (E : _baseline (map aMag heavyMotion) (100 - BASELINE_OFFSET) =
              Some {| Baseline.mean := 12.25; Baseline.std := 2.5 |})
    by (vm_compute; reflexivity).
  pose proof (H new heavyMotion 100 {| Baseline.mean := 12.25; Baseline.std := 2.5 |}) as H'.
  cbv zeta in H'.
  refine (H' _ _ E _ _ _
             {| Shot.idx := 100; Shot.mag := 16; Shot.dipMag := 2;
                Shot.recoveryMag := 14.75; Shot.range := 14; Shot.t := 2000;
                Shot.tRel := 1000; Shot.consensus := None;
                Shot.calibResult := None |} _ eq_refl).
  - intros j b [<-|[]] Hb.
    assert (Eb : Some b = Some {| Baseline.mean := 12.25; Baseline.std := 2.5 |})
      by (rewrite <- Hb; exact E).
    inversion Eb. reflexivity.
  - left. reflexivity.
  - vm_compute. reflexivity.
  - vm_compute. reflexivity.
  - vm_compute. reflexivity.
  - vm_compute. left. reflexivity.
Qed.

(** C4, amended.  Take a candidate whose baseline has standard
    deviation 2.5 and whose peak of 16 is 1.5 such deviations above the
    baseline mean.  The peak gate takes the deviation
    capped at 1.5, so its sigma threshold is [mean + 2.5 * 1.5], which is
    that same 16: the peak is not below it, nor below the floor of 14, and
    the peak gate lets it through.  [detectAll] then records a shot at the
    peak exactly when the peak lies in the scan range,
    [100 <= i < length - 65], and the rest of the loop body passes: the
    local-maximum
    test, the separation from the last shot recorded before it, the dip, range
    and recovery gates and the two post-filters.  A shot recorded there has
    its dip, not above 6, among the next 34 samples; when those samples are
    all above 6 no shot is recorded at the peak. *)
Theorem C4_heavy_motion_as_coded :
  forall (d : ShotDetector) (imuData : list Sample) (i : nat) (base : Baseline.t),
    let aMags := map aMag imuData in
    _baseline aMags (i - BASELINE_OFFSET) = Some base ->
    Baseline.std base = 2.5%float ->
    JS.get aMags i = 16%float ->
    JS.get aMags i = (Baseline.mean base + 1.5 * Baseline.std base)%float ->
    JS.Math_min (Baseline.std base) MAX_EFFECTIVE_STD = 1.5%float /\
    (Baseline.mean base + PEAK_SIGMA * JS.Math_min (Baseline.std base) MAX_EFFECTIVE_STD
     = 16)%float /\
    (JS.get aMags i <?
     Baseline.mean base + PEAK_SIGMA * JS.Math_min (Baseline.std base) MAX_EFFECTIVE_STD)%float
    = false /\
    (JS.get aMags i <? MIN_PEAK_ABS)%float = false /\
    ((exists sh, In sh (detectAll d imuData) /\ Shot.idx sh = i) <->
     In i (batchIndices (length aMags)) /\ HeavyMotion.restOfBody d imuData i base) /\
    (forall sh, In sh (detectAll d imuData) -> Shot.idx sh = i ->
       exists dipIdx, i < dipIdx < i + 35 /\ Shot.dipMag sh = JS.get aMags dipIdx /\
                      (6 <? Shot.dipMag sh)%float = false) /\
    ((forall j, i < j < i + 35 -> (6 <? JS.get aMags j)%float = true) ->
     forall sh, In sh (detectAll d imuData) -> Shot.idx sh <> i).
Proof.
  intros d imuData i base aMags Hb Hstd Hpeak Hsigma.
  assert (Hmin : JS.Math_min (Baseline.std base) MAX_EFFECTIVE_STD = 1.5%float)
    by (rewrite Hstd; reflexivity).
  assert (Hthr : (Baseline.mean base +
                  PEAK_SIGMA * JS.Math_min (Baseline.std base) MAX_EFFECTIVE_STD = 16)%float).
  { rewrite Hmin, <- Hpeak, Hsigma, Hstd. reflexivity. }
  assert (Hp1 : (JS.get aMags i <?
                 Baseline.mean base +
                 PEAK_SIGMA * JS.Math_min (Baseline.std base) MAX_EFFECTIVE_STD)%float = false)
    by (rewrite Hthr, Hpeak; reflexivity).
  assert (Hp2 : (JS.get aMags i <? MIN_PEAK_ABS)%float = false)
    by (rewrite Hpeak; reflexivity).
  split; [exact Hmin|]. split; [exact Hthr|]. split; [exact Hp1|]. split; [exact Hp2|].
  split.
  { split.
    - intros (sh & Hin & Hidx).
      assert (Hi : In i (batchIndices (length aMags))).
      { destruct (DetectorMore.detectAll_recorded d imuData sh Hin)
          as (j & s & b & dipIdx & recIdx & Hj & _ & _ & _ & _ & E).
        rewrite E in Hidx. cbn [batchShot Shot.idx] in Hidx. subst j.
        unfold aMags. now rewrite length_map. }
      split; [exact Hi|].
      apply (ScanFacts.shot_at_rest d imuData i base Hi Hb Hp1 Hp2).
      now exists sh.
    - intros (Hi & Hrest).
      now apply (ScanFacts.shot_at_rest d imuData i base Hi Hb Hp1 Hp2). }
  assert (G : forall sh, In sh (detectAll d imuData) -> Shot.idx sh = i ->
                exists dipIdx, i < dipIdx < i + 35 /\ Shot.dipMag sh = JS.get aMags dipIdx /\
                               (6 <? Shot.dipMag sh)%float = false).
  { intros sh Hin Hidx.
    destruct (Gates.batch_shots (DetectorFacts.detectAll_inv d imuData) sh Hin)
      as (s & base' & dipIdx & recIdx & HP & _ & E).
    destruct (DetectorFacts.passed_dipGate _ _ _ _ _ _ HP)
      as (b & dipIdx' & _ & Hr & _ & _ & Hd & _ & _ & _ & H6 & _).
    rewrite E in Hidx. cbn [batchShot Shot.idx] in Hidx. subst i.
    exists dipIdx'. rewrite E. cbn [batchShot Shot.idx Shot.dipMag] in *.
    rewrite Hd in *. fold aMags. auto. }
  split; [exact G|].
  intros Hall sh Hin Hidx. destruct (G sh Hin Hidx) as (dipIdx & Hr & Hd & H6).
  rewrite Hd, (Hall dipIdx Hr) in H6. discriminate.
Qed.

(** [heavyMotion] at sample 100: the rest of the loop body passes, and
    the peak of 16 is recorded as a shot. *)
Lemma C4_heavy_motion_as_coded_witness :
  exists sh, In sh (detectAll new heavyMotion) /\ Shot.idx sh = 100.
Proof.
  assert (E : _baseline (map aMag heavyMotion) (100 - BASELINE_OFFSET) =
              Some {| Baseline.mean := 12.25; Baseline.std := 2.5 |})
    by (vm_compute; reflexivity).
  assert (I : In 100 (batchIndices (length (map aMag heavyMotion))))
    by (vm_compute; left; reflexivity).
  assert (P : JS.get (map aMag heavyMotion) 100 = 16%float) by (vm_compute; reflexivity).
  apply (proj1 (proj2 (proj2 (proj2 (proj2
           (C4_heavy_motion_as_coded new heavyMotion 100
              {| Baseline.mean := 12.25; Baseline.std := 2.5 |} E eq_refl P
              ltac:(vm_compute; reflexivity))))))).
  split; [exact I|].
  unfold HeavyMotion.restOfBody. cbv zeta.
  repeat split; try (vm_compute; reflexivity).
  eexists. split; vm_compute; reflexivity.
Defined.


(** * Further properties of the code *)

Import Statements PatternExtraction PatternStatements CalibrationStatements LiveStatements.

(** ** The peak and recovery gates *)

Lemma passed_peakGate (aMags : list float) (len i : nat) (base : Baseline.t)
      (dipIdx recIdx : nat) :
  Passed aMags len i base dipIdx recIdx -> peakGate aMags i (JS.get aMags i).
Proof.
  intros HP. exists base. cbv zeta.
  pose proof (passed_base HP) as Hb. unfold _baseline in Hb. cbv zeta in Hb.
  unfold BASELINE_OFFSET, BASELINE_WINDOW in Hb.
  destruct (length (JS.slice aMags (i - 20 - 80) (i - 20)) <? 10)%nat eqn:E;
    [discriminate|].
  apply Nat.ltb_ge in E. inversion Hb; subst base; clear Hb.
  cbn [Baseline.mean Baseline.std].
  pose proof (passed_peak_sigma HP) as H1. pose proof (passed_peak_abs HP) as H2.
  cbn [Baseline.mean Baseline.std] in H1.
  repeat split; try assumption.
  - intros Hn Ht. now apply JSFacts.not_ltb_leb.
  - intros Hn. apply JSFacts.not_ltb_leb; [assumption | reflexivity | assumption].
Qed.

(** X1.  In batch and in live mode a candidate yields a shot only if its
    magnitude is not below [mean + 2.5 * effStd], nor below 14, for the
    baseline [mean] and [std] of at least 10 of the samples
    [i - 100 .. i - 21], with [effStd] the [std] capped at 1.5. *)
Theorem shot_passed_peak_gate :
  (forall (d : ShotDetector) (imuData : list Sample) (sh : Shot.shot),
      In sh (detectAll d imuData) ->
      peakGate (map aMag imuData) (Shot.idx sh) (Shot.mag sh))
  /\
  (forall (d d' : ShotDetector) (aMags : list float) (i len : nat) (currentTime : float)
          (buffer : IMUBuffer.IMUBuffer Sample) (sh : LiveShot.shot),
      _checkCandidate d aMags i len currentTime buffer = (Some sh, d') ->
      peakGate aMags i (LiveShot.mag sh)).
Proof.
  split.
  - intros d imuData sh Hin.
    destruct (DetectorMore.detectAll_recorded d imuData sh Hin)
      as (i & s & base & dipIdx & recIdx & _ & HP & _ & _ & _ & ->).
    cbn [batchShot Shot.idx Shot.mag].
    exact (passed_peakGate _ _ _ _ _ _ HP).
  - intros d d' aMags i len currentTime buffer sh H.
    destruct (DetectorMore.checkCandidate_cases d aMags i len currentTime buffer)
      as [E|(base & dipIdx & recIdx & HP & _ & _ & _ & _ & _ & E)];
      rewrite E in H; [discriminate|].
    inversion H; subst. cbn [liveShot LiveShot.mag].
    exact (passed_peakGate _ _ _ _ _ _ HP).
Qed.

(** The shot of [oneShot], a peak of 20 over a baseline of 10. *)
Lemma shot_passed_peak_gate_witness : peakGate (map aMag oneShot) 100 20.
Proof.
  apply (proj1 shot_passed_peak_gate new oneShot
               {| Shot.idx := 100; Shot.mag := 20; Shot.dipMag := 2;
                  Shot.recoveryMag := 15; Shot.range := 18; Shot.t := 2000;
                  Shot.tRel := 1000; Shot.consensus := None;
                  Shot.calibResult := None |}).
  rewrite detectAll_oneShot. left. reflexivity.
Defined.

Lemma passed_recoveryGate (aMags : list float) (len i : nat) (base : Baseline.t)
      (dipIdx recIdx : nat) :
  Passed aMags len i base dipIdx recIdx ->
  recoveryGate aMags len i (JS.get aMags dipIdx) (JS.get aMags recIdx).
Proof.
  intros HP. pose proof (DetectorFacts.passed_window _ _ _ _ _ _ HP) as Hw.
  pose proof (DetectorFacts.findDip_range aMags _ _ Hw) as Hd.
  rewrite <- (passed_dipIdx HP) in Hd.
  pose proof (passed_rec_window HP) as Hrw.
  pose proof (DetectorFacts.findRecovery_range aMags _ _ Hrw) as Hr.
  rewrite <- (passed_recIdx HP) in Hr.
  unfold DIP_SEARCH_WINDOW, RECOVERY_SEARCH_WINDOW in *.
  exists base, dipIdx, recIdx.
  split; [exact (passed_base HP)|].
  split; [lia|]. split; [reflexivity|]. split; [lia|]. split; [lia|].
  split; [reflexivity|].
  split.
  { intros j Hj Hl. rewrite (passed_recIdx HP).
    apply DetectorMore.findRecovery_greatest. unfold RECOVERY_SEARCH_WINDOW. lia. }
  cbv zeta.
  pose proof (passed_rec_sigma HP) as H1. pose proof (passed_rec_rise HP) as H2.
  repeat split; try assumption.
  - intros Hn Ht. now apply JSFacts.not_ltb_leb.
  - intros Hn. apply JSFacts.not_ltb_leb; [assumption | reflexivity | assumption].
Qed.

(** X2.  In batch and in live mode a candidate yields a shot only if the
    largest magnitude of the up to 29 samples that follow the dip, which is
    the shot's [recoveryMag], is not below [mean + 1.0 * effStd] and exceeds
    the dip by no less than 5. *)
Theorem shot_passed_recovery_gate :
  (forall (d : ShotDetector) (imuData : list Sample) (sh : Shot.shot),
      In sh (detectAll d imuData) ->
      recoveryGate (map aMag imuData) (length imuData) (Shot.idx sh)
                   (Shot.dipMag sh) (Shot.recoveryMag sh))
  /\
  (forall (d d' : ShotDetector) (aMags : list float) (i len : nat) (currentTime : float)
          (buffer : IMUBuffer.IMUBuffer Sample) (sh : LiveShot.shot),
      _checkCandidate d aMags i len currentTime buffer = (Some sh, d') ->
      recoveryGate aMags len i (LiveShot.dipMag sh) (LiveShot.recoveryMag sh)).
Proof.
  split.
  - intros d imuData sh Hin.
    destruct (DetectorMore.detectAll_recorded d imuData sh Hin)
      as (i & s & base & dipIdx & recIdx & _ & HP & _ & _ & _ & ->).
    cbn [batchShot Shot.idx Shot.dipMag Shot.recoveryMag].
    exact (passed_recoveryGate _ _ _ _ _ _ HP).
  - intros d d' aMags i len currentTime buffer sh H.
    destruct (DetectorMore.checkCandidate_cases d aMags i len currentTime buffer)
      as [E|(base & dipIdx & recIdx & HP & _ & _ & _ & _ & _ & E)];
      rewrite E in H; [discriminate|].
    inversion H; subst. cbn [liveShot LiveShot.dipMag LiveShot.recoveryMag].
    exact (passed_recoveryGate _ _ _ _ _ _ HP).
Qed.

(** The shot of [oneShot]: a dip of 2 and a recovery of 15. *)
Lemma shot_passed_recovery_gate_witness :
  recoveryGate (map aMag oneShot) (length oneShot) 100 2 15.
Proof.
  apply (proj1 shot_passed_recovery_gate new oneShot
               {| Shot.idx := 100; Shot.mag := 20; Shot.dipMag := 2;
                  Shot.recoveryMag := 15; Shot.range := 18; Shot.t := 2000;
                  Shot.tRel := 1000; Shot.consensus := None;
                  Shot.calibResult := None |}).
  rewrite detectAll_oneShot. left. reflexivity.
Defined.

(** ** Where the batch scan looks *)

(** X3.  Every shot of [detectAll] has its peak at an index from 100 up
    to, but not including, [imuData.length - 65], and carries the magnitude
    and the two times of the sample at that index; a recording of at most
    165 samples yields no shot. *)
Theorem batch_scan_window :
  forall (d : ShotDetector) (imuData : list Sample),
    (forall sh, In sh (detectAll d imuData) ->
       (100 <= Shot.idx sh < length imuData - 65)%nat /\
       exists s, nth_error imuData (Shot.idx sh) = Some s /\
                 Shot.mag sh = aMag s /\ Shot.t sh = t s /\ Shot.tRel sh = tRel s) /\
    ((length imuData <= 165)%nat -> detectAll d imuData = []).
Proof.
  intros d imuData.
  assert (G : forall sh, In sh (detectAll d imuData) ->
       (100 <= Shot.idx sh < length imuData - 65)%nat /\
       exists s, nth_error imuData (Shot.idx sh) = Some s /\
                 Shot.mag sh = aMag s /\ Shot.t sh = t s /\ Shot.tRel sh = tRel s).
  { intros sh Hin.
    destruct (DetectorMore.detectAll_recorded d imuData sh Hin)
      as (i & s & base & dipIdx & recIdx & Hi & _ & Hs & _ & _ & ->).
    cbn [batchShot Shot.idx Shot.mag Shot.t Shot.tRel].
    unfold batchIndices in Hi. cbv zeta in Hi. apply in_seq in Hi.
    unfold BASELINE_WINDOW, BASELINE_OFFSET, DIP_SEARCH_WINDOW, RECOVERY_SEARCH_WINDOW in Hi.
    split; [lia|]. exists s. split; [assumption|]. split; [|split; reflexivity].
    unfold JS.get. rewrite (nth_error_nth (map aMag imuData) i nan (x := aMag s));
      [reflexivity|]. rewrite nth_error_map, Hs. reflexivity. }
  split; [exact G|].
  intros Hlen. destruct (detectAll d imuData) as [|sh rest]; [reflexivity|].
  destruct (G sh (or_introl eq_refl)) as [Hr _]. lia.
Qed.

(** [oneShot] has 200 samples; 165 of them are too few. *)
Lemma batch_scan_window_witness : detectAll new (firstn 165 oneShot) = [].
Proof.
  apply (proj2 (batch_scan_window new (firstn 165 oneShot))).
  apply Nat.leb_le. vm_compute. reflexivity.
Defined.

(** ** The minimum interval between shots *)

(** X4.  Neighbouring shots of one [detectAll] run, and neighbouring
    shots of a series of live [processSample] calls, passed the time gate:
    the later one would have been refused had less than 1200 ms passed since
    the earlier one, provided the time of the earlier one is positive.  The
    batch scan reads the time of a shot as [t || tRel || 0]; live mode uses
    the [currentTime] of the call. *)
Theorem shots_passed_time_gate :
  (forall (d : ShotDetector) (imuData : list Sample),
      successive (fun a b => timeGate (shotTime a) (shotTime b)) (detectAll d imuData))
  /\
  (forall (d : ShotDetector) (calls : list (IMUBuffer.IMUBuffer Sample * float)),
      successive (fun a b => timeGate (LiveShot.t a) (LiveShot.t b)) (fst (run d calls))).
Proof.
  split.
  - intros d imuData. unfold detectAll. cbv zeta.
    generalize (batchIndices (length (map aMag imuData))). intros l.
    assert (G : forall l st,
      successive (fun a b => timeGate (shotTime a) (shotTime b)) (shots st) ->
      (shots st <> [] -> lastTime st = shotTime (last (shots st) (batchShot d imuData [] 0
          {| t := 0; tRel := 0; aMag := 0; gx := 0; gy := 0; gz := 0 |}
          {| Baseline.mean := 0; Baseline.std := 0 |} 0 0))) ->
      successive (fun a b => timeGate (shotTime a) (shotTime b))
        (shots (fold_left (detectStep d imuData (map aMag imuData)) l st))).
    { clear l. induction l as [|i l IH]; intros st H1 H2; simpl; [assumption|].
      destruct (DetectorMore.detectStep_cases d imuData (map aMag imuData) st i)
        as [->|(s & base & dipIdx & recIdx & _ & _ & _ & Ht & _ & _ & ->)]; [now apply IH|].
      apply IH; cbn [shots lastTime].
      - eapply DetectorMore.successive_snoc; [exact H1|].
        intros Hne. rewrite <- (H2 Hne). exact Ht.
      - intros _. rewrite last_last. reflexivity. }
    apply G; [apply DetectorMore.successive_nil | intros H; now elim H].
  - intros d calls.
    assert (G : forall calls d,
      successive (fun a b => timeGate (LiveShot.t a) (LiveShot.t b)) (fst (run d calls)) /\
      (forall sh, nth_error (fst (run d calls)) 0 = Some sh ->
                  timeGate (lastShotTime d) (LiveShot.t sh))).
    { clear. induction calls as [|[buffer now] rest IH]; intros d; simpl.
      - split; [apply DetectorMore.successive_nil | intros sh H; discriminate].
      - destruct (DetectorMore.processSample_cases d buffer now)
          as [->|(i & base & dipIdx & recIdx & _ & _ & _ & Ht & _ & _ & ->)].
        + specialize (IH d). destruct (run d rest) as [later d'']. exact IH.
        + specialize (IH (accepted d now (IMUBuffer.absIndex buffer i))).
          destruct (run _ rest) as [later d'']. simpl in *. destruct IH as [IH1 IH2].
          split.
          * apply DetectorMore.successive_cons; [assumption|]. exact IH2.
          * intros sh H. inversion H; subst. exact Ht. }
    apply G.
Qed.

(** The two shots of [twoShots], at 2000 ms and 3500 ms. *)
Lemma shots_passed_time_gate_witness : timeGate 2000 3500.
Proof.
  apply (proj1 shots_passed_time_gate new twoShots 0 Cases.theShot Cases.secondShot);
    vm_compute; reflexivity.
Defined.

(** ** The two post-filters *)

(** X5.  A shot of [detectAll], and a shot that [_checkCandidate]
    returns, carries a consensus result exactly when [useConsensus] is set,
    and that result is the accepting outcome of [evaluate] at the peak; it
    carries no calibration result when the detector has no calibration, and
    a calibration result that it does carry accepts the candidate. *)
Theorem shots_passed_post_filters :
  (forall (d : ShotDetector) (imuData : list Sample) (sh : Shot.shot),
      In sh (detectAll d imuData) ->
      (useConsensus d = false -> Shot.consensus sh = None) /\
      (useConsensus d = true ->
       exists dipIdx recIdx,
         Shot.consensus sh =
           Some (ShotDetectorConsensus.evaluate (map aMag imuData) (Shot.idx sh)
                                                dipIdx recIdx (consensusOpts d)) /\
         ShotDetectorConsensus.isShot
           (ShotDetectorConsensus.evaluate (map aMag imuData) (Shot.idx sh)
                                           dipIdx recIdx (consensusOpts d)) = true) /\
      (calibration d = None -> Shot.calibResult sh = None) /\
      (forall r, Shot.calibResult sh = Some r -> MotionCalibrator.isShot r = true))
  /\
  (forall (d d' : ShotDetector) (aMags : list float) (i len : nat) (currentTime : float)
          (buffer : IMUBuffer.IMUBuffer Sample) (sh : LiveShot.shot),
      _checkCandidate d aMags i len currentTime buffer = (Some sh, d') ->
      (useConsensus d = false -> LiveShot.consensus sh = None) /\
      (useConsensus d = true ->
       exists dipIdx recIdx,
         LiveShot.consensus sh =
           Some (ShotDetectorConsensus.evaluate aMags i dipIdx recIdx (consensusOpts d)) /\
         ShotDetectorConsensus.isShot
           (ShotDetectorConsensus.evaluate aMags i dipIdx recIdx (consensusOpts d)) = true) /\
      (calibration d = None -> LiveShot.calibResult sh = None) /\
      (forall r, LiveShot.calibResult sh = Some r -> MotionCalibrator.isShot r = true)).
Proof.
  assert (G : forall d aMags imuData i dipIdx recIdx m,
    consensusRejects (consensusOf d aMags i dipIdx recIdx) = false ->
    calibrationRejects (calibResultOf d imuData i dipIdx recIdx m) = false ->
    (useConsensus d = false -> consensusOf d aMags i dipIdx recIdx = None) /\
    (useConsensus d = true ->
       exists dipIdx' recIdx',
         consensusOf d aMags i dipIdx recIdx =
           Some (ShotDetectorConsensus.evaluate aMags i dipIdx' recIdx' (consensusOpts d)) /\
         ShotDetectorConsensus.isShot
           (ShotDetectorConsensus.evaluate aMags i dipIdx' recIdx' (consensusOpts d)) = true) /\
    (calibration d = None -> calibResultOf d imuData i dipIdx recIdx m = None) /\
    (forall r, calibResultOf d imuData i dipIdx recIdx m = Some r ->
               MotionCalibrator.isShot r = true)).
  { intros d aMags imuData i dipIdx recIdx m Hc Hk.
    unfold consensusOf, calibResultOf in *.
    split; [intros ->; reflexivity|].
    split.
    { intros E. rewrite E in *. exists dipIdx, recIdx. split; [reflexivity|].
      simpl in Hc. now apply negb_false_iff in Hc. }
    split; [intros ->; reflexivity|].
    intros r Hr. rewrite Hr in Hk. simpl in Hk. now apply negb_false_iff in Hk. }
  split.
  - intros d imuData sh Hin.
    destruct (DetectorMore.detectAll_recorded d imuData sh Hin)
      as (i & s & base & dipIdx & recIdx & _ & _ & _ & Hc & Hk & ->).
    cbn [batchShot Shot.idx Shot.consensus Shot.calibResult].
    exact (G _ _ _ _ _ _ _ Hc Hk).
  - intros d d' aMags i len currentTime buffer sh H.
    destruct (DetectorMore.checkCandidate_cases d aMags i len currentTime buffer)
      as [E|(base & dipIdx & recIdx & _ & _ & _ & _ & Hc & Hk & E)];
      rewrite E in H; [discriminate|].
    inversion H; subst. cbn [liveShot LiveShot.consensus LiveShot.calibResult].
    exact (G _ _ _ _ _ _ _ Hc Hk).
Qed.

(** With the consensus filter on, the shot of [oneShot] carries an
    accepting consensus. *)
Lemma shots_passed_post_filters_witness :
  exists dipIdx recIdx,
    Shot.consensus (nth 0 (detectAll Cases.withConsensus oneShot) Cases.theShot) =
      Some (ShotDetectorConsensus.evaluate (map aMag oneShot) 100 dipIdx recIdx
                                           ShotDetectorConsensus.Opts.empty) /\
    ShotDetectorConsensus.isShot
      (ShotDetectorConsensus.evaluate (map aMag oneShot) 100 dipIdx recIdx
                                      ShotDetectorConsensus.Opts.empty) = true.
Proof.
  apply (proj1 (proj2 (proj1 shots_passed_post_filters Cases.withConsensus oneShot
                         (nth 0 (detectAll Cases.withConsensus oneShot) Cases.theShot)
                         ltac:(vm_compute; left; reflexivity)))).
  reflexivity.
Defined.

(** ** Live mode against batch mode *)

Lemma findDip_empty (aMags : list float) (from to_ : nat) :
  (to_ <= from)%nat -> findDip aMags from to_ = from.
Proof.
  intros H. unfold findDip. replace (to_ - from)%nat with 0%nat by lia. reflexivity.
Qed.

Ltac agree_step :=
  lazymatch goal with
  | |- map _ (shots (if ?c then _ else _)) = _ =>
    let E := fresh "E" in destruct c eqn:E; [reflexivity|]
  | |- map _ (shots (match ?o with Some _ => _ | None => _ end)) = _ =>
    let E := fresh "E" in destruct o eqn:E; [|reflexivity]
  end.

(** X6.  On a detector that has accepted no shot yet (fresh, or after
    [reset]) the two modes agree on every candidate: for a recording held in
    full by the buffer, [_checkCandidate] returns a shot at index [i] exactly
    when one iteration of the [detectAll] loop, started from its initial
    state, records one at [i], and the two shots have the same magnitudes,
    range and post-filter results. *)
Theorem live_agrees_with_batch :
  forall (d : ShotDetector) (imuData : list Sample) (i : nat) (currentTime : float)
         (buffer : IMUBuffer.IMUBuffer Sample),
    IMUBuffer.data buffer = imuData ->
    lastShotIdx d = NegInfinity -> lastShotTime d = 0%float ->
    (i < length imuData)%nat ->
    map (toLive buffer currentTime)
        (shots (detectStep d imuData (map aMag imuData) batchStart i)) =
    match fst (_checkCandidate d (map aMag imuData) i (length imuData) currentTime buffer) with
    | Some sh => [sh]
    | None => []
    end.
Proof.
  intros d imuData i currentTime buffer Hdata Hidx Htime Hi.
  destruct (nth_error imuData i) as [s|] eqn:Hs; [|apply nth_error_None in Hs; lia].
  unfold detectStep, _checkCandidate. cbv zeta.
  rewrite Hidx, Htime, Hs, Hdata, length_map. cbn [tooClose batchStart lastIdx lastTime shots].
  change (0 <? 0)%float with false. rewrite !andb_false_r.
  agree_step. agree_step. agree_step.
  destruct (Nat.min (length imuData) (i + DIP_SEARCH_WINDOW) <=? i + 1)%nat eqn:Ew.
  - (* no room for a dip: the batch scan gives up at the recovery window *)
    apply Nat.leb_le in Ew.
    rewrite (findDip_empty _ _ _ Ew).
    agree_step. agree_step.
    assert (Er : (Nat.min (length imuData) (i + 1 + RECOVERY_SEARCH_WINDOW) <=? i + 1 + 1)%nat
                 = true).
    { apply Nat.leb_le. unfold DIP_SEARCH_WINDOW, RECOVERY_SEARCH_WINDOW in *. lia. }
    rewrite Er. reflexivity.
  - repeat agree_step. reflexivity.
Qed.

(** Sample 100 of [oneShot], on a detector that accepted a shot before
    and was reset: both modes find the shot. *)
Lemma live_agrees_with_batch_witness :
  map (toLive (bufferOf oneShot) 5000)
      (shots (detectStep (reset afterShot) oneShot (map aMag oneShot) batchStart 100)) =
  match fst (_checkCandidate (reset afterShot) (map aMag oneShot) 100 (length oneShot) 5000
                             (bufferOf oneShot)) with
  | Some sh => [sh]
  | None => []
  end.
Proof.
  apply (live_agrees_with_batch (reset afterShot) oneShot 100 5000%float (bufferOf oneShot)).
  - vm_compute. reflexivity.
  - reflexivity.
  - reflexivity.
  - apply Nat.ltb_lt. vm_compute. reflexivity.
Defined.

(** X7.  [processSample] returns [null] for a buffer of fewer than 190
    samples.  A shot that it returns has its peak between 90 and 51 samples
    before the end of the buffer; its [idx] is [bufferIdx] plus the buffer's
    offset, its time is [currentTime], its magnitude is that of the sample in
    slot [bufferIdx], and the detector afterwards remembers that time and
    index and is otherwise as before. *)
Theorem live_scan_window :
  forall (d : ShotDetector) (buffer : IMUBuffer.IMUBuffer Sample) (currentTime : float),
    let len := IMUBuffer.length buffer in
    (len < 190 -> processSample d buffer currentTime = (None, d)) /\
    (forall sh d', processSample d buffer currentTime = (Some sh, d') ->
       190 <= len /\
       len - 90 <= LiveShot.bufferIdx sh < len - 50 /\
       LiveShot.idx sh = LiveShot.bufferIdx sh + IMUBuffer.offset buffer /\
       LiveShot.t sh = currentTime /\
       (exists s, IMUBuffer.get buffer (LiveShot.bufferIdx sh) = Some s /\
                  LiveShot.mag sh = aMag s) /\
       lastShotTime d' = currentTime /\
       lastShotIdx d' = At (LiveShot.idx sh) /\
       calibration d' = calibration d /\ useConsensus d' = useConsensus d /\
       consensusOpts d' = consensusOpts d).
Proof.
  intros d buffer currentTime. cbv zeta. split.
  - intros H. unfold processSample. cbv zeta.
    replace (_ <? _) with true; [reflexivity|].
    symmetry. apply Nat.ltb_lt.
    unfold SCAN_START_OFFSET, BASELINE_WINDOW, BASELINE_OFFSET. lia.
  - intros sh d' H. exact (DetectorMore.processSample_returns _ _ _ _ _ H).
Qed.

Lemma live_scan_window_witness :
  processSample new (bufferOf (firstn 189 oneShot)) 5000 = (None, new).
Proof.
  apply (proj1 (live_scan_window new (bufferOf (firstn 189 oneShot)) 5000%float)).
  apply Nat.ltb_lt. vm_compute. reflexivity.
Defined.


(** ** The earlier detector *)

(** X8.  The later core.js only tightened the earlier one: when an
    iteration of the later [detectAll] loop records a shot, the same
    iteration of the earlier loop, carrying the same last index and last
    time, records the same shot (the later one without its two filter
    results). *)
Theorem later_gates_are_tighter :
  forall (d : ShotDetector) (imuData : list Sample) (aMags : list float)
         (st : BatchState) (lst : LegacyCore.BatchState) (i : nat) (sh : Shot.shot),
    LegacyCore.lastIdx lst = lastIdx st ->
    LegacyCore.lastTime lst = lastTime st ->
    shots (detectStep d imuData aMags st i) = shots st ++ [sh] ->
    LegacyCore.shots (LegacyCore.detectStep imuData aMags lst i) =
      LegacyCore.shots lst ++ [toLegacy sh] /\
    LegacyCore.lastIdx (LegacyCore.detectStep imuData aMags lst i) =
      lastIdx (detectStep d imuData aMags st i) /\
    LegacyCore.lastTime (LegacyCore.detectStep imuData aMags lst i) =
      lastTime (detectStep d imuData aMags st i).
Proof.
  intros d imuData aMags st lst i sh Hidx Htime H.
  destruct (DetectorMore.detectStep_cases d imuData aMags st i)
    as [E|(s & base & dipIdx & recIdx & HP & Hs & Hc & Ht & _ & _ & E)]; rewrite E in *.
  { exfalso. apply (f_equal (@length _)) in H. rewrite length_app in H. simpl in H. lia. }
  cbn [shots lastIdx lastTime] in *.
  apply app_inv_head in H. inversion H; subst sh; clear H.
  unfold LegacyCore.detectStep. cbv zeta.
  rewrite (passed_prev HP), (passed_next HP), (passed_base HP),
          (passed_peak_sigma HP), (passed_peak_abs HP), Hidx, Hc, Hs, Htime.
  unfold timeGate, sampleTimeOf in Ht. rewrite Ht.
  rewrite <- (passed_dipIdx HP), (passed_dip_sigma HP).
  assert (D : (LegacyCore.MAX_DIP_ABS <? JS.get aMags dipIdx)%float = false).
  { destruct (LegacyCore.MAX_DIP_ABS <? JS.get aMags dipIdx)%float eqn:E8; [|reflexivity].
    assert (L : (MAX_DIP_ABS <? LegacyCore.MAX_DIP_ABS)%float = true) by reflexivity.
    pose proof (JSFacts.ltb_trans MAX_DIP_ABS LegacyCore.MAX_DIP_ABS _ L E8) as C. rewrite (passed_dip_abs HP) in C.
    discriminate. }
  rewrite D.
  assert (R : (JS.get aMags i - JS.get aMags dipIdx <?
               JS.Math_max LegacyCore.MIN_PEAK_TO_DIP_ABS
                 (JS.Math_min (Baseline.std base) MAX_EFFECTIVE_STD * PEAK_TO_DIP_SIGMA))%float
              = false).
  { match goal with |- ?c = false => destruct c eqn:E6; [|reflexivity] end.
    assert (L : (LegacyCore.MIN_PEAK_TO_DIP_ABS <? MIN_PEAK_TO_DIP_ABS)%float = true)
      by reflexivity.
    pose proof (JSMore.below_max_mono _ LegacyCore.MIN_PEAK_TO_DIP_ABS MIN_PEAK_TO_DIP_ABS _ L E6) as C. rewrite (passed_range HP) in C.
    discriminate. }
  rewrite R.
  pose proof (passed_rec_window HP) as Hw. apply Nat.leb_gt in Hw. rewrite Hw.
  rewrite <- (passed_recIdx HP), (passed_rec_sigma HP).
  assert (S : (JS.get aMags recIdx - JS.get aMags dipIdx <? LegacyCore.MIN_RISE_FROM_DIP)%float
              = false).
  { match goal with |- ?c = false => destruct c eqn:E4; [|reflexivity] end.
    assert (L : (LegacyCore.MIN_RISE_FROM_DIP <? MIN_RISE_FROM_DIP)%float = true)
      by reflexivity.
    pose proof (JSFacts.ltb_trans _ LegacyCore.MIN_RISE_FROM_DIP MIN_RISE_FROM_DIP E4 L) as C. rewrite (passed_rec_rise HP) in C.
    discriminate. }
  rewrite S. cbn. repeat split.
Qed.

(** The shot of [oneShot] is one for the earlier detector as well. *)
Lemma later_gates_are_tighter_witness :
  LegacyCore.shots (LegacyCore.detectStep oneShot (map aMag oneShot) Cases.legacyStart 100) =
  [toLegacy Cases.theShot].
Proof.
  apply (later_gates_are_tighter new oneShot (map aMag oneShot) batchStart
           Cases.legacyStart 100 Cases.theShot eq_refl eq_refl).
  vm_compute. reflexivity.
Defined.

(** ** The consensus *)

(** X9.  A consensus method that lacks samples abstains: the window
    sigma votes no, with confidence 0, on a signal of fewer than 40 samples,
    and the envelope ratio does so for a peak with fewer than 20 samples
    before its short window.  Hence [evaluate], with the default envelope
    windows and the default quorum of 3, never accepts a peak inside a signal
    of fewer than 40 samples. *)
Theorem consensus_abstains_on_short_data :
  (forall (aMags : list float) (peakIdx : nat)
          (opts : option ShotDetectorConsensus.WindowSigmaOpts.t),
      length aMags < 40 ->
      ShotDetectorConsensus.windowSigma aMags peakIdx opts =
      {| ShotDetectorConsensus.Method.vote := false;
         ShotDetectorConsensus.Method.confidence := 0 |}) /\
  (forall (aMags : list float) (peakIdx : nat)
          (opts : option ShotDetectorConsensus.EnvelopeRatioOpts.t),
      peakIdx <
        JS.or_default_nat (field opts ShotDetectorConsensus.EnvelopeRatioOpts.shortWindow) 50 / 2
        + 20 ->
      ShotDetectorConsensus.envelopeRatio aMags peakIdx opts =
      {| ShotDetectorConsensus.Method.vote := false;
         ShotDetectorConsensus.Method.confidence := 0 |}) /\
  (forall (aMags : list float) (peakIdx dipIdx recIdx : nat)
          (opts : ShotDetectorConsensus.Opts.t),
      length aMags < 40 -> peakIdx < length aMags ->
      ShotDetectorConsensus.Opts.envelopeRatio opts = None ->
      ShotDetectorConsensus.Opts.minVotes opts = None ->
      ShotDetectorConsensus.votes
        (ShotDetectorConsensus.evaluate aMags peakIdx dipIdx recIdx opts) <= 2 /\
      ShotDetectorConsensus.isShot
        (ShotDetectorConsensus.evaluate aMags peakIdx dipIdx recIdx opts) = false).
Proof.
  split; [exact ConsensusFacts.windowSigma_short|].
  split; [exact ConsensusFacts.envelopeRatio_early|].
  intros aMags peakIdx dipIdx recIdx opts Hl Hp He Hm.
  unfold ShotDetectorConsensus.evaluate, ShotDetectorConsensus.consensus,
    ShotDetectorConsensus.minVotesOf. cbv zeta.
  rewrite (ConsensusFacts.windowSigma_short _ _ _ Hl), He, Hm.
  rewrite ConsensusFacts.envelopeRatio_early by (simpl; lia).
  cbn [ShotDetectorConsensus.votes ShotDetectorConsensus.isShot filter
       ShotDetectorConsensus.Method.vote JS.or_default].
  destruct (ShotDetectorConsensus.Method.vote _), (ShotDetectorConsensus.Method.vote _);
    simpl; (split; [lia | vm_compute; reflexivity]).
Qed.

(** The first 30 samples of [oneShot] are too few for the window sigma. *)
Lemma consensus_abstains_on_short_data_witness :
  ShotDetectorConsensus.windowSigma (map aMag (firstn 30 oneShot)) 20 None =
  {| ShotDetectorConsensus.Method.vote := false;
     ShotDetectorConsensus.Method.confidence := 0 |}.
Proof.
  apply (proj1 consensus_abstains_on_short_data (map aMag (firstn 30 oneShot)) 20 None).
  apply Nat.ltb_lt. vm_compute. reflexivity.
Defined.

(** X10.  No confidence that the engine reports exceeds 1: not that of
    any of the four consensus methods, nor the vote share of [evaluate], nor
    the confidence of [classify]. *)
Theorem confidence_never_above_one :
  (forall aMags peakIdx opts,
      (1 <? ShotDetectorConsensus.Method.confidence
              (ShotDetectorConsensus.windowSigma aMags peakIdx opts))%float = false) /\
  (forall aMags peakIdx opts,
      (1 <? ShotDetectorConsensus.Method.confidence
              (ShotDetectorConsensus.envelopeRatio aMags peakIdx opts))%float = false) /\
  (forall aMags peakIdx dipIdx opts,
      (1 <? ShotDetectorConsensus.Method.confidence
              (ShotDetectorConsensus.dipDepth aMags peakIdx dipIdx opts))%float = false) /\
  (forall aMags peakIdx opts,
      (1 <? ShotDetectorConsensus.Method.confidence
              (ShotDetectorConsensus.peakProminence aMags peakIdx opts))%float = false) /\
  (forall aMags peakIdx dipIdx recIdx opts,
      (1 <? ShotDetectorConsensus.confidence
              (ShotDetectorConsensus.evaluate aMags peakIdx dipIdx recIdx opts))%float = false) /\
  (forall features calibration,
      (1 <? MotionCalibrator.confidence
              (MotionCalibrator.classify features calibration))%float = false).
Proof.
  split.
  { intros. unfold ShotDetectorConsensus.windowSigma. cbv zeta.
    destruct (_ <? 40)%nat; [reflexivity | apply ConsensusFacts.min_one_capped]. }
  split.
  { intros. unfold ShotDetectorConsensus.envelopeRatio. cbv zeta.
    destruct (_ <? 10)%nat; [reflexivity|].
    destruct (_ <? 20)%nat; [reflexivity | apply ConsensusFacts.min_one_capped]. }
  split.
  { intros. unfold ShotDetectorConsensus.dipDepth. cbv zeta.
    cbn [ShotDetectorConsensus.Method.confidence].
    destruct (JS.get aMags dipIdx <? _)%float;
      [apply ConsensusFacts.min_one_capped | reflexivity]. }
  split.
  { intros. apply ConsensusFacts.min_one_capped. }
  split.
  { intros. unfold ShotDetectorConsensus.evaluate, ShotDetectorConsensus.consensus.
    cbv zeta. cbn [ShotDetectorConsensus.confidence length].
    apply ConsensusFacts.confidence_quarters.
    cbn [filter].
    repeat (destruct (ShotDetectorConsensus.Method.vote _)); simpl; lia. }
  intros features calibration. unfold MotionCalibrator.classify.
  destruct calibration as [c|]; [|reflexivity].
  destruct (MotionCalibrator.profiles c) as [profs|]; [|reflexivity].
  destruct (MotionCalibrator.Profiles.shooting profs) as [sp|]; [|reflexivity].
  cbv zeta.
  match goal with
  | |- (1 <? MotionCalibrator.confidence (if ?c then _ else _))%float = false =>
    destruct c; [reflexivity|]
  end.
  match goal with
  | |- (1 <? MotionCalibrator.confidence (if ?c then _ else _))%float = false =>
    destruct c; apply ConsensusFacts.min_one_capped
  end.
Qed.

(** ** The buffer *)

(** X11.  [tail(n)] returns the last [min(n, length)] samples of the
    buffer, in order: the buffer is what precedes them followed by them. *)
Theorem tail_is_suffix :
  forall (A : Type) (b : IMUBuffer.IMUBuffer A) (n : nat),
    length (IMUBuffer.tail b n) = Nat.min n (IMUBuffer.length b) /\
    IMUBuffer.data b =
      firstn (IMUBuffer.length b - n) (IMUBuffer.data b) ++ IMUBuffer.tail b n /\
    (forall k, k < Nat.min n (IMUBuffer.length b) ->
       nth_error (IMUBuffer.tail b n) k =
       IMUBuffer.get b (IMUBuffer.length b - Nat.min n (IMUBuffer.length b) + k)).
Proof.
  intros A b n. unfold IMUBuffer.tail, IMUBuffer.length, IMUBuffer.get. cbv zeta.
  rewrite Nat.max_0_l.
  split; [rewrite length_skipn; lia|].
  split; [now rewrite firstn_skipn|].
  intros k Hk. rewrite nth_error_skipn. f_equal. lia.
Qed.

(** The last ten samples of [oneShot] start at slot 190. *)
Lemma tail_is_suffix_witness :
  nth_error (IMUBuffer.tail (bufferOf oneShot) 10) 0 =
  IMUBuffer.get (bufferOf oneShot)
    (IMUBuffer.length (bufferOf oneShot)
     - Nat.min 10 (IMUBuffer.length (bufferOf oneShot)) + 0).
Proof.
  apply (proj2 (proj2 (tail_is_suffix Sample (bufferOf oneShot) 10)) 0).
  apply Nat.ltb_lt. vm_compute. reflexivity.
Defined.

(** X12.  Push the samples [xs] in order into a fresh buffer whose
    [shiftSize] is at most [maxSize + 1].  The buffer then holds exactly the
    samples from number [offset] on, in order; the absolute index of a slot
    is the position of its sample in [xs]; [totalPushed] is the number of
    samples pushed, and equals [offset] plus the length. *)
Theorem buffer_holds_recent_samples :
  forall (A : Type) (maxSize shiftSize : nat) (xs : list A),
    shiftSize <= maxSize + 1 ->
    let b := BufferRun.pushAll (IMUBuffer.new maxSize shiftSize) xs in
    IMUBuffer.data b = skipn (IMUBuffer.offset b) xs /\
    (forall i, i < IMUBuffer.length b ->
       IMUBuffer.get b i = nth_error xs (IMUBuffer.absIndex b i)) /\
    IMUBuffer.totalPushed b = length xs /\
    IMUBuffer.offset b + IMUBuffer.length b = IMUBuffer.totalPushed b.
Proof.
  intros A maxSize shiftSize xs Hs. cbv zeta.
  destruct (BufferMore.pushAll_stream maxSize shiftSize xs Hs) as (_ & _ & Hd & Ho & Ht).
  split; [exact Hd|]. split.
  - intros i Hi. unfold IMUBuffer.get, IMUBuffer.absIndex. rewrite Hd, nth_error_skipn.
    f_equal. lia.
  - split; [exact Ht|]. unfold IMUBuffer.length. rewrite Ht, Hd, length_skipn. lia.
Qed.

(** The default buffer after 3001 pushes: 1000 dropped, 2001 held. *)
Lemma buffer_holds_recent_samples_witness :
  IMUBuffer.offset (BufferRun.pushAll (IMUBuffer.new 3000 1000) (repeat tt 3001))
  + IMUBuffer.length (BufferRun.pushAll (IMUBuffer.new 3000 1000) (repeat tt 3001)) =
  IMUBuffer.totalPushed (BufferRun.pushAll (IMUBuffer.new 3000 1000) (repeat tt 3001)).
Proof.
  apply (buffer_holds_recent_samples unit 3000 1000 (repeat tt 3001)). lia.
Defined.

(** X13.  After [xs] has been pushed into a fresh buffer, the buffer holds
    at least [min(xs.length, maxSize + 1 - shiftSize)] samples: a compaction
    leaves [maxSize + 1 - shiftSize] of them.  With the default sizes that
    is at least 190 as soon as 190 samples have arrived, so [processSample]
    never again finds the buffer too short to scan. *)
Theorem buffer_keeps_enough_samples :
  (forall (A : Type) (maxSize shiftSize : nat) (xs : list A),
      Nat.min (length xs) (maxSize + 1 - shiftSize) <=
      IMUBuffer.length (BufferRun.pushAll (IMUBuffer.new maxSize shiftSize) xs)) /\
  (forall (xs : list Sample),
      190 <= length xs ->
      (IMUBuffer.length (BufferRun.pushAll IMUBuffer.default xs) <?
       ShotDetector.SCAN_START_OFFSET + ShotDetector.BASELINE_WINDOW +
       ShotDetector.BASELINE_OFFSET) = false).
Proof.
  split.
  - intros A maxSize shiftSize xs. apply BufferMore.pushAll_retains.
  - intros xs Hx. apply Nat.ltb_ge.
    pose proof (BufferMore.pushAll_retains 3000 1000 xs) as (_ & _ & H).
    unfold IMUBuffer.default. cbv zeta in H.
    unfold ShotDetector.SCAN_START_OFFSET, ShotDetector.BASELINE_WINDOW,
      ShotDetector.BASELINE_OFFSET. lia.
Qed.

(** [oneShot] has 200 samples. *)
Lemma buffer_keeps_enough_samples_witness :
  (IMUBuffer.length (BufferRun.pushAll IMUBuffer.default oneShot) <?
   ShotDetector.SCAN_START_OFFSET + ShotDetector.BASELINE_WINDOW +
   ShotDetector.BASELINE_OFFSET) = false.
Proof.
  apply (proj2 buffer_keeps_enough_samples oneShot).
  apply Nat.leb_le. vm_compute. reflexivity.
Defined.

(** ** The live loop of the tracker *)

(** X14.  Feed a recording to the live loop of the tracker, sample by
    sample, with a buffer whose [shiftSize] is at most [maxSize + 1] (the
    default 3000 and 1000 are such).  Whatever the buffer has dropped in
    between, the [idx] of every shot reported is the position of its peak
    sample in the session's [imu] array, and its [mag] is that sample's
    magnitude. *)
Theorem live_index_names_sample :
  forall (maxSize shiftSize : nat) (d : ShotDetector) (samples : list Sample),
    shiftSize <= maxSize + 1 ->
    let st := Tracker.live maxSize shiftSize d samples in
    Tracker.imu st = samples /\
    forall sh, In sh (Tracker.shots st) ->
      exists s, nth_error (Tracker.imu st) (LiveShot.idx sh) = Some s /\
                LiveShot.mag sh = aMag s.
Proof.
  intros maxSize shiftSize d samples Hs. cbv zeta.
  split; [apply TrackerFacts.live_state|].
  rewrite (proj1 (TrackerFacts.live_state maxSize shiftSize d samples)).
  induction samples as [|x xs IH] using rev_ind; [intros sh []|].
  intros sh Hin. rewrite TrackerFacts.live_snoc in Hin. unfold Tracker.onSample in Hin.
  destruct (TrackerFacts.live_state maxSize shiftSize d xs) as [_ Hb].
  assert (Hold : forall sh, In sh (Tracker.shots (Tracker.live maxSize shiftSize d xs)) ->
            exists s, nth_error (xs ++ [x]) (LiveShot.idx sh) = Some s /\
                      LiveShot.mag sh = aMag s).
  { intros sh' Hin'. destruct (IH sh' Hin') as (s & Hn & Hm). exists s. split; [|assumption].
    rewrite nth_error_app1; [assumption|]. apply nth_error_Some. congruence. }
  set (b := IMUBuffer.push (Tracker.buffer (Tracker.live maxSize shiftSize d xs)) x) in *.
  assert (Eb : b = BufferRun.pushAll (IMUBuffer.new maxSize shiftSize) (xs ++ [x])).
  { unfold b. rewrite Hb. unfold BufferRun.pushAll. now rewrite fold_left_app. }
  destruct (processSample _ b (t x)) as [shot d'] eqn:Ep. cbn [Tracker.shots] in Hin.
  destruct shot as [new_sh|]; [|auto].
  apply in_app_or in Hin. destruct Hin as [Hin|[<-|[]]]; [auto|].
  destruct (DetectorMore.processSample_returns _ _ _ _ _ Ep)
    as (_ & Hr & Hi & _ & (s & Hg & Hm) & _).
  exists s. split; [|assumption].
  rewrite Hi, <- Hg, Eb.
  pose proof (BufferMore.pushAll_stream maxSize shiftSize (xs ++ [x]) Hs) as (_ & _ & Hd & _).
  cbv zeta in Hd. unfold IMUBuffer.get. rewrite Hd, nth_error_skipn. f_equal. lia.
Qed.

(** [twoShots] through a buffer of 250 that drops 100 at a time: the
    second shot sits in slot 150 of the buffer and has index 250. *)
Lemma live_index_names_sample_witness :
  exists s, nth_error (Tracker.imu (Tracker.live 250 100 new twoShots)) 250 = Some s /\
            20%float = aMag s.
Proof.
  apply (proj2 (live_index_names_sample 250 100 new twoShots ltac:(lia))
               {| LiveShot.idx := 250; LiveShot.bufferIdx := 150; LiveShot.mag := 20;
                  LiveShot.dipMag := 2; LiveShot.recoveryMag := 15; LiveShot.range := 18;
                  LiveShot.t := 4090; LiveShot.consensus := None;
                  LiveShot.calibResult := None |}).
  vm_compute. right. left. reflexivity.
Defined.

(** X15.  Feed a recording to the live loop of the tracker, with a buffer
    whose [shiftSize] is at most [maxSize + 1].  Every shot was reported
    with some sample number [n], between 51 and 90 samples after its peak
    and at the time stored in that sample, and at its [idx] it passes every
    gate of the batch scan (local maximum, baseline, peak, dip, range and
    recovery) run over the [n] samples of the session received by then: the
    buffer's compactions do not change what live mode sees. *)
Theorem live_shots_pass_batch_gates :
  forall (maxSize shiftSize : nat) (d : ShotDetector) (samples : list Sample),
    shiftSize <= maxSize + 1 ->
    forall sh, In sh (Tracker.shots (Tracker.live maxSize shiftSize d samples)) ->
      exists n, reportedAt samples sh n.
Proof.
  intros maxSize shiftSize d samples Hs.
  induction samples as [|x xs IH] using rev_ind; [intros sh []|].
  intros sh Hin. rewrite TrackerFacts.live_snoc in Hin. unfold Tracker.onSample in Hin.
  destruct (TrackerFacts.live_state maxSize shiftSize d xs) as [_ Hb].
  set (b := IMUBuffer.push (Tracker.buffer (Tracker.live maxSize shiftSize d xs)) x) in *.
  assert (Eb : b = BufferRun.pushAll (IMUBuffer.new maxSize shiftSize) (xs ++ [x])).
  { unfold b. rewrite Hb. unfold BufferRun.pushAll. now rewrite fold_left_app. }
  destruct (DetectorMore.processSample_cases
              (Tracker.shotDetector (Tracker.live maxSize shiftSize d xs)) b (t x))
    as [E|(i & base & dipIdx & recIdx & Hlen & Hi & HP & _ & _ & _ & E)];
    rewrite E in Hin; cbn [Tracker.shots] in Hin.
  { destruct (IH sh Hin) as (n & Hn). exists n. now apply LiveFacts.reportedAt_more. }
  apply in_app_or in Hin. destruct Hin as [Hin|[<-|[]]].
  { destruct (IH sh Hin) as (n & Hn). exists n. now apply LiveFacts.reportedAt_more. }
  pose proof (BufferMore.pushAll_stream maxSize shiftSize (xs ++ [x]) Hs)
    as (_ & _ & Hd & Ho & _).
  cbv zeta in Hd, Ho. rewrite <- Eb in Hd, Ho.
  cbv zeta in Hlen, Hi, HP. unfold IMUBuffer.length in *.
  rewrite Hd in Hlen, Hi, HP. rewrite <- skipn_map in HP.
  rewrite <- (length_map aMag) in HP.  rewrite <- skipn_map in HP.
  unfold SCAN_START_OFFSET, SCAN_END_OFFSET, BASELINE_WINDOW, BASELINE_OFFSET in *.
  rewrite length_skipn in Hlen, Hi.
  assert (Ho' : IMUBuffer.offset b <= length (map aMag (xs ++ [x]))) by now rewrite length_map.
  assert (H100 : 100 <= i) by lia.
  pose proof (ShiftFacts.passed_skipn _ _ _ _ _ _ Ho' H100 HP) as HS.
  rewrite length_map in HS.
  exists (length (xs ++ [x])).
  unfold reportedAt.
  cbn [liveShot LiveShot.idx LiveShot.t LiveShot.mag LiveShot.dipMag LiveShot.recoveryMag].
  unfold IMUBuffer.absIndex. rewrite Hd, <- !skipn_map, !ShiftFacts.get_skipn.
  replace (i + IMUBuffer.offset b) with (IMUBuffer.offset b + i) by lia.
  split; [lia|]. split; [lia|]. split.
  { exists x. split; [|reflexivity]. rewrite length_app. simpl.
    replace (length xs + 1 - 1) with (length xs) by lia.
    rewrite nth_error_app2, Nat.sub_diag by lia. reflexivity. }
  exists base, (IMUBuffer.offset b + dipIdx), (IMUBuffer.offset b + recIdx).
  rewrite firstn_all. split; [exact HS|]. auto.
Qed.

(** [twoShots] through a buffer of 250 that drops 100 at a time: the
    second shot, in slot 150 of the buffer, is the peak at 250 of the
    recording. *)
Lemma live_shots_pass_batch_gates_witness :
  exists n, reportedAt twoShots Cases.secondLive n.
Proof.
  apply (live_shots_pass_batch_gates 250 100 new twoShots ltac:(lia) Cases.secondLive).
  vm_compute. right. left. reflexivity.
Defined.


(** ** Pattern extraction *)

(** X16.  The peaks of the patterns that [extractPatterns] returns lie
    at indices from 2 up to, but not including, [imuData.length - 65], any
    two of them at least 20 samples apart, in increasing order; every
    pattern carries the label that was passed in; and a recording of fewer
    than 68 samples yields no pattern. *)
Theorem pattern_peaks_are_spaced :
  forall (imuData : list Sample) (label : String.string),
    spaced 20 (map idx (extractPatterns imuData label)) /\
    (forall p, In p (extractPatterns imuData label) ->
       PatternExtraction.label p = label /\ 2 <= idx p < length imuData - 65) /\
    (length imuData < 68 -> extractPatterns imuData label = []).
Proof.
  intros imuData label.
  destruct (PatternFacts.extractPatterns_facts imuData label) as [G1 G2].
  split; [exact G2|].
  assert (G : forall p, In p (extractPatterns imuData label) ->
       PatternExtraction.label p = label /\ 2 <= idx p < length imuData - 65).
  { intros p Hin. destruct (G1 p Hin) as (Hl & Hi & _). split; [now symmetry | exact Hi]. }
  split; [exact G|].
  intros Hlen. destruct (extractPatterns imuData label) as [|p rest]; [reflexivity|].
  destruct (G p (or_introl eq_refl)) as [_ Hi]. lia.
Qed.

(** The pattern that [oneShot] yields. *)
Lemma pattern_peaks_are_spaced_witness :
  PatternExtraction.label Cases.thePattern = "shooting"%string /\
  2 <= idx Cases.thePattern < length oneShot - 65.
Proof.
  apply (proj1 (proj2 (pattern_peaks_are_spaced oneShot "shooting"%string))).
  vm_compute. left. reflexivity.
Defined.

(** X17.  Every pattern of [extractPatterns] passed the relaxed gates:
    its peak is a local maximum as the detector tests it and is not below
    [max(globalMean + 1.0 * globalStd, 11)], hence not below 11 when these
    are numbers; its baseline has at least 10 samples; the smallest
    magnitude of the 34 samples after the peak is no less than 3 below the
    peak, and the largest of the 29 samples after that dip no less than 2
    above it.  Its features are those of [_extractFeatures] at these three
    indices, so its [range] is not below 3. *)
Theorem patterns_passed_relaxed_gates :
  forall (imuData : list Sample) (label : String.string) (p : Pattern),
    In p (extractPatterns imuData label) ->
    exists dipIdx recIdx baseMean,
      Relaxed (map aMag imuData) (idx p) dipIdx recIdx baseMean /\
      MotionCalibrator._extractFeatures imuData (idx p) dipIdx recIdx baseMean =
        Some (features p) /\
      MotionCalibrator.Features.peakMag (features p) = JS.get (map aMag imuData) (idx p) /\
      MotionCalibrator.Features.dipMag (features p) = JS.get (map aMag imuData) dipIdx /\
      MotionCalibrator.Features.recoveryMag (features p) = JS.get (map aMag imuData) recIdx /\
      (MotionCalibrator.Features.range (features p) <? 3)%float = false.
Proof.
  intros imuData label p Hin.
  destruct (PatternFacts.extractPatterns_facts imuData label) as [G1 _].
  destruct (G1 p Hin) as (_ & _ & dipIdx & recIdx & baseMean & HR & Hf).
  exists dipIdx, recIdx, baseMean. split; [exact HR|]. split; [exact Hf|].
  unfold MotionCalibrator._extractFeatures in Hf.
  destruct (_ || _); [discriminate|].
  destruct (nth_error imuData (idx p)) as [ps|] eqn:E1; [|discriminate].
  destruct (nth_error imuData dipIdx) as [ds|] eqn:E2; [|discriminate].
  destruct (nth_error imuData recIdx) as [rs|] eqn:E3; [|discriminate].
  cbv zeta in Hf. injection Hf as Hf'. rewrite <- Hf'.
  cbn [MotionCalibrator.Features.peakMag MotionCalibrator.Features.dipMag
       MotionCalibrator.Features.recoveryMag MotionCalibrator.Features.range].
  assert (G : forall k s, nth_error imuData k = Some s -> JS.get (map aMag imuData) k = aMag s).
  { intros k s Hk. unfold JS.get. apply nth_error_nth. now rewrite nth_error_map, Hk. }
  pose proof (relaxed_drop HR) as Hd.
  rewrite (G _ _ E1), (G _ _ E2) in Hd. rewrite (G _ _ E1), (G _ _ E2), (G _ _ E3).
  repeat split; try reflexivity. exact Hd.
Qed.

(** The pattern of [oneShot]: a drop of 18 to the dip at 112. *)
Lemma patterns_passed_relaxed_gates_witness :
  exists dipIdx recIdx baseMean,
    Relaxed (map aMag oneShot) (idx Cases.thePattern) dipIdx recIdx baseMean /\
    MotionCalibrator._extractFeatures oneShot (idx Cases.thePattern) dipIdx recIdx baseMean =
      Some (features Cases.thePattern) /\
    MotionCalibrator.Features.peakMag (features Cases.thePattern) =
      JS.get (map aMag oneShot) (idx Cases.thePattern) /\
    MotionCalibrator.Features.dipMag (features Cases.thePattern) =
      JS.get (map aMag oneShot) dipIdx /\
    MotionCalibrator.Features.recoveryMag (features Cases.thePattern) =
      JS.get (map aMag oneShot) recIdx /\
    (MotionCalibrator.Features.range (features Cases.thePattern) <? 3)%float = false.
Proof.
  apply (patterns_passed_relaxed_gates oneShot "shooting"%string Cases.thePattern).
  vm_compute. left. reflexivity.
Defined.

(** ** Calibration *)

(** X18.  [calibrate] counts what it profiles: for each of the four
    activities the profile is [null] exactly when the pattern count is 0,
    and otherwise the profile's [count] is the pattern count.  The timestamp
    is the clock reading; the set is handed to [save], and when the write to
    storage fails the storage is left as it was and the set is returned all
    the same. *)
Theorem calibrate_counts_its_patterns :
  forall (Store : Type) (setItem : Store -> String.string -> String.string -> option Store)
         (stringify : CalibrationSet -> String.string) (now : float) (store : Store)
         (walkingIMU runningIMU dribblingIMU shootingIMU : list Sample),
    let result :=
      calibrate setItem stringify now store walkingIMU runningIMU dribblingIMU shootingIMU in
    let cal := fst result in
    counted (MotionCalibrator.Profiles.walking (profiles cal))
            (PatternCounts.walking (patternCounts cal)) /\
    counted (MotionCalibrator.Profiles.running (profiles cal))
            (PatternCounts.running (patternCounts cal)) /\
    counted (MotionCalibrator.Profiles.dribbling (profiles cal))
            (PatternCounts.dribbling (patternCounts cal)) /\
    counted (MotionCalibrator.Profiles.shooting (profiles cal))
            (PatternCounts.shooting (patternCounts cal)) /\
    PatternCounts.shooting (patternCounts cal) =
      length (extractPatterns shootingIMU "shooting"%string) /\
    timestamp cal = now /\
    snd result = save setItem stringify store cal /\
    (setItem store CALIB_STORAGE_KEY (stringify cal) = None -> snd result = store).
Proof.
  intros. subst result cal. unfold calibrate. cbv zeta.
  cbn [fst snd profiles patternCounts timestamp
       MotionCalibrator.Profiles.walking MotionCalibrator.Profiles.running
       MotionCalibrator.Profiles.dribbling MotionCalibrator.Profiles.shooting
       PatternCounts.walking PatternCounts.running PatternCounts.dribbling
       PatternCounts.shooting].
  repeat (split; [apply CalibrationFacts.profileOf_counted|]).
  split; [reflexivity|]. split; [reflexivity|]. split; [reflexivity|].
  intros H. unfold save. now rewrite H.
Qed.

(** A browser whose storage is full: the calibration set is returned
    and the storage is untouched. *)
Lemma calibrate_counts_its_patterns_witness :
  snd (calibrate (fun (_ : unit) _ _ => None) (fun _ => ""%string) 0%float tt
                 [] [] [] oneShot) = tt.
Proof.
  apply (calibrate_counts_its_patterns unit (fun _ _ _ => None) (fun _ => ""%string)
           0%float tt [] [] [] oneShot).
  reflexivity.
Defined.

(** X19.  A calibration without a shooting profile is inert.  When the
    shooting recording yields no pattern (one of fewer than 68 samples, or a
    skipped step, yields none), the set that [calibrate] returns makes
    [classify] accept every feature vector, and a detector given that set
    records, in batch mode, the shots it records with no calibration at all;
    they differ at most in the [calibResult] they carry. *)
Theorem calibration_without_shooting_is_inert :
  forall (Store : Type) (setItem : Store -> String.string -> String.string -> option Store)
         (stringify : CalibrationSet -> String.string) (now : float) (store : Store)
         (walkingIMU runningIMU dribblingIMU shootingIMU : list Sample),
    extractPatterns shootingIMU "shooting"%string = [] ->
    let cal :=
      asCalibration
        (fst (calibrate setItem stringify now store
                        walkingIMU runningIMU dribblingIMU shootingIMU)) in
    (forall f, MotionCalibrator.isShot (MotionCalibrator.classify f (Some cal)) = true) /\
    (forall (d : ShotDetector) (imuData : list Sample),
        map withoutCalibResult (detectAll (withCalibration d (Some cal)) imuData) =
        detectAll (withCalibration d None) imuData).
Proof.
  intros Store setItem stringify now store w r dr s Hs. cbv zeta.
  assert (C : forall f, MotionCalibrator.isShot
                (MotionCalibrator.classify f
                   (Some (asCalibration (fst (calibrate setItem stringify now store w r dr s)))))
              = true).
  { intros f. apply CalibrationFacts.classify_no_shooting.
    intros profs H. unfold asCalibration, calibrate in H. cbv zeta in H.
    cbn [fst profiles MotionCalibrator.profiles] in H. inversion H; subst profs.
    cbn [MotionCalibrator.Profiles.shooting]. now rewrite Hs. }
  split; [exact C|].
  intros d imuData.
  set (cal := asCalibration (fst (calibrate setItem stringify now store w r dr s))) in *.
  assert (N : forall sh, In sh (detectAll (withCalibration d None) imuData) ->
                         withoutCalibResult sh = sh).
  { intros sh Hin.
    destruct (DetectorMore.detectAll_recorded _ _ _ Hin)
      as (i & s0 & base & dipIdx & recIdx & _ & _ & _ & _ & _ & ->).
    reflexivity. }
  rewrite (CalibrationFacts.detectAll_sameButCalib
             (withCalibration d (Some cal)) (withCalibration d None) imuData).
  - rewrite <- (map_id (detectAll (withCalibration d None) imuData)) at 2.
    apply map_ext_in. exact N.
  - reflexivity.
  - reflexivity.
  - intros i dipIdx recIdx m. unfold calibResultOf. cbn [calibration withCalibration].
    destruct (MotionCalibrator._extractFeatures _ _ _ _ _) as [f|]; [|reflexivity].
    cbn [calibrationRejects]. now rewrite C.
  - intros. reflexivity.
Qed.

(** Every calibration step skipped: [oneShot] is detected as before. *)
Lemma calibration_without_shooting_is_inert_witness :
  map withoutCalibResult
      (detectAll
         (withCalibration new
            (Some (asCalibration
                     (fst (calibrate (fun (_ : unit) _ _ => None) (fun _ => ""%string)
                                     0%float tt [] [] [] [])))))
         oneShot) =
  detectAll (withCalibration new None) oneShot.
Proof.
  apply (proj2 (calibration_without_shooting_is_inert unit (fun _ _ _ => None)
                  (fun _ => ""%string) 0%float tt [] [] [] [] eq_refl)).
Defined.

(** ** Features and classification *)

(** X20.  [_extractFeatures] returns [null] exactly when one of the
    three indices is past the end of the recording.  Of the features it
    returns, [range] is [peakMag - dipMag]; [dipRatio] is 1 when the baseline
    mean is not positive, so that nothing is divided by zero; and
    [maxGyroInWindow] is not below the gyroscope magnitude of any sample from
    5 before the peak to 5 after the recovery, nor below 0. *)
Theorem features_of_a_candidate :
  forall (imuData : list Sample) (peakIdx dipIdx recIdx : nat) (baselineMean : float),
    (MotionCalibrator._extractFeatures imuData peakIdx dipIdx recIdx baselineMean = None <->
     (length imuData <= peakIdx \/ length imuData <= dipIdx \/ length imuData <= recIdx)) /\
    (forall f,
       MotionCalibrator._extractFeatures imuData peakIdx dipIdx recIdx baselineMean = Some f ->
       MotionCalibrator.Features.range f =
         (MotionCalibrator.Features.peakMag f - MotionCalibrator.Features.dipMag f)%float /\
       ((0 <? baselineMean)%float = false -> MotionCalibrator.Features.dipRatio f = 1%float) /\
       (MotionCalibrator.Features.maxGyroInWindow f <? 0)%float = false /\
       (forall j, peakIdx - 5 <= j <= recIdx + 5 -> j < length imuData ->
          (MotionCalibrator.Features.maxGyroInWindow f <?
           MotionCalibrator.gyroMagAt imuData j)%float = false)).
Proof.
  intros imuData peakIdx dipIdx recIdx baselineMean.
  split; [apply FeatureFacts.extractFeatures_none|].
  intros f Hf. unfold MotionCalibrator._extractFeatures in Hf.
  destruct (_ || _); [discriminate|].
  destruct (nth_error imuData peakIdx) as [ps|]; [|discriminate].
  destruct (nth_error imuData dipIdx) as [ds|]; [|discriminate].
  destruct (nth_error imuData recIdx) as [rs|]; [|discriminate].
  cbv zeta in Hf.
  apply (f_equal (fun o => match o with Some x => x | None => f end)) in Hf.
  cbv beta iota in Hf. rewrite <- Hf.
  cbn [MotionCalibrator.Features.range MotionCalibrator.Features.peakMag
       MotionCalibrator.Features.dipMag MotionCalibrator.Features.dipRatio
       MotionCalibrator.Features.maxGyroInWindow].
  split; [reflexivity|]. split; [intros ->; reflexivity|].
  destruct (FeatureFacts.max_fold (MotionCalibrator.gyroMagAt imuData)
              (seq (peakIdx - 5) (S (Nat.min (length imuData - 1) (recIdx + 5)) - (peakIdx - 5)))
              0%float) as [H0 Hmax].
  cbv zeta in H0, Hmax.
  match type of H0 with ?r = _ \/ _ => set (mx := r) in * end.
  split.
  - destruct H0 as [H0|H0]; [rewrite H0; reflexivity|].
    destruct (mx <? 0)%float eqn:E; [|reflexivity].
    pose proof (JSFacts.ltb_trans _ _ _ H0 E) as C. vm_compute in C. discriminate.
  - intros j Hj Hl. apply Hmax. apply in_seq. lia.
Qed.

(** The candidate of [oneShot]: peak 100, dip 112, recovery 132. *)
Lemma features_of_a_candidate_witness :
  MotionCalibrator.Features.range (features Cases.thePattern) =
  (MotionCalibrator.Features.peakMag (features Cases.thePattern)
   - MotionCalibrator.Features.dipMag (features Cases.thePattern))%float.
Proof.
  apply (proj2 (features_of_a_candidate oneShot 100 112 132 10%float)
               (features Cases.thePattern)).
  vm_compute. reflexivity.
Defined.

(** X21.  A calibration that has a shooting profile but none for
    walking, running or dribbling accepts every candidate: with nothing to be
    closer to, [classify] never rejects. *)
Theorem shooting_profile_alone_accepts :
  forall (f : MotionCalibrator.Features.t) (cal : MotionCalibrator.Calibration)
         (profs : MotionCalibrator.Profiles.t),
    MotionCalibrator.profiles cal = Some profs ->
    MotionCalibrator.Profiles.walking profs = None ->
    MotionCalibrator.Profiles.running profs = None ->
    MotionCalibrator.Profiles.dribbling profs = None ->
    MotionCalibrator.isShot (MotionCalibrator.classify f (Some cal)) = true.
Proof.
  intros f cal profs Hp Hw Hr Hd. unfold MotionCalibrator.classify.
  rewrite Hp, Hw, Hr, Hd.
  destruct (MotionCalibrator.Profiles.shooting profs) as [sp|]; [|reflexivity].
  cbv zeta.
  assert (S1 : match MotionCalibrator.Profile.dipRatio sp with
               | Some sd =>
                 if (0 <? MotionCalibrator.Stat.std sd)%float
                 then existsb (MotionCalibrator.hardReject f
                        (MotionCalibrator.Stat.mean sd + 2 * MotionCalibrator.Stat.std sd)%float)
                        [None; None; None]
                 else false
               | None => false
               end = false).
  { destruct (MotionCalibrator.Profile.dipRatio sp); [|reflexivity].
    destruct (_ <? _)%float; reflexivity. }
  rewrite S1.
  change (JS.Math_min_list [MotionCalibrator.distTo f None; MotionCalibrator.distTo f None;
                            MotionCalibrator.distTo f None] + 0.5)%float with infinity.
  rewrite JSFacts.infinity_not_below. reflexivity.
Qed.

(** A calibration made of the one pattern of [oneShot] alone. *)
Lemma shooting_profile_alone_accepts_witness :
  MotionCalibrator.isShot
    (MotionCalibrator.classify (uniform 10) (Some Cases.shootingOnly)) = true.
Proof.
  apply (shooting_profile_alone_accepts (uniform 10) Cases.shootingOnly
           {| MotionCalibrator.Profiles.walking := None;
              MotionCalibrator.Profiles.running := None;
              MotionCalibrator.Profiles.dribbling := None;
              MotionCalibrator.Profiles.shooting :=
                PatternExtraction.profileOf [Cases.thePattern] |});
    reflexivity.
Defined.

(** ** Profiles *)

(** X22.  The [min] and [max] that [computeProfile] stores for a feature
    bracket every value of that feature that is a number, and each is the
    value of one of the patterns; a feature that is NaN in every pattern
    gets the all-zero statistic. *)
Theorem profile_bounds_bracket_values :
  forall (patterns : list MotionCalibrator.Features.t) (profile : MotionCalibrator.Profile.t)
         (key : MotionCalibrator.FeatureKey),
    MotionCalibrator.computeProfile (Some patterns) = Some profile ->
    exists st,
      MotionCalibrator.stat profile key = Some st /\
      (forall p, In p patterns -> JS.number (MotionCalibrator.feature p key) ->
         (MotionCalibrator.feature p key <? MotionCalibrator.Stat.min st)%float = false /\
         (MotionCalibrator.Stat.max st <? MotionCalibrator.feature p key)%float = false /\
         exists lo hi, In lo patterns /\ In hi patterns /\
           MotionCalibrator.Stat.min st = MotionCalibrator.feature lo key /\
           MotionCalibrator.Stat.max st = MotionCalibrator.feature hi key) /\
      ((forall p, In p patterns -> is_nan (MotionCalibrator.feature p key) = true) ->
       st = {| MotionCalibrator.Stat.mean := 0; MotionCalibrator.Stat.std := 0;
               MotionCalibrator.Stat.min := 0; MotionCalibrator.Stat.max := 0 |}).
Proof.
  intros ps profile key Hp. exists (MotionCalibrator.keyStat ps key).
  split; [now apply ProfileFacts.stat_of_profile|].
  unfold MotionCalibrator.keyStat. cbv zeta.
  set (vals := filter (fun v => negb (is_nan v))
                      (map (fun p => MotionCalibrator.feature p key) ps)).
  assert (Hv : forall x, In x vals -> JS.number x).
  { intros x Hx. apply filter_In in Hx. destruct Hx as [_ Hx].
    unfold JS.number. now apply negb_true_iff in Hx. }
  assert (Hsrc : forall x, In x vals -> exists p, In p ps /\ x = MotionCalibrator.feature p key).
  { intros x Hx. apply filter_In in Hx. destruct Hx as [Hx _].
    apply in_map_iff in Hx. destruct Hx as (p & <- & Hin). eauto. }
  split.
  - intros p Hin Hn.
    assert (Hx : In (MotionCalibrator.feature p key) vals).
    { apply filter_In. split; [apply in_map_iff; eauto|].
      unfold JS.number in Hn. now rewrite Hn. }
    assert (Hne : vals <> []) by (intros E; rewrite E in Hx; exact Hx).
    destruct (ProfileFacts.min_list_bounds vals Hne Hv) as [Hmi Hmb].
    destruct (ProfileFacts.max_list_bounds vals Hne Hv) as [Hxi Hxb].
    destruct vals as [|v0 rest] eqn:Ev; [contradiction|].
    cbn [MotionCalibrator.Stat.min MotionCalibrator.Stat.max].
    split; [exact (Hmb _ Hx)|]. split; [exact (Hxb _ Hx)|].
    destruct (Hsrc _ Hmi) as (lo & Hlo & Elo). destruct (Hsrc _ Hxi) as (hi & Hhi & Ehi).
    exists lo, hi. auto.
  - intros Hnan.
    assert (E : vals = []).
    { destruct vals as [|v0 rest] eqn:Ev; [reflexivity|].
      assert (Hin : In v0 (v0 :: rest)) by now left.
      pose proof (Hv _ Hin) as N. destruct (Hsrc _ Hin) as (p & Hp' & ->).
      unfold JS.number in N. rewrite (Hnan p Hp') in N. discriminate. }
    now rewrite E.
Qed.

(** The profile of [spread]: no pattern's peak is below its minimum. *)
Lemma profile_bounds_bracket_values_witness :
  exists st,
    MotionCalibrator.stat Cases.spreadProfile MotionCalibrator.peakMag = Some st /\
    (MotionCalibrator.feature (uniform 10) MotionCalibrator.peakMag
     <? MotionCalibrator.Stat.min st)%float = false.
Proof.
  destruct (profile_bounds_bracket_values Cases.spread Cases.spreadProfile
              MotionCalibrator.peakMag eq_refl) as (st & Hst & Hb & _).
  exists st. split; [exact Hst|].
  apply (Hb (uniform 10)); [left; reflexivity | reflexivity].
Defined.

(** X23.  A shooting profile without spread (every standard deviation
    0, as ten identical patterns give) is infinitely far from every
    candidate.  [classify] then accepts a candidate only when the nearest
    noise profile is infinitely far too: it rejects exactly when
    [minNoiseDist + 0.5] is below infinity. *)
Theorem spreadless_shooting_profile :
  forall (f : MotionCalibrator.Features.t) (cal : MotionCalibrator.Calibration)
         (profs : MotionCalibrator.Profiles.t) (sp : MotionCalibrator.Profile.t),
    MotionCalibrator.profiles cal = Some profs ->
    MotionCalibrator.Profiles.shooting profs = Some sp ->
    (forall key st, MotionCalibrator.stat sp key = Some st ->
                    (MotionCalibrator.Stat.std st =? 0)%float = true) ->
    let minNoiseDist :=
      JS.Math_min_list
        [ MotionCalibrator.distTo f (MotionCalibrator.Profiles.walking profs);
          MotionCalibrator.distTo f (MotionCalibrator.Profiles.running profs);
          MotionCalibrator.distTo f (MotionCalibrator.Profiles.dribbling profs) ] in
    MotionCalibrator.distTo f (Some sp) = infinity /\
    MotionCalibrator.isShot (MotionCalibrator.classify f (Some cal)) =
      negb (minNoiseDist + 0.5 <? infinity)%float.
Proof.
  intros f cal profs sp Hp Hs Hflat. cbv zeta.
  split; [now apply ProfileFacts.distTo_spreadless|].
  unfold MotionCalibrator.classify. rewrite Hp, Hs. cbv zeta.
  assert (S1 : match MotionCalibrator.Profile.dipRatio sp with
               | Some sd =>
                 if (0 <? MotionCalibrator.Stat.std sd)%float
                 then existsb (MotionCalibrator.hardReject f
                        (MotionCalibrator.Stat.mean sd + 2 * MotionCalibrator.Stat.std sd)%float)
                        [ MotionCalibrator.Profiles.walking profs;
                          MotionCalibrator.Profiles.running profs;
                          MotionCalibrator.Profiles.dribbling profs ]
                 else false
               | None => false
               end = false).
  { destruct (MotionCalibrator.Profile.dipRatio sp) as [sd|] eqn:E; [|reflexivity].
    rewrite (ProfileFacts.eqb_zero_not_positive _
               (Hflat MotionCalibrator.dipRatio sd E)). reflexivity. }
  rewrite S1, (ProfileFacts.distTo_spreadless f sp Hflat).
  destruct (_ <? infinity)%float; reflexivity.
Qed.

(** A candidate that is the very pattern of [flatShooting] is rejected:
    the walking profile is at a finite distance. *)
Lemma spreadless_shooting_profile_witness :
  MotionCalibrator.isShot
    (MotionCalibrator.classify (uniform 20)
       (Some {| MotionCalibrator.profiles := Some Cases.flatShooting |})) = false.
Proof.
  refine (eq_trans
    (proj2 (spreadless_shooting_profile (uniform 20)
              {| MotionCalibrator.profiles := Some Cases.flatShooting |}
              Cases.flatShooting
              (Cases.uniformProfile 10 {| MotionCalibrator.Stat.mean := 20;
                                          MotionCalibrator.Stat.std := 0;
                                          MotionCalibrator.Stat.min := 20;
                                          MotionCalibrator.Stat.max := 20 |})
              eq_refl eq_refl _)) _).
  - intros key st H. destruct key; injection H as <-; reflexivity.
  - vm_compute. reflexivity.
Defined.

(** ** The session *)

(** X24.  [fromJSON] undoes [toJSON]: a session whose id is not empty
    and whose start time is a number other than 0 comes back field for
    field, whatever the clock says at either end.  A session with an empty
    id comes back with the fresh id ['bball_' + Date.now()] of the moment of
    loading.  The summary that [toJSON] writes counts the four arrays. *)
Theorem session_round_trip :
  forall (E : Session.Elements) (s : Session.Session E) (now1 now2 now3 now4 : N),
    (Session.sessionId s <> ""%string -> JS.truthy (Session.startTime s) = true ->
     Session.fromJSON (Session.toJSON s now1 now2) now3 now4 = s) /\
    (Session.sessionId s = ""%string ->
     Session.sessionId (Session.fromJSON (Session.toJSON s now1 now2) now3 now4) =
     String.append "bball_" (Session.decimal now3)) /\
    Session.Data.summary (Session.toJSON s now1 now2) =
      Some {| Session.Summary.imuSamples := length (Session.imu s);
              Session.Summary.gpsSamples := length (Session.gps s);
              Session.Summary.events := length (Session.events s);
              Session.Summary.shots := length (Session.shots s) |}.
Proof.
  intros E s now1 now2 now3 now4. split; [|split; [|reflexivity]].
  - intros Hid Hst. destruct s as [id st imu gps evs shs gc cp segs ue].
    unfold Session.fromJSON, Session.toJSON. cbv zeta.
    cbn [Session.sessionId Session.startTime Session.imu Session.gps Session.events
         Session.shots Session.gpsCalibration Session.courtPositions Session.segments
         Session.userEdits Session.Data.sessionId Session.Data.startTime Session.Data.imu
         Session.Data.gps Session.Data.events Session.Data.shots
         Session.Data.gpsCalibration Session.Data.courtPositions Session.Data.segments
         Session.Data.userEdits Session.object_or Session.string_or JS.or_default] in *.
    apply String.eqb_neq in Hid. rewrite Hid.
    unfold JS.or_else. rewrite Hst.
    destruct segs; reflexivity.
  - intros Hid. unfold Session.fromJSON, Session.toJSON. cbv zeta.
    cbn [Session.sessionId Session.Data.sessionId Session.string_or Session.new].
    rewrite Hid. reflexivity.
Qed.

(** A session recorded at 1700000000000 ms comes back as it was. *)
Lemma session_round_trip_witness :
  Session.fromJSON
    (Session.toJSON (Session.addIMU (Session.new Cases.plain 1700000000000 1700000000000) tt)
                    1700000060000 1700000060000)
    1700000090000 1700000090000 =
  Session.addIMU (Session.new Cases.plain 1700000000000 1700000000000) tt.
Proof.
  apply (proj1 (session_round_trip Cases.plain
                  (Session.addIMU (Session.new Cases.plain 1700000000000 1700000000000) tt)
                  1700000060000 1700000060000 1700000090000 1700000090000)).
  - vm_compute. discriminate.
  - vm_compute. reflexivity.
Defined.

(** ** Zones *)

(** X25.  Whatever [Math.atan2] returns, [classifyZone] names one of the
    eleven zones of [ALL_ZONES], and [zoneColor] gives that zone its own
    colour from [ZONE_COLORS], never the fallback ['#888']. *)
Theorem every_zone_has_a_colour :
  forall (Math_atan2 : float -> float -> float) (x y : float),
    let zone := Zones.classifyZone Math_atan2 x y in
    In zone Zones.ALL_ZONES /\
    (exists c, In (zone, c) Zones.ZONE_COLORS /\ Zones.zoneColor zone = c) /\
    Zones.zoneColor zone <> "#888"%string.
Proof.
  intros atan2 x y. unfold Zones.classifyZone. cbv zeta.
  repeat match goal with
         | |- context [if ?c then _ else _] => destruct c
         end;
    (split; [vm_compute; tauto|]);
    (split; [eexists; split; [|vm_compute; reflexivity]; vm_compute; tauto
            | vm_compute; discriminate]).
Qed.

(** ** The movement detector *)

(** X26.  Feed any samples to a fresh movement detector.  Its window
    then holds [min(n, 20)] magnitudes for the [n] samples fed, one flag was
    returned per sample, and the intensity, when it is a number, lies
    between 0 and 1. *)
Theorem movement_intensity_in_unit_range :
  forall (samples : list (float * float)),
    let d := fst (Movement.feed MovementDetector.new samples) in
    length (MovementDetector.window d) = Nat.min (length samples) 20 /\
    length (snd (Movement.feed MovementDetector.new samples)) = length samples /\
    (JS.number (MovementDetector.intensity d) ->
     (0 <=? MovementDetector.intensity d)%float = true /\
     (MovementDetector.intensity d <=? 1)%float = true).
Proof.
  intros samples. cbv zeta.
  apply (MovementMore.feed_keeps samples MovementDetector.new).
  - simpl. unfold MovementDetector.MOVEMENT_WINDOW. lia.
  - intros _. split; reflexivity.
Qed.

(** After the twenty samples of [shaking] the intensity is a number. *)
Lemma movement_intensity_in_unit_range_witness :
  (0 <=? MovementDetector.intensity shaken)%float = true /\
  (MovementDetector.intensity shaken <=? 1)%float = true.
Proof.
  apply (proj2 (proj2 (movement_intensity_in_unit_range (shaking 1000)))).
  vm_compute. reflexivity.
Defined.

(** ** The clock text *)

(** X27.  For a whole number of milliseconds from 0 to 2^53 - 1,
    [formatTime] shows the whole seconds elapsed and nothing else: two such
    times give the same text exactly when they are in the same second.  The
    text is that of [formatTimeFromSec] for the whole seconds; it is the
    minutes in at least two characters, a colon, and the seconds in exactly
    two. *)
Theorem formatTime_shows_whole_seconds :
  forall (ms ms' : Z),
    (0 <= ms < 2 ^ 53)%Z -> (0 <= ms' < 2 ^ 53)%Z ->
    (Util.formatTime ms = Util.formatTime ms' <-> (ms / 1000 = ms' / 1000)%Z) /\
    Util.formatTime ms = Util.formatTimeFromSec (ms / 1000) /\
    exists mm ss,
      Util.formatTime ms = Some (String.append mm (String.String ":"%char ss)) /\
      2 <= String.length mm /\ String.length ss = 2.
Proof.
  intros ms ms' H H'.
  pose proof (TimeFacts.whole_seconds_safe ms H) as Ht.
  pose proof (TimeFacts.whole_seconds_safe ms' H') as Ht'.
  assert (E : forall x, (0 <= x < 2 ^ 53)%Z ->
                Util.formatTime x = Util.formatTimeFromSec (x / 1000)).
  { intros x Hx.
    rewrite (TimeFacts.formatTime_safe x Hx).
    now rewrite (TimeFacts.formatTimeFromSec_safe (x / 1000) (TimeFacts.whole_seconds_safe x Hx)). }
  split; [|split; [exact (E ms H)|]].
  - rewrite (E ms H), (E ms' H'). split.
    + intros Eq. apply TimeFacts.formatTimeFromSec_inj; assumption.
    + intros Eq. now rewrite Eq.
  - rewrite (TimeFacts.formatTime_safe ms H).
    eexists _, _. split; [reflexivity|].
    split; [apply TimeFacts.padStart2_length|].
    apply TimeFacts.seconds_two_digits.
    rewrite Z.rem_mod_nonneg by lia. apply Z.mod_pos_bound. lia.
Qed.

(** 61000 ms is one minute and one second. *)
Lemma formatTime_shows_whole_seconds_witness :
  Util.formatTime 61000 = Util.formatTimeFromSec (61000 / 1000).
Proof.
  apply (proj1 (proj2 (formatTime_shows_whole_seconds 61000 61999
                         ltac:(lia) ltac:(lia)))).
Defined.
